(** * gocode-router: translation and dispatch pipeline

    A shallow embedding of the registry, the dispatcher, the Claude adapter,
    the ingress/egress translators and the HTTP surface of gocode-router,
    with the properties of its specification stated and settled against it.

    Go values are embedded as follows.
    - [string] is a Go string, read as its sequence of bytes.
    - [int] is a 64-bit two's-complement integer, carried as a [Z] with the
      wrap-around written out ([wrap_int]).
    - [map[string]T] held by value inside one owner (the registry) is a
      [gmap string T]; a [map[string]any] that travels inside a request is a
      reference into a store of maps ([heap]), because the dispatcher's
      clone is only observable through aliasing.
    - [error] is the inductive [error]: a message, an optional wrapped cause
      (the [%w] verb), and the [requestError] struct of the server package.
    - functions that allocate maps or talk to the upstream thread a
      [Backend], handlers thread a [World] (the same and the response being
      written), both through a small state monad. *)

From Stdlib Require Import ZArith NArith Ascii String List Bool Lia.
From stdpp Require Import base option gmap strings list fin_maps pretty.

Set Default Proof Using "Type".
#[local] Set Warnings "-register-all".
Local Open Scope string_scope.
Local Open Scope Z_scope.

(** ** The Go standard library, as far as the router uses it *)

Module strings.

Definition bytes (s : string) : list N :=
  List.map N_of_ascii (list_ascii_of_string s).

Definition of_bytes (l : list N) : string :=
  string_of_list_ascii (List.map ascii_of_N l).

(** [asciiSpace]: the one-byte white space of [unicode.IsSpace]. *)
Definition asciiSpace (c : N) : bool :=
  match c with
  | 9 | 10 | 11 | 12 | 13 | 32 => true
  | _ => false
  end%N.

(** Last byte of the three-byte white-space runes U+2000..U+200A, U+2028,
    U+2029 and U+202F, all of which start with E2 80. *)
Definition generalPunctuationSpace (d : N) : bool :=
  ((128 <=? d) && (d <=? 138) || (d =? 168) || (d =? 169) || (d =? 175))%N.

(** Strips every leading white-space rune: the ASCII ones, U+0085 and
    U+00A0 (C2 85, C2 A0), U+1680 (E1 9A 80), the E2 80 block above,
    U+205F (E2 81 9F) and U+3000 (E3 80 80). *)
Fixpoint trimLeft (l : list N) : list N :=
  match l with
  | [] => []
  | c :: r =>
      if asciiSpace c then trimLeft r
      else
        match c, r with
        | 194%N, d :: r2 =>
            if ((d =? 133) || (d =? 160))%N then trimLeft r2 else l
        | 225%N, 154%N :: 128%N :: r3 => trimLeft r3
        | 226%N, 128%N :: d :: r3 =>
            if generalPunctuationSpace d then trimLeft r3 else l
        | 226%N, 129%N :: 159%N :: r3 => trimLeft r3
        | 227%N, 128%N :: 128%N :: r3 => trimLeft r3
        | _, _ => l
        end
  end.

(** The same on the reversed byte sequence, for the trailing runes. *)
Fixpoint trimLeftRev (l : list N) : list N :=
  match l with
  | [] => []
  | c :: r =>
      if asciiSpace c then trimLeftRev r
      else
        match c, r with
        | 133%N, 194%N :: r2 => trimLeftRev r2
        | 160%N, 194%N :: r2 => trimLeftRev r2
        | 128%N, 154%N :: 225%N :: r3 => trimLeftRev r3
        | 128%N, 128%N :: 227%N :: r3 => trimLeftRev r3
        | 159%N, 129%N :: 226%N :: r3 => trimLeftRev r3
        | d, 128%N :: 226%N :: r3 =>
            if generalPunctuationSpace d then trimLeftRev r3 else l
        | _, _ => l
        end
  end.

(** [strings.TrimSpace]. *)
Definition TrimSpace (s : string) : string :=
  of_bytes (rev (trimLeftRev (rev (trimLeft (bytes s))))).

(** [strings.ToLower], exact on every string whose lower-cased form is
    ASCII: besides A..Z only U+0130 (C4 B0) and U+212A (E2 84 AA) have an
    ASCII lower case.  Other non-ASCII bytes are kept as they are (Go maps
    them to non-ASCII runes as well), so comparing the result with an
    ASCII constant, which is all the router does with it, is exact. *)
Fixpoint lower (l : list N) : list N :=
  match l with
  | [] => []
  | c :: r =>
      if ((65 <=? c) && (c <=? 90))%N then (c + 32)%N :: lower r
      else
        match c, r with
        | 196%N, 176%N :: r2 => 105%N :: lower r2
        | 226%N, 132%N :: 170%N :: r3 => 107%N :: lower r3
        | _, _ => c :: lower r
        end
  end.

Definition ToLower (s : string) : string := of_bytes (lower (bytes s)).

(** [strings.Join]. *)
Fixpoint Join (elems : list string) (sep : string) : string :=
  match elems with
  | [] => ""
  | [e] => e
  | e :: rest => e ++ sep ++ Join rest sep
  end.

(** [strings.HasPrefix] and [strings.Contains]. *)
Fixpoint HasPrefix (s prefix : string) : bool :=
  match prefix, s with
  | EmptyString, _ => true
  | String p prefix', String c s' =>
      if Ascii.eqb p c then HasPrefix s' prefix' else false
  | String _ _, EmptyString => false
  end.

Fixpoint Contains (s substr : string) : bool :=
  HasPrefix s substr ||
  match s with
  | EmptyString => false
  | String _ s' => Contains s' substr
  end.

End strings.

(** Go's [int] on the 64-bit targets the router is built for. *)
Definition min_int : Z := - 2 ^ 63.
Definition max_int : Z := 2 ^ 63 - 1.

Definition wrap_int (z : Z) : Z := (z + 2 ^ 63) mod 2 ^ 64 - 2 ^ 63.

Definition int_add (a b : Z) : Z := wrap_int (a + b).

(** IEEE-754 binary64, by its bit pattern. *)
Abbreviation float64 := Z.

Module strconv.

Definition quoteChar : ascii := ascii_of_N 34.
Definition backslash : ascii := ascii_of_N 92.

Fixpoint escape (s : string) : string :=
  match s with
  | EmptyString => EmptyString
  | String c s' =>
      if Ascii.eqb c quoteChar || Ascii.eqb c backslash
      then String backslash (String c (escape s'))
      else String c (escape s')
  end.

(** [strconv.Quote], which the [%q] verb applies to a string.  Exact on
    printable ASCII; control and non-ASCII bytes, which Go writes as
    escapes, are kept as they are. *)
Definition Quote (s : string) : string :=
  String quoteChar (escape s ++ String quoteChar EmptyString).

End strconv.

(** ** Errors *)

Module errors.

(** The package-level error variables.  Go compares them by identity, so
    each is a constructor of its own and not the text it carries. *)
Inductive sentinel :=
| ErrUnknownModel
| ErrDuplicateModel
| ErrUnsupportedOperation
| io_EOF
| errEmptyModel
| errEmptyMessages
| errUnsupportedStop
| errInvalidRole
| errInvalidContent
| errClaudeEmptyModel
| errClaudeEmptyMessages
| errClaudeInvalidRole
| errClaudeInvalidContent
| errClaudeInvalidSystem
| errClaudeUnsupportedStop.

#[global] Instance sentinel_eq_dec : EqDecision sentinel.
Proof. solve_decision. Defined.

Definition sentinelText (s : sentinel) : string :=
  match s with
  | ErrUnknownModel => "unknown model"
  | ErrDuplicateModel => "model already registered"
  | ErrUnsupportedOperation => "unsupported provider operation"
  | io_EOF => "EOF"
  | errEmptyModel => "model must be provided"
  | errEmptyMessages => "at least one message is required"
  | errUnsupportedStop => "unsupported stop value"
  | errInvalidRole => "invalid role"
  | errInvalidContent => "invalid message content"
  | errClaudeEmptyModel => "model must be provided"
  | errClaudeEmptyMessages => "at least one message is required"
  | errClaudeInvalidRole => "invalid role"
  | errClaudeInvalidContent => "invalid message content"
  | errClaudeInvalidSystem => "invalid system prompt"
  | errClaudeUnsupportedStop => "unsupported stop sequences"
  end.

(** [server.requestError]. *)
Record requestError := {
  Status : Z;
  Message : string;
  Type_ : string;
  Code : string
}.

Inductive error :=
| Sentinel (s : sentinel)
| New (msg : string)                  (* errors.New, fmt.Errorf without %w *)
| Wrap (msg : string) (cause : error) (* fmt.Errorf with %w; msg is the whole text *)
| Request (e : requestError)
| External (msg : string).            (* an error value made outside the repository *)

(** The [Error()] method. *)
Definition Error (e : error) : string :=
  match e with
  | Sentinel s => sentinelText s
  | New msg => msg
  | Wrap msg _ => msg
  | Request e => Message e
  | External msg => msg
  end.

(** [errors.Is] against a package-level variable. *)
Fixpoint Is (e : error) (target : sentinel) : bool :=
  match e with
  | Sentinel s => bool_decide (s = target)
  | Wrap _ cause => Is cause target
  | _ => false
  end.

(** [errors.As] with a [requestError] target. *)
Fixpoint As (e : error) : option requestError :=
  match e with
  | Request r => Some r
  | Wrap _ cause => As cause
  | _ => None
  end.

End errors.
Export errors.

(** A Go result pair [(T, error)]. *)
Abbreviation result A := (error + A)%type.
Abbreviation Err e := (inl e) (only parsing).
Abbreviation Ok a := (inr a) (only parsing).

(** ** JSON documents *)

Module json.

(** A JSON document as a tree.  Object members are kept in the order they
    are written; a number is an [int] or a [float64]. *)
Inductive JSON :=
| JNull
| JBool (b : bool)
| JInt (n : Z)
| JFloat (f : float64)
| JString (s : string)
| JArray (items : list JSON)
| JObject (members : list (string * JSON)).

(** A [json.RawMessage] field after the enclosing document was decoded:
    empty when the member is absent, else the member's document (the text
    [null] included). *)
Abbreviation RawMessage := (option JSON).

(** [json.Unmarshal(raw, &s)] with [s] a [string]: a JSON string is stored,
    [null] leaves the zero value, anything else is a type error. *)
Definition UnmarshalString (v : JSON) : option string :=
  match v with
  | JString s => Some s
  | JNull => Some ""
  | _ => None
  end.

(** [json.Unmarshal(raw, &l)] with [l] a [[]string]. *)
Definition UnmarshalStrings (v : JSON) : option (list string) :=
  match v with
  | JArray items => mapM UnmarshalString items
  | JNull => Some []
  | _ => None
  end.

(** A struct field takes the member whose key is its name, exactly or
    without regard to case.  For the names [type] and [text], which have no
    letter with a non-ASCII case variant, that is equality after
    lower-casing the key. *)
Definition keyMatches (field key : string) : bool :=
  String.eqb (strings.ToLower key) field.

(** Decoding the members of an object into a struct of two string fields
    [type] and [text]: each matching member overwrites the field, in order;
    other members are skipped. *)
Fixpoint unmarshalBlockMembers (members : list (string * JSON))
    (acc : string * string) : option (string * string) :=
  match members with
  | [] => Some acc
  | (k, v) :: rest =>
      if keyMatches "type" k then
        match v with
        | JString s => unmarshalBlockMembers rest (s, acc.2)
        | JNull => unmarshalBlockMembers rest acc
        | _ => None
        end
      else if keyMatches "text" k then
        match v with
        | JString s => unmarshalBlockMembers rest (acc.1, s)
        | JNull => unmarshalBlockMembers rest acc
        | _ => None
        end
      else unmarshalBlockMembers rest acc
  end.

(** [json.Unmarshal(raw, &b)] with [b] a struct
    [{Type string `json:"type"`; Text string `json:"text"`}]. *)
Definition UnmarshalBlock (v : JSON) : option (string * string) :=
  match v with
  | JObject members => unmarshalBlockMembers members ("", "")
  | JNull => Some ("", "")
  | _ => None
  end.

(** [json.Unmarshal(raw, &bs)] with [bs] a slice of such structs. *)
Definition UnmarshalBlocks (v : JSON) : option (list (string * string)) :=
  match v with
  | JArray items => mapM UnmarshalBlock items
  | JNull => Some []
  | _ => None
  end.

(** Member lookup in an object, the last occurrence winning. *)
Fixpoint member (key : string) (members : list (string * JSON)) : option JSON :=
  match members with
  | [] => None
  | (k, v) :: rest =>
      match member key rest with
      | Some v' => Some v'
      | None => if String.eqb k key then Some v else None
      end
  end.

Definition get (key : string) (v : JSON) : option JSON :=
  match v with
  | JObject members => member key members
  | _ => None
  end.

End json.
Export json.

(** ** The store of option bags *)

(** Address of a [map[string]any]. *)
Abbreviation loc := positive.

(** The dynamic values an options bag holds.  The ingress translators store
    [int], [float64], [string], [[]string], [map[string]any],
    [map[string]float64] and [json.RawMessage]; [int64] and [[]any] are the
    further cases the adapters' extractors look for. *)
Inductive any :=
| AInt (v : Z)
| AInt64 (v : Z)
| AFloat64 (v : float64)
| AString (v : string)
| AStrings (v : list string)
| ASlice (v : list any)
| AMap (v : loc)
| AFloatMap (v : list (string * float64))
| ARaw (v : JSON).

Abbreviation bag := (gmap string any).
Abbreviation heap := (gmap loc bag).

(** A [map[string]any] value: [nil] or the address of a map. *)
Abbreviation mapref := (option loc).

(** What a reference reads as; a [nil] map reads as the empty map. *)
Definition deref (h : heap) (m : mapref) : bag :=
  match m with
  | None => ∅
  | Some l => default ∅ (h !! l)
  end.

(** ** Canonical schema (package models) *)

Module models.

Record Message := {
  Role : string;
  Content : string;
  Name : string
}.

Record Usage := {
  PromptTokens : Z;
  CompletionTokens : Z;
  TotalTokens : Z
}.

Record Model := {
  ID : string;
  Provider : string;
  APIStyle : string
}.

Record UnifiedChatRequest := {
  Model_ : string;
  Messages : list Message;
  Stream : bool;
  Options : mapref
}.

Record UnifiedChatResponse := {
  Message_ : Message;
  Usage_ : Usage;
  FinishReason : string;
  ID_ : string
}.

Record UnifiedCompletionRequest := {
  cModel : string;
  cPrompt : string;
  cStream : bool;
  cMaxTokens : Z;
  cTemperature : float64;
  cOptions : mapref
}.

Record UnifiedCompletionResponse := {
  cText : string;
  cUsage : Usage;
  cFinishReason : string;
  cID : string
}.

End models.
Export models.

(** ** Upstream wire format of the Claude adapter

    The payload and response structs of package claude, set apart because
    the log of upstream calls holds payloads. *)

Module wire.

Record contentBlock := {
  Type_ : string;
  Text : string
}.

Record message := {
  Role : string;
  Content : list contentBlock
}.

Record messagePayload := {
  Model : string;
  Messages : list message;
  System : string;
  MaxTokens : Z;
  Temperature : option float64;
  TopP : option float64;
  StopSequences : list string;
  Metadata : mapref;
  Stream : bool
}.

Record usageBlock := {
  InputTokens : Z;
  OutputTokens : Z
}.

Record apiError := {
  ErrType : string;
  ErrMessage : string;
  ErrCode : string
}.

Record messageResponse := {
  ID : string;
  RespRole : string;
  RespContent : list contentBlock;
  Usage : usageBlock;
  StopReason : string;
  RespError : option apiError
}.

End wire.

(** ** The world outside one request *)

(** What an adapter sends upstream.  Headers play no part below and are
    left out; the body stands for the JSON encoding of the payload. *)
Inductive Payload :=
| ClaudePayload (p : wire.messagePayload)
| OtherPayload (body : string).

Record HTTPRequest := {
  Method : string;
  URL : string;
  Body : Payload
}.

(** An upstream answer.  Its body is a stream: [RespBody] is the bytes it
    delivers and [BodyFailure], if there is one, the text of the transport
    error that ends it in place of [io.EOF].  The failure is reported by a
    read of its own, after the last byte was delivered. *)
Record HTTPResponse := {
  StatusCode : Z;
  RespBody : string;
  BodyFailure : option string
}.

(** [io.ReadAll(io.LimitReader(resp.Body, limit))]: the first [limit]
    bytes of the body.  The limited reader stops at the limit without
    another read, so the failure of the stream shows only when the stream
    ends before the limit. *)
Definition readAllLimited (limit : Z) (resp : HTTPResponse) : result string :=
  if limit <=? Z.of_nat (String.length (RespBody resp)) then
    Ok (String.substring 0 (Z.to_nat limit) (RespBody resp))
  else
    match BodyFailure resp with
    | Some msg => Err (External msg)
    | None => Ok (RespBody resp)
    end.

(** Bytes handed to the response writer: literal text, or the encoding
    [json.Marshal] gives a document. *)
Inductive chunk :=
| Text (s : string)
| Encoded (v : JSON).

Inductive wevent :=
| Wrote (data : list chunk)
| Flushed.

(** The response of the request being served. *)
Record ResponseWriter := {
  canFlush : bool;                    (* the writer is an http.Flusher *)
  status : option Z;                  (* the status line, once written *)
  header : gmap string string;
  events : list wevent;               (* writes and flushes, oldest first *)
  writesLeft : option nat             (* writes the connection still takes *)
}.

(** What an adapter can reach: the maps in memory and the upstream. *)
Record Backend := {
  store : heap;
  calls : list HTTPRequest            (* upstream round-trips, oldest first *)
}.

(** What a handler can reach: the same, and the response it writes. *)
Record World := {
  backend : Backend;
  response : ResponseWriter
}.

(** Computations over a state [S]: [B] for adapters and the dispatcher,
    [M] for handlers. *)
Definition ST (S A : Type) : Type := S -> A * S.
Abbreviation B := (ST Backend).
Abbreviation M := (ST World).

Definition ret {S A} (a : A) : ST S A := fun w => (a, w).

Definition bind {S A C} (m : ST S A) (k : A -> ST S C) : ST S C :=
  fun w => let '(a, w') := m w in k a w'.

Declare Scope go_scope.
Delimit Scope go_scope with go.
Notation "x <- m ;; k" := (bind m (fun x => k))
  (at level 100, m at next level, right associativity) : go_scope.
Notation "m ;;; k" := (bind m (fun _ => k))
  (at level 100, right associativity) : go_scope.
Local Open Scope go_scope.

(** An adapter-level step inside a handler. *)
Definition liftB {A} (m : B A) : M A :=
  fun w => let '(a, b) := m (backend w) in (a, {| backend := b; response := response w |}).

(** A step that only touches memory. *)
Definition liftH {A} (m : ST heap A) : B A :=
  fun w => let '(a, h) := m (store w) in (a, {| store := h; calls := calls w |}).

Definition getStore : B heap := fun w => (store w, w).

Definition getResponse : M ResponseWriter := fun w => (response w, w).

(** [make(map[string]any)] followed by the given contents. *)
Definition allocMap (b : bag) : B loc :=
  liftH (fun h => let l := fresh (dom h) in (l, <[l := b]> h)).

(** [m[k] = v] and [delete(m, k)] through a reference; both panic on a
    [nil] map, which ends the request without touching the store. *)
Definition writeMap (m : mapref) (k : string) (v : option any) (h : heap) : heap :=
  match m with
  | None => h
  | Some l =>
      match h !! l with
      | None => h
      | Some b => <[l := match v with Some a => <[k := a]> b | None => delete k b end]> h
      end
  end.

(** The writes a holder of the reference [m] performs, in order. *)
Definition applyWrites (m : mapref) (ws : list (string * option any)) (h : heap) : heap :=
  foldl (fun h kv => writeMap m kv.1 kv.2 h) h ws.

(** A reference a Go program can hold: [nil] or the address of a map that
    was made. *)
Definition validRef (h : heap) (m : mapref) : Prop :=
  match m with
  | None => True
  | Some l => is_Some (h !! l)
  end.

(** ** Provider contract and registry (package provider) *)

Module provider.

(** The [Provider] interface.  [Chat] and [Completion] return a pointer and
    an error; [Ok None] is the pair [(nil, nil)]. *)
Record Provider := {
  Name : string;
  ListModels : result (list Model);
  Chat : UnifiedChatRequest -> B (result (option UnifiedChatResponse));
  Completion : UnifiedCompletionRequest -> B (result (option UnifiedCompletionResponse))
}.

Record modelEntry := {
  model : Model;
  provider : Provider
}.

Record Registry := {
  models : gmap string modelEntry;
  byName : gmap string Provider
}.

Definition NewRegistry : Registry := {| models := ∅; byName := ∅ |}.

(** The loop over [modelsList] of [RegisterProvider]. *)
Fixpoint registerModels (p : Provider) (modelsList : list Model)
    (ms : gmap string modelEntry) : option error * gmap string modelEntry :=
  match modelsList with
  | [] => (None, ms)
  | model :: rest =>
      match ms !! ID model with
      | Some _ =>
          (Some (Wrap (Error (Sentinel ErrDuplicateModel) ++ ": " ++ ID model)
                      (Sentinel ErrDuplicateModel)), ms)
      | None =>
          registerModels p rest (<[ID model := {| model := model; provider := p |}]> ms)
      end
  end.

(** The loop over [aliases].  Go visits a map in an unspecified order; the
    list is the order in which this call visits it. *)
Fixpoint registerAliases (aliases : list (string * string))
    (ms : gmap string modelEntry) : option error * gmap string modelEntry :=
  match aliases with
  | [] => (None, ms)
  | (alias, target) :: rest =>
      match ms !! alias with
      | Some _ =>
          (Some (New ("alias " ++ strconv.Quote alias ++ " conflicts with existing model")), ms)
      | None =>
          match ms !! target with
          | None =>
              (Some (New ("alias " ++ strconv.Quote alias ++ " references unknown model "
                          ++ strconv.Quote target)), ms)
          | Some targetEntry => registerAliases rest (<[alias := targetEntry]> ms)
          end
      end
  end.

(** [RegisterProvider]: the returned registry is the receiver after the
    call, the option the returned error. *)
Definition RegisterProvider (r : Registry) (p : option Provider)
    (aliases : list (string * string)) : option error * Registry :=
  match p with
  | None => (Some (New "provider must not be nil"), r)
  | Some p =>
      match ListModels p with
      | Err err =>
          (Some (Wrap ("list models for provider " ++ strconv.Quote (Name p) ++ ": " ++ Error err) err), r)
      | Ok modelsList =>
          match byName r !! Name p with
          | Some _ =>
              (Some (New ("provider " ++ strconv.Quote (Name p) ++ " already registered")), r)
          | None =>
              let byName' := <[Name p := p]> (byName r) in
              match registerModels p modelsList (models r) with
              | (Some err, ms) => (Some err, {| models := ms; byName := byName' |})
              | (None, ms) =>
                  let '(err, ms') := registerAliases aliases ms in
                  (err, {| models := ms'; byName := byName' |})
              end
          end
      end
  end.

Definition LookupModel (r : Registry) (modelID : string) : result (Model * Provider) :=
  match models r !! modelID with
  | None =>
      Err (Wrap (Error (Sentinel ErrUnknownModel) ++ ": " ++ modelID) (Sentinel ErrUnknownModel))
  | Some entry => Ok (model entry, provider entry)
  end.

(** Every entry is also filed under the id its descriptor carries: no id
    that a descriptor carries is an alias key. *)
Definition canonicalKeys (ms : gmap string modelEntry) : Prop :=
  forall k e, ms !! k = Some e -> ms !! ID (model e) = Some e.

(** The registries a build cycle can produce: the empty one, extended by
    any number of registrations, failed ones included. *)
Inductive reachable : Registry -> Prop :=
| reachable_new : reachable NewRegistry
| reachable_register r p aliases :
    reachable r -> reachable (RegisterProvider r p aliases).2.

End provider.

(** ** Dispatcher (package router) *)

Module router.

Import provider.

Record Router := {
  registry : Registry
}.

Definition New (registry : Registry) : Router := {| registry := registry |}.

(** [cloneOptions]: [nil] for an empty or [nil] map, else a new map filled
    by the [range] loop. *)
Definition cloneOptions (options : mapref) : B mapref :=
  h <- getStore;;
  let src := deref h options in
  if decide (size src = 0%nat) then ret None
  else
    out <- allocMap (map_fold (fun k v out => <[k := v]> out) ∅ src);;
    ret (Some out).

Definition Chat (r : Router) (req : UnifiedChatRequest)
    : B (result (option UnifiedChatResponse * Model)) :=
  match LookupModel (registry r) (Model_ req) with
  | Err err => ret (Err err)
  | Ok (modelInfo, providerImpl) =>
      options <- cloneOptions (Options req);;
      let sanitisedReq :=
        {| Model_ := ID modelInfo; Messages := Messages req;
           Stream := Stream req; Options := options |} in
      res <- provider.Chat providerImpl sanitisedReq;;
      match res with
      | Err err =>
          ret (Err (Wrap ("provider " ++ Name providerImpl ++ " chat request: " ++ Error err) err))
      | Ok resp => ret (Ok (resp, modelInfo))
      end
  end.

Definition Completion (r : Router) (req : UnifiedCompletionRequest)
    : B (result (option UnifiedCompletionResponse * Model)) :=
  match LookupModel (registry r) (cModel req) with
  | Err err => ret (Err err)
  | Ok (modelInfo, providerImpl) =>
      options <- cloneOptions (cOptions req);;
      let sanitisedReq :=
        {| cModel := ID modelInfo; cPrompt := cPrompt req; cStream := cStream req;
           cMaxTokens := cMaxTokens req; cTemperature := cTemperature req;
           cOptions := options |} in
      res <- provider.Completion providerImpl sanitisedReq;;
      match res with
      | Err err =>
          ret (Err (Wrap ("provider " ++ Name providerImpl ++ " completion request: " ++ Error err) err))
      | Ok resp => ret (Ok (resp, modelInfo))
      end
  end.

End router.

(** ** Claude adapter (package claude) *)

(** The conversion [int(v)] of a [float64]: truncation toward zero.  Where
    the value does not fit (or is a NaN) Go leaves the result to the
    target; amd64 gives the least [int]. *)
Definition float64_to_int (bits : float64) : Z :=
  let sign := Z.testbit bits 63 in
  let e := Z.land (Z.shiftr bits 52) 2047 in
  let m := Z.land bits (2 ^ 52 - 1) in
  if e =? 2047 then min_int
  else if e =? 0 then 0
  else
    let sig := 2 ^ 52 + m in
    let mag := if 1075 <=? e then Z.shiftl sig (e - 1075) else Z.shiftr sig (1075 - e) in
    let v := if sign then - mag else mag in
    if (min_int <=? v) && (v <=? max_int) then v else min_int.

Definition newline : string := String (ascii_of_N 10) EmptyString.

Module claude.

Import wire.

(** What the adapter takes from [encoding/json] and [net/http]: whether a
    request can be built for a payload, [Decoder.Decode] into a
    [messageResponse] on a body stream (its bytes and its failure), and
    [json.Unmarshal] of an error document. *)
Record Lib := {
  newRequestError : HTTPRequest -> option error;
  decodeMessageResponse : string -> option string -> result messageResponse;
  unmarshalAPIError : string -> option apiError
}.

(** The adapter; [client] is the [http.Client] as the function from the
    request it sends to the outcome of the round-trip.  The extra headers
    are left out with the rest of the headers. *)
Record Provider := {
  name : string;
  apiKey : string;
  baseURL : string;
  client : HTTPRequest -> result HTTPResponse;
  models : list models.Model;
  messages : string
}.

(** The extractors read a bag; a [nil] map reads as the empty one.  Their
    cases for [float32] and [json.Number] have no counterpart in [any]: no
    decoder of the router is set to [UseNumber] and nothing stores a
    [float32]. *)
Definition extractFloat (options : bag) (key : string) : option float64 :=
  match options !! key with
  | Some (AFloat64 v) => Some v
  | _ => None
  end.

Definition extractInt (options : bag) (key : string) : option Z :=
  match options !! key with
  | Some (AInt v) => Some v
  | Some (AInt64 v) => Some v
  | Some (AFloat64 v) => Some (float64_to_int v)
  | _ => None
  end.

Definition extractStringSlice (options : bag) (key : string) : option (list string) :=
  match options !! key with
  | Some (AStrings v) => Some v
  | Some (ASlice v) =>
      mapM (fun item => match item with AString str => Some str | _ => None end) v
  | _ => None
  end.

Definition extractMap (options : bag) (key : string) : option loc :=
  match options !! key with
  | Some (AMap m) => Some m
  | _ => None
  end.

(** The loop of [buildMessagePayload] over the canonical messages. *)
Fixpoint shapeMessages (msgs : list models.Message) (messages : list message)
    (systemParts : list string) : result (list message * list string) :=
  match msgs with
  | [] => Ok (messages, systemParts)
  | msg :: rest =>
      let role := strings.ToLower (strings.TrimSpace (models.Role msg)) in
      if String.eqb role "system" then
        if negb (String.eqb (strings.TrimSpace (models.Content msg)) "")
        then shapeMessages rest messages (systemParts ++ [models.Content msg])
        else shapeMessages rest messages systemParts
      else if String.eqb role "user" || String.eqb role "assistant" then
        let text := strings.TrimSpace (models.Content msg) in
        if String.eqb text "" then Err (New "claude messages must not be empty")
        else
          shapeMessages rest
            (messages ++ [ {| Role := role;
                              Content := [ {| Type_ := "text"; Text := text |} ] |} ])
            systemParts
      else
        Err (New ("claude provider does not support role " ++ strconv.Quote (models.Role msg)))
  end.

Definition buildMessagePayload (h : heap) (req : UnifiedChatRequest) : result messagePayload :=
  match shapeMessages (models.Messages req) [] [] with
  | Err err => Err err
  | Ok (messages, systemParts) =>
      match messages with
      | [] => Err (New "claude request requires at least one user message")
      | first :: _ =>
          if negb (String.eqb (Role first) "user")
          then Err (New "claude conversation must start with a user message")
          else
            let options := deref h (Options req) in
            match extractInt options "max_tokens" with
            | None => Err (New "claude requests require a positive max_tokens value")
            | Some maxTokens =>
                if maxTokens <=? 0
                then Err (New "claude requests require a positive max_tokens value")
                else
                  Ok {| Model := Model_ req;
                        Messages := messages;
                        System :=
                          match systemParts with
                          | [] => ""
                          | _ => strings.Join systemParts (newline ++ newline)
                          end;
                        MaxTokens := maxTokens;
                        Temperature := extractFloat options "temperature";
                        TopP := extractFloat options "top_p";
                        StopSequences := default [] (extractStringSlice options "stop");
                        Metadata := extractMap options "metadata";
                        Stream := models.Stream req |}
            end
      end
  end.

(** The loop of [toUnified] over the content blocks. *)
Fixpoint writeBlocks (blocks : list contentBlock) (text : string) : result string :=
  match blocks with
  | [] => Ok text
  | block :: rest =>
      if negb (String.eqb (Type_ block) "text")
      then Err (New ("claude returned unsupported content block type "
                     ++ strconv.Quote (Type_ block)))
      else writeBlocks rest (text ++ Text block)
  end.

Definition toUnified (r : messageResponse) : result UnifiedChatResponse :=
  match RespContent r with
  | [] => Err (New "claude response missing content blocks")
  | _ =>
      match writeBlocks (RespContent r) "" with
      | Err err => Err err
      | Ok text =>
          let totalTokens := int_add (InputTokens (Usage r)) (OutputTokens (Usage r)) in
          let role := if String.eqb (RespRole r) "" then "assistant" else RespRole r in
          Ok {| ID_ := ID r;
                Message_ := {| models.Role := role; models.Content := text; models.Name := "" |};
                FinishReason := StopReason r;
                Usage_ := {| PromptTokens := InputTokens (Usage r);
                             CompletionTokens := OutputTokens (Usage r);
                             TotalTokens := totalTokens |} |}
      end
  end.

(** [parseAPIError], on at most 64 KiB of the body. *)
Definition parseAPIError (lib : Lib) (resp : HTTPResponse) : error :=
  match readAllLimited (64 * 1024) resp with
  | Err err =>
      Wrap ("upstream error status " ++ pretty (StatusCode resp)
            ++ " and failed to read body: " ++ Error err) err
  | Ok body =>
      match unmarshalAPIError lib body with
      | Some apiErr =>
          if negb (String.eqb (ErrMessage apiErr) "")
          then New ("claude error (" ++ ErrType apiErr ++ "): " ++ ErrMessage apiErr)
          else New ("upstream error status " ++ pretty (StatusCode resp) ++ ": "
                    ++ strings.TrimSpace body)
      | None =>
          New ("upstream error status " ++ pretty (StatusCode resp) ++ ": "
               ++ strings.TrimSpace body)
      end
  end.

(** [client.Do]: one upstream round-trip. *)
Definition Do (p : Provider) (req : HTTPRequest) : B (result HTTPResponse) :=
  fun w => (client p req, {| store := store w; calls := calls w ++ [req] |}).

Definition Chat (lib : Lib) (p : Provider) (req : UnifiedChatRequest)
    : B (result UnifiedChatResponse) :=
  if models.Stream req then
    ret (Err (Wrap ("streaming is not yet supported for provider " ++ name p ++ ": "
                    ++ Error (Sentinel ErrUnsupportedOperation))
                   (Sentinel ErrUnsupportedOperation)))
  else
    h <- getStore;;
    match buildMessagePayload h req with
    | Err err => ret (Err err)
    | Ok payload =>
        let httpReq := {| Method := "POST"; URL := messages p; Body := ClaudePayload payload |} in
        match newRequestError lib httpReq with
        | Some err => ret (Err err)
        | None =>
            sent <- Do p httpReq;;
            match sent with
            | Err err => ret (Err (Wrap ("claude chat request failed: " ++ Error err) err))
            | Ok httpResp =>
                if 400 <=? StatusCode httpResp then ret (Err (parseAPIError lib httpResp))
                else
                  match decodeMessageResponse lib (RespBody httpResp) (BodyFailure httpResp) with
                  | Err err => ret (Err (Wrap ("decode provider response: " ++ Error err) err))
                  | Ok providerResp => ret (toUnified providerResp)
                  end
            end
        end
    end.

Definition Completion (p : Provider) (req : UnifiedCompletionRequest)
    : B (result UnifiedCompletionResponse) :=
  ret (Err (Wrap ("completions are not supported by provider " ++ name p ++ ": "
                  ++ Error (Sentinel ErrUnsupportedOperation))
                 (Sentinel ErrUnsupportedOperation))).

(** The adapter behind the [provider.Provider] interface. *)
Definition asProvider (lib : Lib) (p : Provider) : provider.Provider :=
  {| provider.Name := name p;
     provider.ListModels := Ok (models p);
     provider.Chat := fun req => r <- Chat lib p req;; ret (sum_map id Some r);
     provider.Completion := fun req => r <- Completion p req;; ret (sum_map id Some r) |}.

End claude.

(** Something is left of [s] after trimming. *)
Definition nonBlank (s : string) : bool := negb (String.eqb (strings.TrimSpace s) "").

(** The role the adapter reads off a canonical message, and the messages
    that are not system messages. *)
Definition shapedRole (msg : models.Message) : string :=
  strings.ToLower (strings.TrimSpace (models.Role msg)).

Definition nonSystem (msgs : list models.Message) : list models.Message :=
  List.filter (fun msg => negb (String.eqb (shapedRole msg) "system")) msgs.

(** No message besides system messages, or the first of them is not a
    user message. *)
Definition startsWithoutUser (req : UnifiedChatRequest) : Prop :=
  match nonSystem (models.Messages req) with
  | [] => True
  | msg :: _ => shapedRole msg <> "user"
  end.

(** ** Ingress and egress translators (package translator) *)

Module translator.

(** *** OpenAI chat *)

Record ChatMessage := {
  Role : string;
  Content : string;
  Name : string
}.

Definition allowedRoles : list string := ["system"; "user"; "assistant"; "tool"].

Definition ChatMessage_validate (m : ChatMessage) : option error :=
  if negb (existsb (String.eqb (Role m)) allowedRoles) then
    Some (Wrap (Error (Sentinel errInvalidRole) ++ ": " ++ Role m) (Sentinel errInvalidRole))
  else if String.eqb (strings.TrimSpace (Content m)) "" then
    Some (Wrap (Error (Sentinel errInvalidContent) ++ ": message content must not be empty")
               (Sentinel errInvalidContent))
  else None.

(** The loop of [parseStop] over the items of an array. *)
Fixpoint trimStops (multi : list string) (out : list string) : result (list string) :=
  match multi with
  | [] => Ok out
  | item :: rest =>
      let item := strings.TrimSpace item in
      if String.eqb item "" then Err (Sentinel errUnsupportedStop)
      else trimStops rest (out ++ [item])
  end.

Definition parseStop (raw : RawMessage) : result (list string) :=
  match raw with
  | None => Ok []
  | Some v =>
      match UnmarshalString v with
      | Some single =>
          if String.eqb (strings.TrimSpace single) "" then Err (Sentinel errUnsupportedStop)
          else Ok [single]
      | None =>
          match UnmarshalStrings v with
          | Some multi => trimStops multi []
          | None => Err (Sentinel errUnsupportedStop)
          end
      end
  end.

(** The local struct [alias] of [ChatCompletionRequest.UnmarshalJSON], as
    [json.Unmarshal] fills it. *)
Record chatAlias := {
  raw_Model : string;
  raw_Messages : list ChatMessage;
  raw_Stream : bool;
  raw_MaxTokens : option Z;
  raw_Temperature : option float64;
  raw_TopP : option float64;
  raw_FrequencyPenalty : option float64;
  raw_PresencePenalty : option float64;
  raw_Stop : RawMessage;
  raw_ResponseFormat : mapref;
  raw_Tools : RawMessage;
  raw_ToolChoice : RawMessage;
  raw_LogitBias : option (list (string * float64));
  raw_Metadata : mapref;
  raw_User : string
}.

Record ChatCompletionRequest := {
  Model : string;
  Messages : list ChatMessage;
  Stream : bool;
  Stop : list string;
  Options : bag
}.

(** [m[key] = f v] when the optional value is there. *)
Definition setIf {A} (key : string) (f : A -> any) (v : option A) (m : bag) : bag :=
  match v with
  | Some a => <[key := f a]> m
  | None => m
  end.

Definition nonEmpty {A} (l : list A) : option (list A) :=
  match l with
  | [] => None
  | _ => Some l
  end.

Fixpoint validateChatMessages (i : nat) (msgs : list ChatMessage) : option error :=
  match msgs with
  | [] => None
  | msg :: rest =>
      match ChatMessage_validate msg with
      | Some err =>
          Some (Wrap ("message[" ++ pretty (Z.of_nat i) ++ "]: " ++ Error err) err)
      | None => validateChatMessages (S i) rest
      end
  end.

Definition ChatCompletionRequest_validate (r : ChatCompletionRequest) : option error :=
  if String.eqb (Model r) "" then Some (Sentinel errEmptyModel)
  else
    match Messages r with
    | [] => Some (Sentinel errEmptyMessages)
    | _ => validateChatMessages 0 (Messages r)
    end.

(** [ChatCompletionRequest.UnmarshalJSON] after the document was decoded
    into the struct [alias].  The typed copies of the option fields, which
    nothing reads, are left out. *)
Definition ChatCompletionRequest_UnmarshalJSON (raw : chatAlias) : result ChatCompletionRequest :=
  match parseStop (raw_Stop raw) with
  | Err err => Err err
  | Ok stopValues =>
      let options : bag :=
        setIf "user" AString (if String.eqb (raw_User raw) "" then None else Some (raw_User raw))
        (setIf "metadata" AMap (raw_Metadata raw)
        (setIf "logit_bias" AFloatMap (raw_LogitBias raw)
        (setIf "tool_choice" ARaw (raw_ToolChoice raw)
        (setIf "tools" ARaw (raw_Tools raw)
        (setIf "response_format" AMap (raw_ResponseFormat raw)
        (setIf "stop" AStrings (nonEmpty stopValues)
        (setIf "presence_penalty" AFloat64 (raw_PresencePenalty raw)
        (setIf "frequency_penalty" AFloat64 (raw_FrequencyPenalty raw)
        (setIf "max_tokens" AInt (raw_MaxTokens raw)
        (setIf "top_p" AFloat64 (raw_TopP raw)
        (setIf "temperature" AFloat64 (raw_Temperature raw) ∅))))))))))) in
      let r := {| Model := strings.TrimSpace (raw_Model raw);
                  Messages := raw_Messages raw;
                  Stream := raw_Stream raw;
                  Stop := stopValues;
                  Options := options |} in
      match ChatCompletionRequest_validate r with
      | Some err => Err err
      | None => Ok r
      end
  end.

Definition toMessages (msgs : list ChatMessage) : list models.Message :=
  List.map (fun m => {| models.Role := Role m; models.Content := Content m;
                        models.Name := Name m |}) msgs.

Definition ChatCompletionRequest_ToUnified (r : ChatCompletionRequest) : B UnifiedChatRequest :=
  options <- allocMap (map_fold (fun k v out => <[k := v]> out) ∅ (Options r));;
  ret {| Model_ := Model r;
         models.Messages := toMessages (Messages r);
         models.Stream := Stream r;
         models.Options := Some options |}.

(** *** OpenAI completion *)

Record CompletionRequest := {
  compModel : string;
  compPrompt : string;
  compStream : bool;
  compMaxTokens : option Z;
  compTemperature : option float64;
  compTopP : option float64;
  compOptions : bag
}.

Definition firstOrDefaultInt (value : option Z) : Z := default 0 value.

Definition firstOrDefaultFloat (value : option float64) : float64 := default 0 value.

Definition CompletionRequest_ToUnified (r : CompletionRequest) : B UnifiedCompletionRequest :=
  options <- allocMap (map_fold (fun k v out => <[k := v]> out) ∅ (compOptions r));;
  ret {| cModel := compModel r;
         cPrompt := compPrompt r;
         cStream := compStream r;
         cMaxTokens := firstOrDefaultInt (compMaxTokens r);
         cTemperature := firstOrDefaultFloat (compTemperature r);
         cOptions := Some options |}.

(** *** Claude messages *)

Definition ClaudeMessage := ChatMessage.

Definition ClaudeMessage_validate (m : ClaudeMessage) : option error :=
  if negb (String.eqb (Role m) "user" || String.eqb (Role m) "assistant") then
    Some (Wrap (Error (Sentinel errClaudeInvalidRole) ++ ": " ++ Role m)
               (Sentinel errClaudeInvalidRole))
  else if String.eqb (strings.TrimSpace (Content m)) "" then
    Some (Sentinel errClaudeInvalidContent)
  else None.

Definition extractSystemBlock (block : string * string) : result string :=
  let '(type, text) := block in
  if negb (String.eqb type "") && negb (String.eqb type "text") then
    Err (Wrap (Error (Sentinel errClaudeInvalidSystem) ++ ": unsupported block type "
               ++ strconv.Quote type) (Sentinel errClaudeInvalidSystem))
  else Ok (strings.TrimSpace text).

(** The loop of [parseClaudeSystem] over a list of strings. *)
Fixpoint trimSystem (multiple : list string) (out : list string) : list string :=
  match multiple with
  | [] => out
  | item :: rest =>
      let item := strings.TrimSpace item in
      if String.eqb item "" then trimSystem rest out
      else trimSystem rest (out ++ [item])
  end.

(** The loop of [parseClaudeSystem] over a list of blocks. *)
Fixpoint extractSystemBlocks (blocks : list (string * string)) (out : list string)
    : result (list string) :=
  match blocks with
  | [] => Ok out
  | block :: rest =>
      match extractSystemBlock block with
      | Err err => Err err
      | Ok text =>
          if String.eqb text "" then extractSystemBlocks rest out
          else extractSystemBlocks rest (out ++ [text])
      end
  end.

Definition parseClaudeSystem (raw : RawMessage) : result (list string) :=
  match raw with
  | None | Some JNull => Ok []
  | Some v =>
      match UnmarshalString v with
      | Some single =>
          let s := strings.TrimSpace single in
          if String.eqb s "" then Ok [] else Ok [s]
      | None =>
          match UnmarshalStrings v with
          | Some multiple => Ok (trimSystem multiple [])
          | None =>
              let blockList :=
                match UnmarshalBlocks v with
                | Some blocks => extractSystemBlocks blocks []
                | None => Err (Sentinel errClaudeInvalidSystem)
                end in
              match UnmarshalBlock v with
              | Some singleBlock =>
                  if negb (String.eqb singleBlock.1 "") then
                    match extractSystemBlock singleBlock with
                    | Err err => Err err
                    | Ok text => if String.eqb text "" then Ok [] else Ok [text]
                    end
                  else blockList
              | None => blockList
              end
          end
      end
  end.

(** The loop of [parseClaudeStops]. *)
Fixpoint trimClaudeStops (stops : list string) (out : list string) : result (list string) :=
  match stops with
  | [] => Ok out
  | stop :: rest =>
      let stop := strings.TrimSpace stop in
      if String.eqb stop "" then Err (Sentinel errClaudeUnsupportedStop)
      else trimClaudeStops rest (out ++ [stop])
  end.

Definition parseClaudeStops (raw : RawMessage) : result (list string) :=
  match raw with
  | None | Some JNull => Ok []
  | Some v =>
      match UnmarshalStrings v with
      | None => Err (Sentinel errClaudeUnsupportedStop)
      | Some stops => trimClaudeStops stops []
      end
  end.

(** The local struct [alias] of [ClaudeMessageRequest.UnmarshalJSON]. *)
Record claudeAlias := {
  craw_Model : string;
  craw_MaxTokens : option Z;
  craw_Messages : list ClaudeMessage;
  craw_System : RawMessage;
  craw_Stream : bool;
  craw_Temperature : option float64;
  craw_TopP : option float64;
  craw_StopSequences : RawMessage;
  craw_Metadata : mapref
}.

Record ClaudeMessageRequest := {
  clModel : string;
  clMessages : list ClaudeMessage;
  clSystem : list string;
  clStream : bool;
  clStopSequences : list string;
  clOptions : bag
}.

Fixpoint validateClaudeMessages (i : nat) (msgs : list ClaudeMessage) : option error :=
  match msgs with
  | [] => None
  | msg :: rest =>
      match ClaudeMessage_validate msg with
      | Some err =>
          Some (Wrap ("messages[" ++ pretty (Z.of_nat i) ++ "]: " ++ Error err) err)
      | None => validateClaudeMessages (S i) rest
      end
  end.

Definition ClaudeMessageRequest_validate (r : ClaudeMessageRequest) : option error :=
  if String.eqb (clModel r) "" then Some (Sentinel errClaudeEmptyModel)
  else
    match clMessages r with
    | [] => Some (Sentinel errClaudeEmptyMessages)
    | _ => validateClaudeMessages 0 (clMessages r)
    end.

Definition ClaudeMessageRequest_UnmarshalJSON (raw : claudeAlias) : result ClaudeMessageRequest :=
  match parseClaudeSystem (craw_System raw) with
  | Err err => Err err
  | Ok systemPrompts =>
      match parseClaudeStops (craw_StopSequences raw) with
      | Err err => Err err
      | Ok stopSequences =>
          let options : bag :=
            setIf "metadata" AMap (craw_Metadata raw)
            (setIf "stop" AStrings (nonEmpty stopSequences)
            (setIf "top_p" AFloat64 (craw_TopP raw)
            (setIf "temperature" AFloat64 (craw_Temperature raw)
            (setIf "max_tokens" AInt (craw_MaxTokens raw) ∅)))) in
          let r := {| clModel := strings.TrimSpace (craw_Model raw);
                      clMessages := craw_Messages raw;
                      clSystem := systemPrompts;
                      clStream := craw_Stream raw;
                      clStopSequences := stopSequences;
                      clOptions := options |} in
          match ClaudeMessageRequest_validate r with
          | Some err => Err err
          | None => Ok r
          end
      end
  end.

(** The first loop of [ClaudeMessageRequest.ToUnified]. *)
Definition systemMessages (system : list string) : list models.Message :=
  List.map (fun systemMsg => {| models.Role := "system"; models.Content := systemMsg;
                                models.Name := "" |})
    (List.filter (fun systemMsg => negb (String.eqb (strings.TrimSpace systemMsg) "")) system).

Definition ClaudeMessageRequest_ToUnified (r : ClaudeMessageRequest) : B UnifiedChatRequest :=
  options <- allocMap (map_fold (fun k v out => <[k := v]> out) ∅ (clOptions r));;
  ret {| Model_ := clModel r;
         models.Messages := systemMessages (clSystem r) ++ toMessages (clMessages r);
         models.Stream := clStream r;
         models.Options := Some options |}.

(** *** Egress *)

Record OpenAIUsage := {
  uPromptTokens : Z;
  uCompletionTokens : Z;
  uTotalTokens : Z
}.

Record ChatChoice := {
  chIndex : Z;
  chMessage : ChatMessage;
  chFinishReason : string
}.

Record ChatCompletionResponse := {
  crID : string;
  crObject : string;
  crCreated : Z;
  crModel : string;
  crChoices : list ChatChoice;
  crUsage : option OpenAIUsage      (* a pointer: [None] is nil *)
}.

Definition usageOf (u : models.Usage) : option OpenAIUsage :=
  if negb (TotalTokens u =? 0) || negb (PromptTokens u =? 0) || negb (CompletionTokens u =? 0)
  then Some {| uPromptTokens := PromptTokens u;
               uCompletionTokens := CompletionTokens u;
               uTotalTokens := TotalTokens u |}
  else None.

Definition FromUnifiedChat (modelID : string) (createdUnix : Z) (resp : UnifiedChatResponse)
    : ChatCompletionResponse :=
  let choice :=
    {| chIndex := 0;
       chMessage := {| Role := models.Role (Message_ resp);
                       Content := models.Content (Message_ resp);
                       Name := models.Name (Message_ resp) |};
       chFinishReason := FinishReason resp |} in
  {| crID := ID_ resp;
     crObject := "chat.completion";
     crCreated := createdUnix;
     crModel := modelID;
     crChoices := [choice];
     crUsage := usageOf (Usage_ resp) |}.

Record CompletionChoice := {
  ccText : string;
  ccIndex : Z;
  ccFinishReason : string
}.

Record CompletionResponse := {
  coID : string;
  coObject : string;
  coCreated : Z;
  coModel : string;
  coChoices : list CompletionChoice;
  coUsage : option OpenAIUsage
}.

Definition FromUnifiedCompletion (modelID : string) (createdUnix : Z)
    (resp : UnifiedCompletionResponse) : CompletionResponse :=
  {| coID := cID resp;
     coObject := "text_completion";
     coCreated := createdUnix;
     coModel := modelID;
     coChoices := [ {| ccText := cText resp; ccIndex := 0;
                       ccFinishReason := cFinishReason resp |} ];
     coUsage := usageOf (cUsage resp) |}.

Record ClaudeTextBlock := {
  tbType : string;
  tbText : string
}.

Record ClaudeUsage := {
  cuInputTokens : Z;
  cuOutputTokens : Z;
  cuTotalTokens : Z
}.

Record ClaudeMessageResponse := {
  cmID : string;
  cmType : string;
  cmRole : string;
  cmModel : string;
  cmContent : list ClaudeTextBlock;
  cmStopReason : string;
  cmUsage : ClaudeUsage;
  cmStopSeq : string
}.

Definition FromUnifiedClaude (modelID : string) (resp : UnifiedChatResponse)
    : ClaudeMessageResponse :=
  let role := if String.eqb (models.Role (Message_ resp)) "" then "assistant"
              else models.Role (Message_ resp) in
  let contentText :=
    if String.eqb (strings.TrimSpace (models.Content (Message_ resp))) "" then ""
    else models.Content (Message_ resp) in
  {| cmID := ID_ resp;
     cmType := "message";
     cmRole := role;
     cmModel := modelID;
     cmContent := [ {| tbType := "text"; tbText := contentText |} ];
     cmStopReason := FinishReason resp;
     cmUsage := {| cuInputTokens := PromptTokens (Usage_ resp);
                   cuOutputTokens := CompletionTokens (Usage_ resp);
                   cuTotalTokens := TotalTokens (Usage_ resp) |};
     cmStopSeq := "" |}.

(** *** The documents [json.Marshal] writes for the response structs

    Members follow the [json] tags; a member tagged [omitempty] is left out
    when the field is empty (the empty string, a nil pointer).  The fields
    [Logprobs] and [Delta] are never set and so never written.
    [ChatMessage] has no tags and is written under its field names. *)

Definition omitempty (key : string) (v : string) : list (string * JSON) :=
  if String.eqb v "" then [] else [(key, JString v)].

Definition OpenAIUsage_json (u : OpenAIUsage) : JSON :=
  JObject [("prompt_tokens", JInt (uPromptTokens u));
           ("completion_tokens", JInt (uCompletionTokens u));
           ("total_tokens", JInt (uTotalTokens u))].

Definition usageMember (u : option OpenAIUsage) : list (string * JSON) :=
  match u with
  | None => []
  | Some u => [("usage", OpenAIUsage_json u)]
  end.

Definition ChatMessage_json (m : ChatMessage) : JSON :=
  JObject [("Role", JString (Role m)); ("Content", JString (Content m));
           ("Name", JString (Name m))].

Definition ChatChoice_json (c : ChatChoice) : JSON :=
  JObject ([("index", JInt (chIndex c)); ("message", ChatMessage_json (chMessage c))]
           ++ omitempty "finish_reason" (chFinishReason c)).

Definition ChatCompletionResponse_json (r : ChatCompletionResponse) : JSON :=
  JObject ([("id", JString (crID r)); ("object", JString (crObject r));
            ("created", JInt (crCreated r)); ("model", JString (crModel r));
            ("choices", JArray (List.map ChatChoice_json (crChoices r)))]
           ++ usageMember (crUsage r)).

Definition CompletionChoice_json (c : CompletionChoice) : JSON :=
  JObject ([("text", JString (ccText c)); ("index", JInt (ccIndex c))]
           ++ omitempty "finish_reason" (ccFinishReason c)).

Definition CompletionResponse_json (r : CompletionResponse) : JSON :=
  JObject ([("id", JString (coID r)); ("object", JString (coObject r));
            ("created", JInt (coCreated r)); ("model", JString (coModel r));
            ("choices", JArray (List.map CompletionChoice_json (coChoices r)))]
           ++ usageMember (coUsage r)).

Definition ClaudeMessageResponse_json (r : ClaudeMessageResponse) : JSON :=
  JObject ([("id", JString (cmID r)); ("type", JString (cmType r));
            ("role", JString (cmRole r)); ("model", JString (cmModel r));
            ("content",
             JArray (List.map (fun b => JObject [("type", JString (tbType b));
                                                 ("text", JString (tbText b))])
                       (cmContent r)))]
           ++ omitempty "stop_reason" (cmStopReason r)
           ++ [("usage", JObject [("input_tokens", JInt (cuInputTokens (cmUsage r)));
                                  ("output_tokens", JInt (cuOutputTokens (cmUsage r)));
                                  ("total_tokens", JInt (cuTotalTokens (cmUsage r)))])]
           ++ omitempty "stop_sequence" (cmStopSeq r)).

End translator.

(** The four shapes in which the [system] member can carry one text. *)
Definition systemShapes (t : string) : list JSON :=
  [ JString t;
    JArray [JString t];
    JObject [("type", JString "text"); ("text", JString t)];
    JArray [JObject [("type", JString "text"); ("text", JString t)]] ].

Definition withSystem (raw : translator.claudeAlias) (system : JSON) : translator.claudeAlias :=
  {| translator.craw_Model := translator.craw_Model raw;
     translator.craw_MaxTokens := translator.craw_MaxTokens raw;
     translator.craw_Messages := translator.craw_Messages raw;
     translator.craw_System := Some system;
     translator.craw_Stream := translator.craw_Stream raw;
     translator.craw_Temperature := translator.craw_Temperature raw;
     translator.craw_TopP := translator.craw_TopP raw;
     translator.craw_StopSequences := translator.craw_StopSequences raw;
     translator.craw_Metadata := translator.craw_Metadata raw |}.

(** From the decoded Claude-messages document to the payload the Claude
    adapter builds for it: ingress parsing, conversion to the canonical
    request, shaping.  (The dispatcher in between rewrites the model id and
    clones the options, neither of which the shaping of messages reads.) *)
Definition claudeIngressPayload (raw : translator.claudeAlias) (b : Backend)
    : result (result wire.messagePayload) :=
  match translator.ClaudeMessageRequest_UnmarshalJSON raw with
  | Err err => Err err
  | Ok req =>
      let '(unifiedReq, b') := translator.ClaudeMessageRequest_ToUnified req b in
      Ok (claude.buildMessagePayload (store b') unifiedReq)
  end.

(** ** HTTP surface (package server) *)

(** The response writer of [net/http], as echo drives it. *)
Module http.

Definition SetHeader (key value : string) : M unit :=
  fun w =>
    let r := response w in
    (tt, {| backend := backend w;
            response := {| canFlush := canFlush r; status := status r;
                           header := <[key := value]> (header r);
                           events := events r; writesLeft := writesLeft r |} |}).

(** The status line is written once; later calls change nothing. *)
Definition WriteHeader (code : Z) : M unit :=
  fun w =>
    let r := response w in
    (tt, {| backend := backend w;
            response := {| canFlush := canFlush r;
                           status := Some (default code (status r));
                           header := header r;
                           events := events r; writesLeft := writesLeft r |} |}).

(** One [Write] call: it fails once the connection takes no more, else
    the bytes follow what was written before (after an implicit 200 status
    line, if there is none yet). *)
Definition Write (data : list chunk) : M (option error) :=
  fun w =>
    let r := response w in
    match writesLeft r with
    | Some O => (Some (External "write: broken pipe"), w)
    | remaining =>
        (None, {| backend := backend w;
                  response := {| canFlush := canFlush r;
                                 status := Some (default 200 (status r));
                                 header := header r;
                                 events := events r ++ [Wrote data];
                                 writesLeft := Nat.pred <$> remaining |} |})
    end.

Definition Flush : M unit :=
  fun w =>
    let r := response w in
    (tt, {| backend := backend w;
            response := {| canFlush := canFlush r;
                           status := Some (default 200 (status r));
                           header := header r;
                           events := events r ++ [Flushed];
                           writesLeft := writesLeft r |} |}).

(** echo's [c.JSON(code, v)]. *)
Definition JSON_ (code : Z) (v : JSON) : M (option error) :=
  SetHeader "Content-Type" "application/json";;;
  WriteHeader code;;;
  Write [Encoded v; Text newline].

End http.

Module server.

Import translator.

Definition maxBodyBytes : Z := Z.shiftl 1 20.

Record Server := {
  router : router.Router
}.

(** *** Reading the request body *)

(** What the scanner of [encoding/json] finds at the head of its input. *)
Inductive scanned :=
| Value (v : JSON) (rest : string)   (* a whole value; [rest] is not yet read *)
| Blank                              (* nothing but white space *)
| Truncated                          (* a value begins and the input ends in it *)
| Invalid (msg : string).            (* a syntax error *)

(** What the handlers take from [encoding/json]: the scanner (told whether
    the input ended at its real end, where a number is then complete) and,
    for each request type, [Unmarshal] into it, which runs the type's
    [UnmarshalJSON] and may allocate the maps the document nests. *)
Record Ingress := {
  scan : string -> bool -> scanned;
  unmarshalChat : JSON -> ST heap (result ChatCompletionRequest);
  unmarshalCompletion : JSON -> ST heap (result CompletionRequest);
  unmarshalClaude : JSON -> ST heap (result ClaudeMessageRequest)
}.

Definition errBodyTooLarge : error := External "http: request body too large".

(** [http.MaxBytesReader]: the bytes it lets through and the error that
    ends the stream. *)
Definition MaxBytesReader (limit : Z) (body : string) : string * error :=
  if Z.of_nat (String.length body) <=? limit then (body, Sentinel io_EOF)
  else (String.substring 0 (Z.to_nat limit) body, errBodyTooLarge).

(** [Decoder.Decode] up to the value: the next document of a stream that
    holds [data] and then ends with the read error [rerr]. *)
Definition Decode (scan : string -> bool -> scanned) (data : string) (rerr : error)
    : result JSON * string :=
  let atEOF := Is rerr io_EOF in
  match scan data atEOF with
  | Value v rest => (Ok v, rest)
  | Invalid msg => (Err (External msg), data)
  | Blank => (Err rerr, data)
  | Truncated => (Err (if atEOF then External "unexpected EOF" else rerr), data)
  end.

Definition badRequest (message : string) : error :=
  Request {| errors.Status := 400; errors.Message := message; errors.Type_ := "invalid_request_error"; errors.Code := "" |}.

Definition decodeFailure (err : error) : error :=
  if Is err io_EOF then badRequest "request body is required"
  else badRequest ("invalid JSON payload: " ++ Error err).

Definition decodeRequestBody {T} (scan : string -> bool -> scanned)
    (unmarshal : JSON -> ST heap (result T)) (body : string) : B (result T) :=
  let '(data, rerr) := MaxBytesReader maxBodyBytes body in
  match Decode scan data rerr with
  | (Err err, _) => ret (Err (decodeFailure err))
  | (Ok v, rest) =>
      target <- liftH (unmarshal v);;
      match target with
      | Err err => ret (Err (decodeFailure err))
      | Ok target =>
          match Decode scan rest rerr with
          | (Err (Sentinel io_EOF), _) => ret (Ok target)
          | _ => ret (Err (badRequest "request body must contain a single JSON object"))
          end
      end
  end.

(** *** Errors *)

Definition errorBody_json (message errType code : string) : JSON :=
  JObject [("error", JObject ([("message", JString message); ("type", JString errType)]
                              ++ omitempty "code" code))].

Definition writeError (status : Z) (message errType code : string) : M (option error) :=
  http.JSON_ status (errorBody_json message errType code).

(** [openAIErrorHandler].  No error of the router has a [Code()] method,
    so what is not a [requestError] is an internal error. *)
Definition openAIErrorHandler (err : error) : M unit :=
  match As err with
  | Some reqErr =>
      writeError (Status reqErr) (errors.Message reqErr) (errors.Type_ reqErr) (Code reqErr);;; ret tt
  | None => writeError 500 "internal server error" "server_error" "";;; ret tt
  end.

Definition toHTTPError (err : error) : requestError :=
  match As err with
  | Some reqErr => reqErr
  | None =>
      if Is err ErrUnknownModel then
        {| errors.Status := 400; errors.Message := Error err; errors.Type_ := "invalid_request_error"; errors.Code := "" |}
      else if Is err ErrUnsupportedOperation then
        {| errors.Status := 400; errors.Message := Error err; errors.Type_ := "invalid_request_error"; errors.Code := "" |}
      else
        {| errors.Status := 502; errors.Message := "upstream provider error"; errors.Type_ := "upstream_error";
           errors.Code := "" |}
  end.

(** The kind [invalid-request] of the HTTP surface: what [toHTTPError]
    answers with status 400 and type [invalid_request_error]. *)
Definition isInvalidRequest (err : error) : bool :=
  (errors.Status (toHTTPError err) =? 400)
  && String.eqb (errors.Type_ (toHTTPError err)) "invalid_request_error".

Definition emptyUpstream : error :=
  Request {| errors.Status := 502; errors.Message := "upstream provider returned an empty response";
             errors.Type_ := "upstream_error"; errors.Code := "" |}.

(** *** Claude stream *)

(** [writeSSEEvent].  The payloads are maps of strings, integers and nil,
    which [json.Marshal] always encodes; each [Fprintf] is one write. *)
Definition writeSSEEvent (event : string) (payload : JSON) : M (option error) :=
  e1 <- http.Write [Text ("event: " ++ event ++ newline)];;
  match e1 with
  | Some err => ret (Some (Wrap ("write SSE event name: " ++ Error err) err))
  | None =>
      e2 <- http.Write [Text "data: "; Encoded payload; Text (newline ++ newline)];;
      match e2 with
      | Some err => ret (Some (Wrap ("write SSE data: " ++ Error err) err))
      | None => ret None
      end
  end.

(** The [events] slice of [writeClaudeStream]. *)
Definition streamEvents (modelID : string) (resp : UnifiedChatResponse)
    : list (string * JSON) :=
  let usage :=
    JObject [("input_tokens", JInt (PromptTokens (Usage_ resp)));
             ("output_tokens", JInt (CompletionTokens (Usage_ resp)));
             ("total_tokens", JInt (TotalTokens (Usage_ resp)))] in
  [ ("message_start",
     JObject [("type", JString "message_start");
              ("message",
               JObject [("id", JString (ID_ resp));
                        ("type", JString "message");
                        ("role", JString (models.Role (Message_ resp)));
                        ("model", JString modelID);
                        ("content", JArray []);
                        ("stop_reason", JNull);
                        ("stop_sequence", JNull);
                        ("usage", usage)])]);
    ("content_block_start",
     JObject [("type", JString "content_block_start");
              ("index", JInt 0);
              ("content_block", JObject [("type", JString "text"); ("text", JString "")])]);
    ("content_block_delta",
     JObject [("type", JString "content_block_delta");
              ("index", JInt 0);
              ("delta", JObject [("type", JString "text_delta");
                                 ("text", JString (models.Content (Message_ resp)))])]);
    ("content_block_stop",
     JObject [("type", JString "content_block_stop"); ("index", JInt 0)]);
    ("message_delta",
     JObject [("type", JString "message_delta");
              ("delta", JObject [("stop_reason", JString (FinishReason resp));
                                 ("stop_sequence", JNull)]);
              ("usage", usage)]);
    ("message_stop", JObject [("type", JString "message_stop")]) ].

(** The loop of [writeClaudeStream] over the events. *)
Fixpoint writeEvents (events : list (string * JSON)) : M (option error) :=
  match events with
  | [] => ret None
  | (name, payload) :: rest =>
      e <- writeSSEEvent name payload;;
      match e with
      | Some err => ret (Some err)
      | None => http.Flush;;; writeEvents rest
      end
  end.

Definition writeClaudeStream (modelID : string) (resp : UnifiedChatResponse)
    : M (option error) :=
  writer <- getResponse;;
  if negb (canFlush writer) then
    ret (Some (Request {| errors.Status := 500;
                          errors.Message := "server does not support streaming responses";
                          errors.Type_ := "server_error"; errors.Code := "" |}))
  else
    http.SetHeader "Content-Type" "text/event-stream";;;
    http.SetHeader "Cache-Control" "no-cache";;;
    http.SetHeader "Connection" "keep-alive";;;
    http.WriteHeader 200;;;
    writeEvents (streamEvents modelID resp).

(** *** Handlers

    [now] is the reading of the clock, [body] the request body. *)

Definition handleHealth : M (option error) :=
  http.JSON_ 200 (JObject [("status", JString "ok")]).

Definition handleChatCompletions (ing : Ingress) (s : Server) (now : Z) (body : string)
    : M (option error) :=
  decoded <- liftB (decodeRequestBody (scan ing) (unmarshalChat ing) body);;
  match decoded with
  | Err err => ret (Some err)
  | Ok req =>
      unifiedReq <- liftB (ChatCompletionRequest_ToUnified req);;
      routed <- liftB (router.Chat (router s) unifiedReq);;
      match routed with
      | Err err => ret (Some (Request (toHTTPError err)))
      | Ok (None, _) => ret (Some emptyUpstream)
      | Ok (Some resp, modelInfo) =>
          http.JSON_ 200 (ChatCompletionResponse_json (FromUnifiedChat (ID modelInfo) now resp))
      end
  end.

Definition handleCompletions (ing : Ingress) (s : Server) (now : Z) (body : string)
    : M (option error) :=
  decoded <- liftB (decodeRequestBody (scan ing) (unmarshalCompletion ing) body);;
  match decoded with
  | Err err => ret (Some err)
  | Ok req =>
      unifiedReq <- liftB (CompletionRequest_ToUnified req);;
      routed <- liftB (router.Completion (router s) unifiedReq);;
      match routed with
      | Err err => ret (Some (Request (toHTTPError err)))
      | Ok (None, _) => ret (Some emptyUpstream)
      | Ok (Some resp, modelInfo) =>
          http.JSON_ 200 (CompletionResponse_json (FromUnifiedCompletion (ID modelInfo) now resp))
      end
  end.

Definition handleClaudeMessages (ing : Ingress) (s : Server) (body : string)
    : M (option error) :=
  decoded <- liftB (decodeRequestBody (scan ing) (unmarshalClaude ing) body);;
  match decoded with
  | Err err => ret (Some err)
  | Ok req =>
      let requestedStream := clStream req in
      unifiedReq <- liftB (ClaudeMessageRequest_ToUnified req);;
      let unifiedReq :=
        {| Model_ := Model_ unifiedReq;
           models.Messages := models.Messages unifiedReq;
           models.Stream := false;
           models.Options := models.Options unifiedReq |} in
      routed <- liftB (router.Chat (router s) unifiedReq);;
      match routed with
      | Err err => ret (Some (Request (toHTTPError err)))
      | Ok (None, _) => ret (Some emptyUpstream)
      | Ok (Some resp, modelInfo) =>
          if requestedStream then writeClaudeStream (ID modelInfo) resp
          else http.JSON_ 200 (ClaudeMessageResponse_json (FromUnifiedClaude (ID modelInfo) resp))
      end
  end.

(** The three POST routes of [registerRoutes]. *)
Inductive route :=
| ChatCompletions      (* /v1/chat/completions *)
| Completions          (* /v1/completions *)
| Messages.            (* /v1/messages *)

Definition handler (ing : Ingress) (s : Server) (now : Z) (rt : route) (body : string)
    : M (option error) :=
  match rt with
  | ChatCompletions => handleChatCompletions ing s now body
  | Completions => handleCompletions ing s now body
  | Messages => handleClaudeMessages ing s body
  end.

(** echo serving one POST: the handler runs, and an error it returns goes
    to the error handler. *)
Definition ServeHTTP (ing : Ingress) (s : Server) (now : Z) (rt : route) (body : string)
    : M unit :=
  err <- handler ing s now rt body;;
  match err with
  | Some err => openAIErrorHandler err
  | None => ret tt
  end.

End server.

(** ** Vocabulary of the properties of the HTTP surface *)

(** One event of the Claude stream on the wire: the [event:] line, the
    [data:] line with the encoded payload and the blank line, then a
    flush. *)
Definition sseFrame (event : string * JSON) : list wevent :=
  [ Wrote [Text ("event: " ++ event.1 ++ newline)];
    Wrote [Text "data: "; Encoded event.2; Text (newline ++ newline)];
    Flushed ].

(** The connection takes [n] more writes. *)
Definition canWrite (r : ResponseWriter) (n : nat) : Prop :=
  match writesLeft r with
  | None => True
  | Some k => (n <= k)%nat
  end.

(** The answer to a request for the unregistered model [id]: the handler
    returns the 400 error with the registry's message, that is the status
    of the response and the message of its error document, and nothing
    went upstream. *)
Definition answersUnknownModel (ing : server.Ingress) (s : server.Server) (now : Z)
    (rt : server.route) (body : string) (w : World) (id : string) : Prop :=
  let w' := (server.ServeHTTP ing s now rt body w).2 in
  (server.handler ing s now rt body w).1
    = Some (Request {| errors.Status := 400;
                       errors.Message := "unknown model: " ++ id;
                       errors.Type_ := "invalid_request_error";
                       errors.Code := "" |}) /\
  status (response w') = Some 400 /\
  calls (backend w') = calls (backend w) /\
  strings.Contains ("unknown model: " ++ id) "unknown model" = true /\
  (canWrite (response w) 1 ->
   events (response w')
   = (events (response w)
      ++ [Wrote [Encoded (server.errorBody_json ("unknown model: " ++ id)
                            "invalid_request_error" "");
                 Text newline]])%list).

(** ** Sample values *)

Module examples.

Import provider.

(** An adapter that answers with the model id it was given and, like the
    OpenAI and Claude adapters, refuses a request whose stream flag is set. *)
Definition echoProvider (name : string) (ms : list Model) : Provider :=
  {| Name := name;
     ListModels := Ok ms;
     Chat := fun req =>
       if Stream req then
         ret (Err (Wrap ("streaming is not yet supported for provider " ++ name ++ ": "
                         ++ Error (Sentinel ErrUnsupportedOperation))
                        (Sentinel ErrUnsupportedOperation)))
       else
         ret (Ok (Some {| Message_ := {| models.Role := "assistant";
                                        models.Content := Model_ req;
                                        models.Name := "" |};
                          Usage_ := {| PromptTokens := 0; CompletionTokens := 0;
                                       TotalTokens := 0 |};
                          FinishReason := "stop";
                          ID_ := "echo" |}));
     Completion := fun req =>
       if cStream req then
         ret (Err (Wrap ("streaming is not yet supported for provider " ++ name ++ ": "
                         ++ Error (Sentinel ErrUnsupportedOperation))
                        (Sentinel ErrUnsupportedOperation)))
       else
         ret (Ok (Some {| cText := cModel req;
                          cUsage := {| PromptTokens := 0; CompletionTokens := 0;
                                       TotalTokens := 0 |};
                          cFinishReason := "stop";
                          cID := "echo" |})) |}.

Definition m1 : Model :=
  {| models.ID := "m1"; models.Provider := "p"; models.APIStyle := "openai" |}.

Definition p1 : Provider := echoProvider "p" [m1].

(** A registry with the model [m1] and the alias [alias-x] for it. *)
Definition aliased : Registry :=
  (RegisterProvider NewRegistry (Some p1) [("alias-x", "m1")]).2.

Definition emptyResponse : ResponseWriter :=
  {| canFlush := true; status := None; header := ∅; events := []; writesLeft := None |}.

(** A state whose only map is the options bag [{max_tokens: 5}]. *)
Definition w0 : Backend :=
  {| store := {[ 1%positive := {[ "max_tokens" := AInt 5 ]} ]};
     calls := [] |}.

Definition chatReq : UnifiedChatRequest :=
  {| Model_ := "alias-x";
     Messages := [ {| models.Role := "user"; models.Content := "hi"; models.Name := "" |} ];
     Stream := false;
     Options := Some 1%positive |}.

(** A Claude adapter without an upstream: every round-trip fails. *)
Definition offline : claude.Lib :=
  {| claude.newRequestError := fun _ => None;
     claude.decodeMessageResponse := fun _ _ => Err (External "unexpected end of JSON input");
     claude.unmarshalAPIError := fun _ => None |}.

Definition c1 : claude.Provider :=
  {| claude.name := "claude";
     claude.apiKey := "sk-claude";
     claude.baseURL := "https://api.anthropic.com";
     claude.client := fun _ => Err (External "dial tcp: connection refused");
     claude.models := [ {| models.ID := "m2"; models.Provider := "claude";
                           models.APIStyle := "claude" |} ];
     claude.messages := "https://api.anthropic.com/v1/messages" |}.

(** A body of [n] spaces. *)
Fixpoint spaces (n : nat) : string :=
  match n with
  | O => EmptyString
  | S n => String " " (spaces n)
  end.

(** One byte more than the limit. *)
Definition bigBody : string := spaces (Z.to_nat (server.maxBodyBytes + 1)).

(** [encoding/json] on inputs of white space only, where the scanner finds
    nothing and no document is ever handed to [Unmarshal]. *)
Definition blankIngress : server.Ingress :=
  {| server.scan := fun _ _ => server.Blank;
     server.unmarshalChat := fun _ => ret (Err (External "unreachable"));
     server.unmarshalCompletion := fun _ => ret (Err (External "unreachable"));
     server.unmarshalClaude := fun _ => ret (Err (External "unreachable")) |}.

(** A stand-in for [encoding/json] that takes a body that is not empty for
    one document and decodes it to the given requests. *)
Definition fixedIngress (chat : translator.ChatCompletionRequest)
    (completion : translator.CompletionRequest)
    (claudeReq : translator.ClaudeMessageRequest) : server.Ingress :=
  {| server.scan := fun data _ =>
       match data with
       | EmptyString => server.Blank
       | _ => server.Value (JString data) ""
       end;
     server.unmarshalChat := fun _ => ret (Ok chat);
     server.unmarshalCompletion := fun _ => ret (Ok completion);
     server.unmarshalClaude := fun _ => ret (Ok claudeReq) |}.

Definition userHi : translator.ChatMessage :=
  {| translator.Role := "user"; translator.Content := "hi"; translator.Name := "" |}.

(** The three kinds of request, each for the model [id]. *)
Definition chatFor (id : string) : translator.ChatCompletionRequest :=
  {| translator.Model := id; translator.Messages := [userHi]; translator.Stream := false;
     translator.Stop := []; translator.Options := {[ "max_tokens" := AInt 5 ]} |}.

Definition completionFor (id : string) : translator.CompletionRequest :=
  {| translator.compModel := id; translator.compPrompt := "hi";
     translator.compStream := false; translator.compMaxTokens := Some 5;
     translator.compTemperature := None; translator.compTopP := None;
     translator.compOptions := {[ "max_tokens" := AInt 5 ]} |}.

Definition claudeFor (id : string) (stream : bool) : translator.ClaudeMessageRequest :=
  {| translator.clModel := id; translator.clMessages := [userHi];
     translator.clSystem := []; translator.clStream := stream;
     translator.clStopSequences := [];
     translator.clOptions := {[ "max_tokens" := AInt 10 ]} |}.

Definition ingressFor (id : string) (stream : bool) : server.Ingress :=
  fixedIngress (chatFor id) (completionFor id) (claudeFor id stream).

Definition world0 : World := {| backend := w0; response := emptyResponse |}.

Definition srv : server.Server := {| server.router := router.New aliased |}.

(** The decoded chat request of scenario S2, with the given [stop]. *)
Definition chatWithStop (stop : JSON) : translator.chatAlias :=
  {| translator.raw_Model := "alias-x";
     translator.raw_Messages :=
       [ {| translator.Role := "user"; translator.Content := "hi"; translator.Name := "" |} ];
     translator.raw_Stream := false;
     translator.raw_MaxTokens := Some 5;
     translator.raw_Temperature := None;
     translator.raw_TopP := None;
     translator.raw_FrequencyPenalty := None;
     translator.raw_PresencePenalty := None;
     translator.raw_Stop := Some stop;
     translator.raw_ResponseFormat := None;
     translator.raw_Tools := None;
     translator.raw_ToolChoice := None;
     translator.raw_LogitBias := None;
     translator.raw_Metadata := None;
     translator.raw_User := "" |}.

(** The decoded Claude-messages request of scenario S3, without its
    [system] member. *)
Definition claudeS3 : translator.claudeAlias :=
  {| translator.craw_Model := "m2";
     translator.craw_MaxTokens := Some 10;
     translator.craw_Messages :=
       [ {| translator.Role := "user"; translator.Content := "q"; translator.Name := "" |} ];
     translator.craw_System := None;
     translator.craw_Stream := false;
     translator.craw_Temperature := None;
     translator.craw_TopP := None;
     translator.craw_StopSequences := None;
     translator.craw_Metadata := None |}.

Definition textBlock (text : string) : JSON :=
  JObject [("type", JString "text"); ("text", JString text)].

(** The canonical stop value of a parsed chat request. *)
Definition stopOf (r : result translator.ChatCompletionRequest) : option any :=
  match r with
  | Err _ => None
  | Ok r => translator.Options r !! "stop"
  end.

(** An upstream answer of two text blocks and no role (scenario S3). *)
Definition twoBlocks : wire.messageResponse :=
  {| wire.ID := "msg_1";
     wire.RespRole := "";
     wire.RespContent := [ {| wire.Type_ := "text"; wire.Text := "Hello, " |};
                           {| wire.Type_ := "text"; wire.Text := "world" |} ];
     wire.Usage := {| wire.InputTokens := 12; wire.OutputTokens := 30 |};
     wire.StopReason := "end_turn";
     wire.RespError := None |}.

(** A conversation that opens with the assistant (scenario S5). *)
Definition assistantFirst : UnifiedChatRequest :=
  {| Model_ := "m2";
     Messages := [ {| models.Role := "assistant"; models.Content := "x"; models.Name := "" |} ];
     Stream := false;
     Options := Some 1%positive |}.

End examples.

(** ** Configuration (package config)

    The YAML file itself and its decoding are outside; what is embedded is
    the configuration value and its validation. *)

(** [strings.TrimRight] for a cutset of ASCII bytes: the bytes of the
    cutset are dropped from the end. *)
Fixpoint dropLeading (cutset : list N) (l : list N) : list N :=
  match l with
  | [] => []
  | c :: r => if existsb (N.eqb c) cutset then dropLeading cutset r else l
  end.

Definition TrimRight (s cutset : string) : string :=
  strings.of_bytes (rev (dropLeading (strings.bytes cutset) (rev (strings.bytes s)))).

Module config.

Definition apiStyleOpenAI : string := "openai".
Definition apiStyleClaude : string := "claude".

Record ModelConfig := {
  ID : string;
  APIStyle : string
}.

(** [Headers] and [Aliases] are maps; each is kept as its entries in the
    order in which a [range] loop visits them. *)
Record ProviderConfig := {
  APIKey : string;
  BaseURL : string;
  Models : list ModelConfig;
  Headers : list (string * string);
  Aliases : list (string * string)
}.

Record ServerConfig := {
  Port : Z
}.

Record ProvidersConfig := {
  OpenAI : ProviderConfig;
  Claude : ProviderConfig;
  NVIDIA : option ProviderConfig     (* a pointer: [None] is nil *)
}.

Record Config := {
  Server : ServerConfig;
  Providers : ProvidersConfig
}.

Definition validateAPIStyle (providerName style : string) : option error :=
  if String.eqb style apiStyleOpenAI || String.eqb style apiStyleClaude then None
  else Some (New ("provider " ++ providerName ++ ": model api_style " ++ strconv.Quote style
                  ++ " must be one of " ++ strconv.Quote apiStyleOpenAI ++ " or "
                  ++ strconv.Quote apiStyleClaude)).









End config.

(** ** OpenAI adapter (package openai) *)

(** [req.Temperature != 0] on a [float64]: neither of the two zeros. *)
Definition float64_nonzero (bits : float64) : bool :=
  negb (Z.land bits (2 ^ 63 - 1) =? 0).

Module openai.

Record openAIMessage := {
  Role : string;
  Content : string;
  Name : string
}.

(** A [json.RawMessage] of a payload: the bytes of a document that was
    decoded, or the bytes of a Go string. *)
Inductive rawBytes :=
| RawDocument (v : JSON)
| RawText (s : string).

(** The pointer fields are options; a slice or map that is nil and one
    that is empty are written alike ([omitempty]) and both are [[]]. *)
Record chatPayload := {
  Model : string;
  Messages : list openAIMessage;
  Stream : bool;
  MaxTokens : option Z;
  Temperature : option float64;
  TopP : option float64;
  FrequencyPenalty : option float64;
  PresencePenalty : option float64;
  Stop : list string;
  ResponseFormat : mapref;
  Tools : option rawBytes;
  ToolChoice : option rawBytes;
  LogitBias : option (list (string * float64));
  Metadata : mapref;
  User : string
}.

Record usageBlock := {
  PromptTokens : Z;
  CompletionTokens : Z;
  TotalTokens : Z
}.

Record chatChoice := {
  Index : Z;
  Message : openAIMessage;
  FinishReason : string
}.

Record chatResponse := {
  ID : string;
  Choices : list chatChoice;
  Usage : option usageBlock
}.

Record completionPayload := {
  cpModel : string;
  cpPrompt : string;
  cpStream : bool;
  cpMaxTokens : option Z;
  cpTemperature : option float64;
  cpTopP : option float64;
  cpStop : list string;
  cpLogitBias : option (list (string * float64));
  cpUser : string
}.

Record completionChoice := {
  ccText : string;
  ccIndex : Z;
  ccFinishReason : string
}.

Record completionResponse := {
  crID : string;
  crChoices : list completionChoice;
  crUsage : option usageBlock
}.

Record apiErrorObject := {
  ErrMessage : string;
  ErrType : string
}.

(** What the adapter takes from [encoding/json] and [net/http]: the
    encoding of a payload (which reads the maps the payload refers to),
    whether a request can be built, and the decoding of the bodies an
    upstream can answer with. *)
Record Lib := {
  marshalChat : heap -> chatPayload -> result string;
  marshalCompletion : heap -> completionPayload -> result string;
  newRequestError : HTTPRequest -> option error;
  decodeChatResponse : string -> option string -> result chatResponse;
  decodeCompletionResponse : string -> option string -> result completionResponse;
  unmarshalAPIError : string -> option apiErrorObject
}.

Record Provider := {
  name : string;
  apiKey : string;
  baseURL : string;
  client : HTTPRequest -> result HTTPResponse;
  models : list models.Model;
  chatURL : string;
  legacyURL : string
}.

(** The extractors, as in the Claude adapter: they read a bag, and their
    cases for [float32], [json.Number] and [[]byte] have no counterpart in
    [any]. *)
Definition extractFloat (options : bag) (key : string) : option float64 :=
  match options !! key with
  | Some (AFloat64 v) => Some v
  | _ => None
  end.

Definition extractInt (options : bag) (key : string) : option Z :=
  match options !! key with
  | Some (AInt v) => Some v
  | Some (AInt64 v) => Some v
  | Some (AFloat64 v) => Some (float64_to_int v)
  | _ => None
  end.

Definition extractString (options : bag) (key : string) : option string :=
  match options !! key with
  | Some (AString str) => Some str
  | _ => None
  end.

Definition extractStringSlice (options : bag) (key : string) : option (list string) :=
  match options !! key with
  | Some (AStrings v) => Some v
  | Some (ASlice v) =>
      mapM (fun item => match item with AString str => Some str | _ => None end) v
  | _ => None
  end.

Definition extractMap (options : bag) (key : string) : option loc :=
  match options !! key with
  | Some (AMap m) => Some m
  | _ => None
  end.

Definition extractRaw (options : bag) (key : string) : option rawBytes :=
  match options !! key with
  | Some (ARaw v) => Some (RawDocument v)
  | Some (AString v) => Some (RawText v)
  | _ => None
  end.

(** A [map[string]any] under [logit_bias] is copied entry by entry, and
    one entry that is no number fails the whole. *)
Definition extractLogitBias (h : heap) (options : bag) : option (list (string * float64)) :=
  match options !! "logit_bias" with
  | Some (AFloatMap v) => Some v
  | Some (AMap l) =>
      mapM (fun kv : string * any =>
              match kv.2 with
              | AFloat64 val => Some (kv.1, val)
              | _ => None
              end)
           (map_to_list (default ∅ (h !! l)))
  | _ => None
  end.

(** The loop of [buildChatPayload] over the canonical messages. *)
Fixpoint copyMessages (msgs : list models.Message) (messages : list openAIMessage)
    : result (list openAIMessage) :=
  match msgs with
  | [] => Ok messages
  | msg :: rest =>
      if String.eqb (strings.TrimSpace (models.Content msg)) "" then
        Err (New "message content must not be empty")
      else
        copyMessages rest
          (messages ++ [ {| Role := models.Role msg; Content := models.Content msg;
                            Name := models.Name msg |} ])
  end.

Definition buildChatPayload (h : heap) (req : UnifiedChatRequest) : result chatPayload :=
  match copyMessages (models.Messages req) [] with
  | Err err => Err err
  | Ok messages =>
      let options := deref h (Options req) in
      Ok {| Model := Model_ req;
            Messages := messages;
            Stream := models.Stream req;
            MaxTokens := extractInt options "max_tokens";
            Temperature := extractFloat options "temperature";
            TopP := extractFloat options "top_p";
            FrequencyPenalty := extractFloat options "frequency_penalty";
            PresencePenalty := extractFloat options "presence_penalty";
            Stop := default [] (extractStringSlice options "stop");
            ResponseFormat := extractMap options "response_format";
            Tools := extractRaw options "tools";
            ToolChoice := extractRaw options "tool_choice";
            LogitBias := extractLogitBias h options;
            Metadata := extractMap options "metadata";
            User := default "" (extractString options "user") |}
  end.

(** [valueOrZero] at the type [int]. *)
Definition valueOrZero (ptr : option usageBlock) (getter : usageBlock -> Z) : Z :=
  match ptr with
  | None => 0
  | Some u => getter u
  end.

Definition chatResponse_toUnified (r : chatResponse) : result UnifiedChatResponse :=
  match Choices r with
  | [] => Err (New "openai response did not include choices")
  | choice :: _ =>
      Ok {| ID_ := ID r;
            Message_ := {| models.Role := Role (Message choice);
                           models.Content := Content (Message choice);
                           models.Name := Name (Message choice) |};
            models.FinishReason := FinishReason choice;
            Usage_ := {| models.PromptTokens := valueOrZero (Usage r) PromptTokens;
                         models.CompletionTokens := valueOrZero (Usage r) CompletionTokens;
                         models.TotalTokens := valueOrZero (Usage r) TotalTokens |} |}
  end.

Definition buildCompletionPayload (h : heap) (req : UnifiedCompletionRequest)
    : result completionPayload :=
  if String.eqb (strings.TrimSpace (cPrompt req)) "" then Err (New "prompt must not be empty")
  else
    let options := deref h (cOptions req) in
    Ok {| cpModel := cModel req;
          cpPrompt := cPrompt req;
          cpStream := cStream req;
          cpMaxTokens := if 0 <? cMaxTokens req then Some (cMaxTokens req) else None;
          cpTemperature := if float64_nonzero (cTemperature req) then Some (cTemperature req)
                           else None;
          cpTopP := extractFloat options "top_p";
          cpStop := default [] (extractStringSlice options "stop");
          cpLogitBias := extractLogitBias h options;
          cpUser := default "" (extractString options "user") |}.

Definition completionResponse_toUnified (r : completionResponse)
    : result UnifiedCompletionResponse :=
  match crChoices r with
  | [] => Err (New "openai completion response did not include choices")
  | choice :: _ =>
      Ok {| cID := crID r;
            cText := ccText choice;
            cFinishReason := ccFinishReason choice;
            cUsage := {| models.PromptTokens := valueOrZero (crUsage r) PromptTokens;
                         models.CompletionTokens := valueOrZero (crUsage r) CompletionTokens;
                         models.TotalTokens := valueOrZero (crUsage r) TotalTokens |} |}
  end.

(** [parseAPIError], on at most 64 KiB of the body. *)
Definition parseAPIError (lib : Lib) (resp : HTTPResponse) : error :=
  match readAllLimited (64 * 1024) resp with
  | Err err =>
      Wrap ("upstream error status " ++ pretty (StatusCode resp)
            ++ " and failed to read body: " ++ Error err) err
  | Ok body =>
      match unmarshalAPIError lib body with
      | Some apiErr =>
          if negb (String.eqb (ErrMessage apiErr) "")
          then New ("openai error (" ++ ErrType apiErr ++ "): " ++ ErrMessage apiErr)
          else New ("upstream error status " ++ pretty (StatusCode resp) ++ ": "
                    ++ strings.TrimSpace body)
      | None =>
          New ("upstream error status " ++ pretty (StatusCode resp) ++ ": "
               ++ strings.TrimSpace body)
      end
  end.

(** [newRequest], given the outcome of [json.Marshal] on the payload. *)
Definition newRequest (lib : Lib) (url : string) (body : result string) : result HTTPRequest :=
  match body with
  | Err err => Err (Wrap ("marshal payload: " ++ Error err) err)
  | Ok body =>
      let req := {| Method := "POST"; URL := url; Body := OtherPayload body |} in
      match newRequestError lib req with
      | Some err => Err (Wrap ("construct request: " ++ Error err) err)
      | None => Ok req
      end
  end.

(** [client.Do]: one upstream round-trip. *)
Definition Do (p : Provider) (req : HTTPRequest) : B (result HTTPResponse) :=
  fun w => (client p req, {| store := store w; calls := calls w ++ [req] |}).

Definition Chat (lib : Lib) (p : Provider) (req : UnifiedChatRequest)
    : B (result UnifiedChatResponse) :=
  if models.Stream req then
    ret (Err (Wrap ("streaming is not yet supported for provider " ++ name p ++ ": "
                    ++ Error (Sentinel ErrUnsupportedOperation))
                   (Sentinel ErrUnsupportedOperation)))
  else
    h <- getStore;;
    match buildChatPayload h req with
    | Err err => ret (Err err)
    | Ok payload =>
        match newRequest lib (chatURL p) (marshalChat lib h payload) with
        | Err err => ret (Err err)
        | Ok httpReq =>
            sent <- Do p httpReq;;
            match sent with
            | Err err => ret (Err (Wrap ("openai chat request failed: " ++ Error err) err))
            | Ok httpResp =>
                if 400 <=? StatusCode httpResp then ret (Err (parseAPIError lib httpResp))
                else
                  match decodeChatResponse lib (RespBody httpResp) (BodyFailure httpResp) with
                  | Err err => ret (Err (Wrap ("decode provider response: " ++ Error err) err))
                  | Ok providerResp => ret (chatResponse_toUnified providerResp)
                  end
            end
        end
    end.

Definition Completion (lib : Lib) (p : Provider) (req : UnifiedCompletionRequest)
    : B (result UnifiedCompletionResponse) :=
  if cStream req then
    ret (Err (Wrap ("streaming is not yet supported for provider " ++ name p ++ ": "
                    ++ Error (Sentinel ErrUnsupportedOperation))
                   (Sentinel ErrUnsupportedOperation)))
  else
    h <- getStore;;
    match buildCompletionPayload h req with
    | Err err => ret (Err err)
    | Ok payload =>
        match newRequest lib (legacyURL p) (marshalCompletion lib h payload) with
        | Err err => ret (Err err)
        | Ok httpReq =>
            sent <- Do p httpReq;;
            match sent with
            | Err err => ret (Err (Wrap ("openai completion request failed: " ++ Error err) err))
            | Ok httpResp =>
                if 400 <=? StatusCode httpResp then ret (Err (parseAPIError lib httpResp))
                else
                  match decodeCompletionResponse lib (RespBody httpResp) (BodyFailure httpResp) with
                  | Err err => ret (Err (Wrap ("decode provider response: " ++ Error err) err))
                  | Ok providerResp => ret (completionResponse_toUnified providerResp)
                  end
            end
        end
    end.

(** The adapter behind the [provider.Provider] interface. *)
Definition asProvider (lib : Lib) (p : Provider) : provider.Provider :=
  {| provider.Name := name p;
     provider.ListModels := Ok (models p);
     provider.Chat := fun req => r <- Chat lib p req;; ret (sum_map id Some r);
     provider.Completion := fun req => r <- Completion lib p req;; ret (sum_map id Some r) |}.

(** The loop of [New] over the configured models. *)
Fixpoint listModels (name : string) (ms : list config.ModelConfig)
    (modelsList : list models.Model) : result (list models.Model) :=
  match ms with
  | [] => Ok modelsList
  | model :: rest =>
      if negb (String.eqb (config.APIStyle model) "openai") then
        Err (New ("openai provider " ++ strconv.Quote name ++ " received model "
                  ++ strconv.Quote (config.ID model) ++ " with unsupported api_style "
                  ++ strconv.Quote (config.APIStyle model)))
      else
        listModels name rest
          (modelsList ++ [ {| models.ID := config.ID model; models.Provider := name;
                              models.APIStyle := config.APIStyle model |} ])
  end.

(** [New]; the client is a pointer, [None] being nil. *)
Definition New (name : string) (cfg : config.ProviderConfig)
    (client : option (HTTPRequest -> result HTTPResponse)) : result Provider :=
  match client with
  | None => Err (New "http client must not be nil")
  | Some client =>
      let baseURL := TrimRight (config.BaseURL cfg) "/" in
      if String.eqb baseURL "" then Err (New "base url must not be empty")
      else
        match listModels name (config.Models cfg) [] with
        | Err err => Err err
        | Ok modelsList =>
            Ok {| name := name;
                  apiKey := config.APIKey cfg;
                  baseURL := baseURL;
                  client := client;
                  models := modelsList;
                  chatURL := baseURL ++ "/chat/completions";
                  legacyURL := baseURL ++ "/completions" |}
        end
  end.

End openai.

(** ** The constructor of the Claude adapter *)

Module claudeProvider.

(** The loop of [New] over the configured models. *)
Fixpoint listModels (name : string) (ms : list config.ModelConfig)
    (modelsList : list models.Model) : result (list models.Model) :=
  match ms with
  | [] => Ok modelsList
  | model :: rest =>
      if negb (String.eqb (config.APIStyle model) "claude") then
        Err (New ("claude provider " ++ strconv.Quote name ++ " received model "
                  ++ strconv.Quote (config.ID model) ++ " with unsupported api_style "
                  ++ strconv.Quote (config.APIStyle model)))
      else
        listModels name rest
          (modelsList ++ [ {| models.ID := config.ID model; models.Provider := name;
                              models.APIStyle := config.APIStyle model |} ])
  end.

Definition New (name : string) (cfg : config.ProviderConfig)
    (client : option (HTTPRequest -> result HTTPResponse)) : result claude.Provider :=
  match client with
  | None => Err (New "http client must not be nil")
  | Some client =>
      let baseURL := TrimRight (config.BaseURL cfg) "/" in
      if String.eqb baseURL "" then Err (New "base url must not be empty")
      else
        match listModels name (config.Models cfg) [] with
        | Err err => Err err
        | Ok modelsList =>
            Ok {| claude.name := name;
                  claude.apiKey := config.APIKey cfg;
                  claude.baseURL := baseURL;
                  claude.client := client;
                  claude.models := modelsList;
                  claude.messages := baseURL ++ "/v1/messages" |}
        end
  end.

End claudeProvider.

(** ** NVIDIA adapter (package nvidia) *)

Module nvidia.

Definition apiStyleOpenAI : string := "openai".
Definition apiStyleClaude : string := "claude".

Record Provider := {
  name : string;
  models : list models.Model;
  modelStyles : gmap string string;
  openaiAdapter : option openai.Provider;     (* pointers: [None] is nil *)
  claudeAdapter : option claude.Provider
}.

(** The variables the loop of [New] fills. *)
Record sorted := {
  openaiModels : list config.ModelConfig;
  claudeModels : list config.ModelConfig;
  allModels : list models.Model;
  styles : gmap string string
}.

(** The loop of [New] over the configured models. *)
Fixpoint sortModels (name : string) (ms : list config.ModelConfig) (acc : sorted)
    : result sorted :=
  match ms with
  | [] => Ok acc
  | model :: rest =>
      let style := strings.TrimSpace (strings.ToLower (config.APIStyle model)) in
      let allModels' :=
        (allModels acc ++ [ {| models.ID := config.ID model; models.Provider := name;
                               models.APIStyle := style |} ])%list in
      let styles' := <[config.ID model := style]> (styles acc) in
      if String.eqb style apiStyleOpenAI then
        sortModels name rest
          {| openaiModels := (openaiModels acc ++ [model])%list; claudeModels := claudeModels acc;
             allModels := allModels'; styles := styles' |}
      else if String.eqb style apiStyleClaude then
        sortModels name rest
          {| openaiModels := openaiModels acc; claudeModels := (claudeModels acc ++ [model])%list;
             allModels := allModels'; styles := styles' |}
      else
        Err (New ("model " ++ config.ID model ++ ": unsupported api_style "
                  ++ strconv.Quote (config.APIStyle model)))
  end.

Definition New (name : string) (cfg : config.ProviderConfig)
    (client : option (HTTPRequest -> result HTTPResponse)) : result Provider :=
  match client with
  | None => Err (New "http client must not be nil")
  | Some _ =>
      let baseURL := TrimRight (config.BaseURL cfg) "/" in
      if String.eqb baseURL "" then Err (New "base url must not be empty")
      else
        match sortModels name (config.Models cfg)
                {| openaiModels := []; claudeModels := []; allModels := []; styles := ∅ |} with
        | Err err => Err err
        | Ok found =>
            let adapterCfg ms :=
              {| config.APIKey := config.APIKey cfg;
                 config.BaseURL := baseURL;
                 config.Models := ms;
                 config.Headers := config.Headers cfg;
                 config.Aliases := config.Aliases cfg |} in
            let openaiAdapter :=
              match openaiModels found with
              | [] => Ok None
              | ms =>
                  match openai.New name (adapterCfg ms) client with
                  | Err err => Err (Wrap ("initialize openai adapter: " ++ Error err) err)
                  | Ok adapter => Ok (Some adapter)
                  end
              end in
            match openaiAdapter with
            | Err err => Err err
            | Ok openaiAdapter =>
                let claudeAdapter :=
                  match claudeModels found with
                  | [] => Ok None
                  | ms =>
                      match claudeProvider.New name (adapterCfg ms) client with
                      | Err err => Err (Wrap ("initialize claude adapter: " ++ Error err) err)
                      | Ok adapter => Ok (Some adapter)
                      end
                  end in
                match claudeAdapter with
                | Err err => Err err
                | Ok claudeAdapter =>
                    Ok {| name := name;
                          models := allModels found;
                          modelStyles := styles found;
                          openaiAdapter := openaiAdapter;
                          claudeAdapter := claudeAdapter |}
                end
            end
        end
  end.

Definition Chat (olib : openai.Lib) (clib : claude.Lib) (p : Provider)
    (req : UnifiedChatRequest) : B (result UnifiedChatResponse) :=
  match modelStyles p !! Model_ req with
  | None =>
      ret (Err (Wrap (Error (Sentinel ErrUnknownModel) ++ ": " ++ Model_ req)
                     (Sentinel ErrUnknownModel)))
  | Some style =>
      if String.eqb style apiStyleOpenAI then
        match openaiAdapter p with
        | None =>
            ret (Err (errors.New ("model " ++ Model_ req
                           ++ " configured as openai style but adapter missing")))
        | Some adapter => openai.Chat olib adapter req
        end
      else if String.eqb style apiStyleClaude then
        match claudeAdapter p with
        | None =>
            ret (Err (errors.New ("model " ++ Model_ req
                           ++ " configured as claude style but adapter missing")))
        | Some adapter => claude.Chat clib adapter req
        end
      else
        ret (Err (errors.New ("model " ++ Model_ req ++ " has unsupported api style "
                       ++ strconv.Quote style)))
  end.

Definition Completion (olib : openai.Lib) (p : Provider) (req : UnifiedCompletionRequest)
    : B (result UnifiedCompletionResponse) :=
  match modelStyles p !! cModel req with
  | None =>
      ret (Err (Wrap (Error (Sentinel ErrUnknownModel) ++ ": " ++ cModel req)
                     (Sentinel ErrUnknownModel)))
  | Some style =>
      if String.eqb style apiStyleOpenAI then
        match openaiAdapter p with
        | None =>
            ret (Err (errors.New ("model " ++ cModel req
                           ++ " configured as openai style but adapter missing")))
        | Some adapter => openai.Completion olib adapter req
        end
      else if String.eqb style apiStyleClaude then
        ret (Err (Wrap ("model " ++ cModel req
                        ++ " uses claude api style which does not support completions: "
                        ++ Error (Sentinel ErrUnsupportedOperation))
                       (Sentinel ErrUnsupportedOperation)))
      else
        ret (Err (errors.New ("model " ++ cModel req ++ " has unsupported api style "
                       ++ strconv.Quote style)))
  end.

(** The adapter behind the [provider.Provider] interface. *)
Definition asProvider (olib : openai.Lib) (clib : claude.Lib) (p : Provider)
    : provider.Provider :=
  {| provider.Name := name p;
     provider.ListModels := Ok (models p);
     provider.Chat := fun req => r <- Chat olib clib p req;; ret (sum_map id Some r);
     provider.Completion := fun req => r <- Completion olib p req;; ret (sum_map id Some r) |}.

End nvidia.

(** ** The provider factory (package providerfactory) *)

Module providerfactory.

(** What the factory takes from outside: the libraries of the adapters,
    the three HTTP clients it makes, and the order in which a [range] loop
    visits an alias map. *)
Record Env := {
  openaiLib : openai.Lib;
  claudeLib : claude.Lib;
  openAIClient : HTTPRequest -> result HTTPResponse;
  claudeClient : HTTPRequest -> result HTTPResponse;
  nvidiaClient : HTTPRequest -> result HTTPResponse;
  visit : list (string * string) -> list (string * string)
}.

(** [RegisterConfiguredProviders]; the registry is a pointer, [None]
    being nil, and the result holds the registry after the call. *)
Definition RegisterConfiguredProviders (env : Env) (cfg : config.Config)
    (registry : option provider.Registry) : option error * option provider.Registry :=
  match registry with
  | None => (Some (New "registry must not be nil"), None)
  | Some registry =>
      let openaiCfg := config.OpenAI (config.Providers cfg) in
      match openai.New "openai" openaiCfg (Some (openAIClient env)) with
      | Err err => (Some (Wrap ("initialise openai provider: " ++ Error err) err), Some registry)
      | Ok openAIProvider =>
          match provider.RegisterProvider registry
                  (Some (openai.asProvider (openaiLib env) openAIProvider))
                  (visit env (config.Aliases openaiCfg)) with
          | (Some err, registry) =>
              (Some (Wrap ("register openai provider: " ++ Error err) err), Some registry)
          | (None, registry) =>
              let claudeCfg := config.Claude (config.Providers cfg) in
              match claudeProvider.New "claude" claudeCfg (Some (claudeClient env)) with
              | Err err =>
                  (Some (Wrap ("initialise claude provider: " ++ Error err) err), Some registry)
              | Ok claudeProvider =>
                  match provider.RegisterProvider registry
                          (Some (claude.asProvider (claudeLib env) claudeProvider))
                          (visit env (config.Aliases claudeCfg)) with
                  | (Some err, registry) =>
                      (Some (Wrap ("register claude provider: " ++ Error err) err),
                       Some registry)
                  | (None, registry) =>
                      match config.NVIDIA (config.Providers cfg) with
                      | None => (None, Some registry)
                      | Some nvidiaCfg =>
                          match nvidia.New "nvidia" nvidiaCfg (Some (nvidiaClient env)) with
                          | Err err =>
                              (Some (Wrap ("initialise nvidia provider: " ++ Error err) err),
                               Some registry)
                          | Ok nvidiaProvider =>
                              match provider.RegisterProvider registry
                                      (Some (nvidia.asProvider (openaiLib env) (claudeLib env)
                                               nvidiaProvider))
                                      (visit env (config.Aliases nvidiaCfg)) with
                              | (Some err, registry) =>
                                  (Some (Wrap ("register nvidia provider: " ++ Error err) err),
                                   Some registry)
                              | (None, registry) => (None, Some registry)
                              end
                          end
                      end
                  end
              end
          end
      end
  end.

End providerfactory.

(** ** Decoding of messages and completion requests (package translator)

    The [UnmarshalJSON] methods that run while [json.Unmarshal] fills a
    request, each after its document was decoded into its local struct
    [alias]. *)

Module ingress.

(** The struct [alias] of [ChatMessage.UnmarshalJSON] and of
    [ClaudeMessage.UnmarshalJSON]. *)
Record messageAlias := {
  raw_Role : string;
  raw_Content : RawMessage;
  raw_Name : string
}.

(** The loop of [extractMessageContent] over the segments. *)
Fixpoint writeSegments (segments : list (string * string)) (builder : string) : result string :=
  match segments with
  | [] => Ok builder
  | (type, text) :: rest =>
      if negb (String.eqb type "text") then
        Err (Wrap (Error (Sentinel errInvalidContent) ++ ": segment type " ++ strconv.Quote type
                   ++ " not supported") (Sentinel errInvalidContent))
      else writeSegments rest (builder ++ text)
  end.

Definition extractMessageContent (raw : RawMessage) : result string :=
  match raw with
  | None =>
      Err (Wrap (Error (Sentinel errInvalidContent) ++ ": missing content")
                (Sentinel errInvalidContent))
  | Some v =>
      match UnmarshalString v with
      | Some text => Ok text
      | None =>
          match UnmarshalBlocks v with
          | Some segments => writeSegments segments ""
          | None =>
              Err (Wrap (Error (Sentinel errInvalidContent) ++ ": unsupported content structure")
                        (Sentinel errInvalidContent))
          end
      end
  end.

Definition ChatMessage_UnmarshalJSON (raw : messageAlias) : result translator.ChatMessage :=
  match extractMessageContent (raw_Content raw) with
  | Err err => Err err
  | Ok content =>
      let m := {| translator.Role := strings.TrimSpace (raw_Role raw);
                  translator.Content := content;
                  translator.Name := strings.TrimSpace (raw_Name raw) |} in
      match translator.ChatMessage_validate m with
      | Some err => Err err
      | None => Ok m
      end
  end.

(** The loop of [extractClaudeContent] over the blocks. *)
Fixpoint writeClaudeBlocks (blocks : list (string * string)) (builder : string) : result string :=
  match blocks with
  | [] => Ok builder
  | (type, text) :: rest =>
      if negb (String.eqb type "text") then
        Err (Wrap (Error (Sentinel errClaudeInvalidContent) ++ ": unsupported block type "
                   ++ strconv.Quote type) (Sentinel errClaudeInvalidContent))
      else
        let builder := if (0 <? String.length builder)%nat then builder ++ newline
                       else builder in
        writeClaudeBlocks rest (builder ++ strings.TrimSpace text)
  end.

Definition extractClaudeContent (raw : RawMessage) : result string :=
  match raw with
  | None | Some JNull => Err (Sentinel errClaudeInvalidContent)
  | Some v =>
      match UnmarshalString v with
      | Some text => Ok (strings.TrimSpace text)
      | None =>
          match UnmarshalBlocks v with
          | Some blocks =>
              match writeClaudeBlocks blocks "" with
              | Err err => Err err
              | Ok built =>
                  let result := strings.TrimSpace built in
                  if String.eqb result "" then Err (Sentinel errClaudeInvalidContent)
                  else Ok result
              end
          | None => Err (Sentinel errClaudeInvalidContent)
          end
      end
  end.

Definition ClaudeMessage_UnmarshalJSON (raw : messageAlias) : result translator.ClaudeMessage :=
  match extractClaudeContent (raw_Content raw) with
  | Err err => Err err
  | Ok content =>
      let m := {| translator.Role := strings.TrimSpace (raw_Role raw);
                  translator.Content := content;
                  translator.Name := strings.TrimSpace (raw_Name raw) |} in
      match translator.ClaudeMessage_validate m with
      | Some err => Err err
      | None => Ok m
      end
  end.

(** The struct [alias] of [CompletionRequest.UnmarshalJSON]. *)
Record completionAlias := {
  craw_Model : string;
  craw_Prompt : RawMessage;
  craw_Stream : bool;
  craw_MaxTokens : option Z;
  craw_Temperature : option float64;
  craw_TopP : option float64
}.

Definition extractPrompt (raw : RawMessage) : result string :=
  match raw with
  | None => Err (New "prompt is required")
  | Some v =>
      match UnmarshalString v with
      | Some text => Ok text
      | None =>
          match UnmarshalStrings v with
          | Some parts => Ok (strings.Join parts newline)
          | None => Err (New "unsupported prompt type")
          end
      end
  end.

Definition CompletionRequest_UnmarshalJSON (raw : completionAlias)
    : result translator.CompletionRequest :=
  match extractPrompt (craw_Prompt raw) with
  | Err err => Err err
  | Ok prompt =>
      let options : bag :=
        translator.setIf "top_p" AFloat64 (craw_TopP raw)
        (translator.setIf "temperature" AFloat64 (craw_Temperature raw)
        (translator.setIf "max_tokens" AInt (craw_MaxTokens raw) ∅)) in
      let r := {| translator.compModel := strings.TrimSpace (craw_Model raw);
                  translator.compPrompt := prompt;
                  translator.compStream := craw_Stream raw;
                  translator.compMaxTokens := craw_MaxTokens raw;
                  translator.compTemperature := craw_Temperature raw;
                  translator.compTopP := craw_TopP raw;
                  translator.compOptions := options |} in
      if String.eqb (translator.compModel r) "" then Err (Sentinel errEmptyModel)
      else if String.eqb (strings.TrimSpace (translator.compPrompt r)) "" then
        Err (New "prompt must not be empty")
      else Ok r
  end.

End ingress.

(** ** Vocabulary of the further properties *)

(** A canonical message the Claude adapter cannot shape: a role other than
    system, user and assistant, or a user or assistant message without
    content. *)
Definition unshapeable (msg : models.Message) : bool :=
  let role := shapedRole msg in
  if String.eqb role "system" then false
  else if String.eqb role "user" || String.eqb role "assistant"
       then String.eqb (strings.TrimSpace (models.Content msg)) ""
       else true.

(** The wire message for a user or assistant message. *)
Definition shapedMessage (msg : models.Message) : wire.message :=
  {| wire.Role := shapedRole msg;
     wire.Content := [ {| wire.Type_ := "text";
                          wire.Text := strings.TrimSpace (models.Content msg) |} ] |}.

(** The contents of the system messages that are not blank, in order. *)
Definition systemPartsOf (msgs : list models.Message) : list string :=
  List.map models.Content
    (List.filter (fun msg => String.eqb (shapedRole msg) "system"
                             && nonBlank (models.Content msg)) msgs).

(** The decoding step of a route, with the decoded request forgotten:
    the error, if the body does not decode. *)
Definition decodes (ing : server.Ingress) (rt : server.route) (body : string) (b : Backend)
    : option error * Backend :=
  let failure {T} (r : result T * Backend) : option error * Backend :=
    (match r.1 with Err err => Some err | Ok _ => None end, r.2) in
  match rt with
  | server.ChatCompletions =>
      failure (server.decodeRequestBody (server.scan ing) (server.unmarshalChat ing) body b)
  | server.Completions =>
      failure (server.decodeRequestBody (server.scan ing) (server.unmarshalCompletion ing) body b)
  | server.Messages =>
      failure (server.decodeRequestBody (server.scan ing) (server.unmarshalClaude ing) body b)
  end.

(** The scanner found nothing but white space. *)
Definition isBlank (found : server.scanned) : bool :=
  match found with
  | server.Blank => true
  | _ => false
  end.

(** The OpenAI wire message with the fields of a canonical message. *)
Definition openAIMessageOf (msg : models.Message) : openai.openAIMessage :=
  {| openai.Role := models.Role msg; openai.Content := models.Content msg;
     openai.Name := models.Name msg |}.

(** A message without content. *)
Definition blankContent (msg : models.Message) : bool :=
  String.eqb (strings.TrimSpace (models.Content msg)) "".



(** The descriptor an adapter lists for a configured model. *)
Definition listed (name : string) (m : config.ModelConfig) : models.Model :=
  {| models.ID := config.ID m; models.Provider := name;
     models.APIStyle := config.APIStyle m |}.

(** The style the NVIDIA provider reads off a configured model, and the
    section it hands to an adapter for the models [ms]. *)
Definition normalisedStyle (m : config.ModelConfig) : string :=
  strings.TrimSpace (strings.ToLower (config.APIStyle m)).

Definition sectionFor (cfg : config.ProviderConfig) (ms : list config.ModelConfig)
    : config.ProviderConfig :=
  {| config.APIKey := config.APIKey cfg;
     config.BaseURL := TrimRight (config.BaseURL cfg) "/";
     config.Models := ms;
     config.Headers := config.Headers cfg;
     config.Aliases := config.Aliases cfg |}.

(** The models and aliases of a section resolve in a registry: each
    model under its id to the descriptor the adapter lists for it, with a
    provider of the section's name, and each alias to what its target
    resolves to. *)
Definition sectionRegistered (r : provider.Registry) (name : string)
    (sec : config.ProviderConfig) : Prop :=
  (forall m, In m (config.Models sec) ->
             exists p, provider.LookupModel r (config.ID m) = Ok (listed name m, p) /\
                       provider.Name p = name) /\
  (forall a t, In (a, t) (config.Aliases sec) ->
               exists found, provider.LookupModel r a = Ok found /\
                             provider.LookupModel r t = Ok found).

(** The events of a response that is one JSON document. *)
Definition oneDocument (doc : JSON) : list wevent := [Wrote [Encoded doc; Text newline]].

(** ** Further sample values *)

Module samples.

(** A user message between two system messages. *)
Definition systemsAround : UnifiedChatRequest :=
  {| Model_ := "m2";
     Messages := [ {| models.Role := "system"; models.Content := "A"; models.Name := "" |};
                   {| models.Role := "User"; models.Content := " q "; models.Name := "" |};
                   {| models.Role := "system"; models.Content := "B"; models.Name := "" |} ];
     Stream := false;
     Options := Some 1%positive |}.

(** The registry with the one Claude adapter [examples.c1], which has no
    upstream. *)
Definition claudeOnly : provider.Registry :=
  (provider.RegisterProvider provider.NewRegistry (Some (claude.asProvider examples.offline examples.c1)) []).2.

(** A chat with one user message and [max_tokens] 5 (the bag of
    [examples.w0]). *)
Definition userOnly : UnifiedChatRequest :=
  {| Model_ := "m2";
     Messages := [ {| models.Role := "user"; models.Content := "q"; models.Name := "" |} ];
     Stream := false;
     Options := Some 1%positive |}.

(** The same conversation with a tool message added. *)
Definition withTool : UnifiedChatRequest :=
  {| Model_ := "m2";
     Messages := [ {| models.Role := "user"; models.Content := "q"; models.Name := "" |};
                   {| models.Role := "tool"; models.Content := "r"; models.Name := "" |} ];
     Stream := false;
     Options := Some 1%positive |}.

(** An error document of type rate_limit_error with the message slow down,
    as the JSON text an upstream sends. *)
Definition rateLimitBody : string :=
  "{" ++ strconv.Quote "error" ++ ":{" ++ strconv.Quote "type" ++ ":"
  ++ strconv.Quote "rate_limit_error" ++ "," ++ strconv.Quote "message" ++ ":"
  ++ strconv.Quote "slow down" ++ "}}".

(** [encoding/json] on the two error bodies used below: the document
    above and the empty object, which leaves every field empty. *)
Definition throttledLib : claude.Lib :=
  {| claude.newRequestError := fun _ => None;
     claude.decodeMessageResponse := fun _ _ => Err (External "unexpected end of JSON input");
     claude.unmarshalAPIError := fun body =>
       if String.eqb body rateLimitBody then
         Some {| wire.ErrType := "rate_limit_error"; wire.ErrMessage := "slow down";
                 wire.ErrCode := "" |}
       else if String.eqb body "{}" then
         Some {| wire.ErrType := ""; wire.ErrMessage := ""; wire.ErrCode := "" |}
       else None |}.

(** A Claude adapter whose upstream answers every request with status 429
    and that document. *)
Definition throttled : claude.Provider :=
  {| claude.name := "claude";
     claude.apiKey := "sk-claude";
     claude.baseURL := "https://api.anthropic.com";
     claude.client := fun _ => Ok {| StatusCode := 429; RespBody := rateLimitBody;
                                     BodyFailure := None |};
     claude.models := [ {| models.ID := "m2"; models.Provider := "claude";
                           models.APIStyle := "claude" |} ];
     claude.messages := "https://api.anthropic.com/v1/messages" |}.

(** An upstream whose answer breaks off: status 502, no byte of body, and
    the connection lost. *)
Definition cutOff : claude.Provider :=
  {| claude.name := "claude";
     claude.apiKey := "sk-claude";
     claude.baseURL := "https://api.anthropic.com";
     claude.client := fun _ => Ok {| StatusCode := 502; RespBody := "";
                                     BodyFailure := Some "unexpected EOF" |};
     claude.models := [ {| models.ID := "m2"; models.Provider := "claude";
                           models.APIStyle := "claude" |} ];
     claude.messages := "https://api.anthropic.com/v1/messages" |}.

(** A canonical chat response. *)
Definition answer : UnifiedChatResponse :=
  {| Message_ := {| models.Role := "assistant"; models.Content := "Hello"; models.Name := "" |};
     Usage_ := {| PromptTokens := 3; CompletionTokens := 4; TotalTokens := 7 |};
     FinishReason := "stop";
     ID_ := "resp_1" |}.

(** A connection that takes [k] more writes. *)
Definition worldTaking (k : nat) : World :=
  {| backend := examples.w0;
     response := {| canFlush := true; status := None; header := ∅; events := [];
                    writesLeft := Some k |} |}.

(** A response writer that is no [http.Flusher]. *)
Definition worldWithoutFlusher : World :=
  {| backend := examples.w0;
     response := {| canFlush := false; status := None; header := ∅; events := [];
                    writesLeft := None |} |}.

(** A configuration with an OpenAI and a Claude section. *)
Definition openaiSection : config.ProviderConfig :=
  {| config.APIKey := "sk-openai";
     config.BaseURL := "https://api.openai.com/v1/";
     config.Models := [ {| config.ID := "gpt-4o"; config.APIStyle := "openai" |} ];
     config.Headers := [("X-Org", "acme")];
     config.Aliases := [("fast", "gpt-4o")] |}.

Definition claudeSection : config.ProviderConfig :=
  {| config.APIKey := "sk-claude";
     config.BaseURL := "https://api.anthropic.com";
     config.Models := [ {| config.ID := "claude-3"; config.APIStyle := "claude" |} ];
     config.Headers := [];
     config.Aliases := [] |}.

Definition cfg : config.Config :=
  {| config.Server := {| config.Port := 8080 |};
     config.Providers := {| config.OpenAI := openaiSection; config.Claude := claudeSection;
                            config.NVIDIA := None |} |}.

(** A NVIDIA section with a model of each style. *)
Definition nvidiaSection : config.ProviderConfig :=
  {| config.APIKey := "nvapi";
     config.BaseURL := "https://integrate.api.nvidia.com/v1";
     config.Models := [ {| config.ID := "llama"; config.APIStyle := "openai" |};
                        {| config.ID := "nemo"; config.APIStyle := "claude" |} ];
     config.Headers := [];
     config.Aliases := [] |}.

(** The same with the first style in capitals. *)
Definition capitalSection : config.ProviderConfig :=
  {| config.APIKey := "nvapi";
     config.BaseURL := "https://integrate.api.nvidia.com/v1";
     config.Models := [ {| config.ID := "llama"; config.APIStyle := "OpenAI" |};
                        {| config.ID := "nemo"; config.APIStyle := "claude" |} ];
     config.Headers := [];
     config.Aliases := [] |}.

(** An upstream that cannot be reached, and an OpenAI adapter library
    that encodes no payload. *)
Definition unreachable : HTTPRequest -> result HTTPResponse :=
  fun _ => Err (External "dial tcp: connection refused").

Definition openaiOffline : openai.Lib :=
  {| openai.marshalChat := fun _ _ => Err (External "unsupported value");
     openai.marshalCompletion := fun _ _ => Err (External "unsupported value");
     openai.newRequestError := fun _ => None;
     openai.decodeChatResponse := fun _ _ => Err (External "unexpected end of JSON input");
     openai.decodeCompletionResponse := fun _ _ => Err (External "unexpected end of JSON input");
     openai.unmarshalAPIError := fun _ => None |}.

(** The surroundings of a build in which maps are visited in the order
    they are written. *)
Definition env : providerfactory.Env :=
  {| providerfactory.openaiLib := openaiOffline;
     providerfactory.claudeLib := examples.offline;
     providerfactory.openAIClient := unreachable;
     providerfactory.claudeClient := unreachable;
     providerfactory.nvidiaClient := unreachable;
     providerfactory.visit := fun l => l |}.

End samples.

(** * Properties *)

Import provider.

(** ** Registry *)

Section registry_facts.

Implicit Types (ms : gmap string modelEntry) (p : Provider).

Lemma registerModels_subseteq p l ms err ms' :
  registerModels p l ms = (err, ms') -> ms ⊆ ms'.
Proof.
  revert ms. induction l as [|m l IH]; intros ms H; simpl in H.
  - by inversion H.
  - destruct (ms !! ID m) eqn:Hm.
    + by inversion H.
    + etrans; [|by apply IH]. by apply insert_subseteq.
Qed.

Lemma registerAliases_subseteq l ms err ms' :
  registerAliases l ms = (err, ms') -> ms ⊆ ms'.
Proof.
  revert ms. induction l as [|[a t] l IH]; intros ms H; simpl in H.
  - by inversion H.
  - destruct (ms !! a) eqn:Ha; [by inversion H|].
    destruct (ms !! t) eqn:Ht; [|by inversion H].
    etrans; [|by apply IH]. by apply insert_subseteq.
Qed.

Lemma canonicalKeys_empty : canonicalKeys ∅.
Proof. intros k e H. by rewrite lookup_empty in H. Qed.

Lemma canonicalKeys_insert ms k e :
  canonicalKeys ms -> ms !! k = None ->
  ms !! ID (model e) = Some e \/ ID (model e) = k ->
  canonicalKeys (<[k := e]> ms).
Proof.
  intros Hc Hk He k' e' H.
  destruct (decide (k = k')) as [->|Hne].
  - rewrite lookup_insert_eq in H. inversion H; subst e'.
    destruct He as [He| ->]; [|by rewrite lookup_insert_eq].
    rewrite lookup_insert_ne; [done|]. intros ->. congruence.
  - rewrite lookup_insert_ne in H by done.
    pose proof (Hc _ _ H) as H'.
    rewrite lookup_insert_ne; [done|]. intros ->. congruence.
Qed.

Lemma registerModels_canonical p l ms :
  canonicalKeys ms -> canonicalKeys (registerModels p l ms).2.
Proof.
  revert ms. induction l as [|m l IH]; intros ms Hc; simpl; [done|].
  destruct (ms !! ID m) eqn:Hm; [done|].
  apply IH, canonicalKeys_insert; auto.
Qed.

Lemma registerAliases_canonical l ms :
  canonicalKeys ms -> canonicalKeys (registerAliases l ms).2.
Proof.
  revert ms. induction l as [|[a t] l IH]; intros ms Hc; simpl; [done|].
  destruct (ms !! a) eqn:Ha; [done|].
  destruct (ms !! t) as [e|] eqn:Ht; [|done].
  apply IH, canonicalKeys_insert; eauto.
Qed.

Lemma RegisterProvider_canonical r (op : option Provider) aliases :
  canonicalKeys (models r) -> canonicalKeys (models (RegisterProvider r op aliases).2).
Proof.
  intros Hc. unfold RegisterProvider.
  destruct op as [p|]; [|done].
  destruct (ListModels p) as [e|l]; [done|].
  destruct (byName r !! Name p); [done|].
  pose proof (registerModels_canonical p l _ Hc) as H1.
  destruct (registerModels p l (models r)) as [[e|] ms]; simpl in *; [done|].
  pose proof (registerAliases_canonical aliases _ H1) as H2.
  by destruct (registerAliases aliases ms) as [e ms'].
Qed.

End registry_facts.

Section registry_more.

Implicit Types (ms : gmap string modelEntry) (p : Provider).

Lemma registerModels_subseteq_any p l ms : ms ⊆ (registerModels p l ms).2.
Proof.
  destruct (registerModels p l ms) as [e ms'] eqn:H. by eapply registerModels_subseteq.
Qed.

Lemma registerAliases_subseteq_any l ms : ms ⊆ (registerAliases l ms).2.
Proof.
  destruct (registerAliases l ms) as [e ms'] eqn:H. by eapply registerAliases_subseteq.
Qed.

Lemma RegisterProvider_subseteq r (op : option Provider) aliases :
  models r ⊆ models (RegisterProvider r op aliases).2.
Proof.
  unfold RegisterProvider. destruct op as [p|]; [|done].
  destruct (ListModels p) as [e|l]; [done|].
  destruct (byName r !! Name p); [done|].
  pose proof (registerModels_subseteq_any p l (models r)) as H1.
  destruct (registerModels p l (models r)) as [[e|] ms]; simpl in *; [done|].
  pose proof (registerAliases_subseteq_any aliases ms) as H2.
  destruct (registerAliases aliases ms) as [e ms']. simpl in *. by etrans.
Qed.

Lemma registerModels_ok p l ms ms' m :
  registerModels p l ms = (None, ms') -> In m l ->
  ms' !! ID m = Some {| model := m; provider := p |}.
Proof.
  revert ms. induction l as [|m0 l IH]; intros ms H Hin; [done|].
  simpl in H. destruct (ms !! ID m0) eqn:Hm0; [done|].
  destruct Hin as [->|Hin]; [|by eapply IH].
  eapply lookup_weaken; [|by eapply registerModels_subseteq].
  apply lookup_insert_eq.
Qed.

Lemma registerAliases_ok l ms ms' a t :
  registerAliases l ms = (None, ms') -> In (a, t) l ->
  exists e, ms' !! a = Some e /\ ms' !! t = Some e.
Proof.
  revert ms. induction l as [|[a0 t0] l IH]; intros ms H Hin; [done|].
  simpl in H. destruct (ms !! a0) eqn:Ha0; [done|].
  destruct (ms !! t0) as [e|] eqn:Ht0; [|done].
  destruct Hin as [[= -> ->]|Hin]; [|by eapply IH].
  exists e. pose proof (registerAliases_subseteq _ _ _ _ H) as Hsub.
  split; (eapply lookup_weaken; [|exact Hsub]).
  - apply lookup_insert_eq.
  - rewrite lookup_insert_ne; [done|]. intros ->. congruence.
Qed.

Lemma registerModels_duplicate p l ms m :
  In m l -> is_Some (ms !! ID m) ->
  exists e ms', registerModels p l ms = (Some e, ms') /\ Is e ErrDuplicateModel = true.
Proof.
  revert ms. induction l as [|m0 l IH]; intros ms Hin Hsome; [done|].
  simpl. destruct (ms !! ID m0) eqn:Hm0; [by eauto|].
  destruct Hin as [->|Hin]; [rewrite Hm0 in Hsome; by destruct Hsome|].
  apply IH; [done|]. destruct Hsome as [e He].
  exists e. eapply lookup_weaken; [exact He|]. by apply insert_subseteq.
Qed.

Lemma registerAliases_duplicate l ms a t :
  In (a, t) l -> is_Some (ms !! a) ->
  exists e ms', registerAliases l ms = (Some e, ms').
Proof.
  revert ms. induction l as [|[a0 t0] l IH]; intros ms Hin Hsome; [done|].
  simpl. destruct (ms !! a0) eqn:Ha0; [by eauto|].
  destruct (ms !! t0) as [e0|] eqn:Ht0; [|by eauto].
  destruct Hin as [[= -> ->]|Hin]; [rewrite Ha0 in Hsome; by destruct Hsome|].
  apply IH; [done|]. destruct Hsome as [e He].
  exists e. eapply lookup_weaken; [exact He|]. by apply insert_subseteq.
Qed.

Lemma fresh_registry_lookup p m :
  ListModels p = Ok [m] ->
  LookupModel (RegisterProvider NewRegistry (Some p) []).2 (ID m) = Ok (m, p).
Proof.
  intros H. unfold RegisterProvider. rewrite H. cbn [NewRegistry byName models].
  rewrite lookup_empty. cbn [registerModels]. rewrite lookup_empty.
  cbn [registerAliases snd]. unfold LookupModel. cbn [models].
  by rewrite lookup_insert_eq.
Qed.

Lemma registerModels_failure p l ms err ms' :
  registerModels p l ms = (Some err, ms') ->
  exists done m rest,
    l = (done ++ m :: rest)%list /\
    registerModels p done ms = (None, ms') /\
    is_Some (ms' !! ID m) /\
    Is err ErrDuplicateModel = true.
Proof.
  revert ms. induction l as [|m0 l IH]; intros ms H; [done|].
  simpl in H. destruct (ms !! ID m0) eqn:Hm0.
  - inversion H; subst. exists [], m0, l. by rewrite Hm0.
  - destruct (IH _ H) as (done & m & rest & -> & Hd & Hs & He).
    exists (m0 :: done), m, rest. simpl. by rewrite Hm0.
Qed.

Lemma registerAliases_failure l ms err ms' :
  registerAliases l ms = (Some err, ms') ->
  exists done a t rest,
    l = (done ++ (a, t) :: rest)%list /\
    registerAliases done ms = (None, ms') /\
    (is_Some (ms' !! a) \/ ms' !! t = None).
Proof.
  revert ms. induction l as [|[a0 t0] l IH]; intros ms H; [done|].
  simpl in H. destruct (ms !! a0) eqn:Ha0.
  - inversion H; subst. exists [], a0, t0, l. split_and!; [done|done|]. left. by rewrite Ha0.
  - destruct (ms !! t0) as [e|] eqn:Ht0.
    + destruct (IH _ H) as (done & a & t & rest & -> & Hd & Hs).
      exists ((a0, t0) :: done), a, t, rest. simpl. by rewrite Ha0, Ht0.
    + inversion H; subst. exists [], a0, t0, l. split_and!; [done|done|]. by right.
Qed.

End registry_more.

Lemma reachable_canonical r : reachable r -> canonicalKeys (models r).
Proof.
  induction 1; [apply canonicalKeys_empty|by apply RegisterProvider_canonical].
Qed.

(** C1 (as amended).  A registration that fails on a nil provider, a failed
    model listing or a provider name that is already registered leaves the
    registry as it was.  A registration that fails later has no rollback:
    the provider is in the provider-name map, and the model map is exactly
    the map that registering what came before the failing item gives.
    Either the failing item is a listed model whose id is taken (the error
    is then [ErrDuplicateModel]) and every model listed before it is
    registered; or it is an alias whose key is taken or whose target is
    unknown, and every listed model and every alias visited before it is
    registered.  No existing entry is removed or changed. *)
Theorem RegisterProvider_failure r p aliases err r' :
  RegisterProvider r p aliases = (Some err, r') ->
  models r ⊆ models r' /\ byName r ⊆ byName r' /\
  match p with
  | None => r' = r
  | Some p0 =>
      match ListModels p0, byName r !! Name p0 with
      | Err _, _ | _, Some _ => r' = r
      | Ok l, None =>
          byName r' = <[Name p0 := p0]> (byName r) /\
          ((exists done m rest,
               l = (done ++ m :: rest)%list /\
               registerModels p0 done (models r) = (None, models r') /\
               is_Some (models r' !! ID m) /\
               Is err ErrDuplicateModel = true /\
               forall m', In m' done ->
                          models r' !! ID m' = Some {| model := m'; provider := p0 |}) \/
           (exists ms done a t rest,
               registerModels p0 l (models r) = (None, ms) /\
               aliases = (done ++ (a, t) :: rest)%list /\
               registerAliases done ms = (None, models r') /\
               (is_Some (models r' !! a) \/ models r' !! t = None) /\
               (forall m', In m' l ->
                           models r' !! ID m' = Some {| model := m'; provider := p0 |}) /\
               (forall a' t', In (a', t') done ->
                              exists e, models r' !! a' = Some e /\ models r' !! t' = Some e)))
      end
  end.
Proof.
  unfold RegisterProvider. intros H.
  destruct p as [p|]; [|by inversion H].
  destruct (ListModels p) as [e|l]; [by inversion H|].
  destruct (byName r !! Name p) eqn:Hn; [by inversion H|].
  destruct (registerModels p l (models r)) as [[e|] ms] eqn:Hm.
  - inversion H; subst; simpl. split_and!; [|by apply insert_subseteq|done|].
    { by eapply registerModels_subseteq. }
    left. destruct (registerModels_failure _ _ _ _ _ Hm) as (done & m & rest & Hl & Hd & Hs & He).
    exists done, m, rest. split_and!; try done.
    intros m' Hin. by eapply registerModels_ok.
  - destruct (registerAliases aliases ms) as [e ms'] eqn:Ha.
    inversion H; subst; simpl. split_and!; [|by apply insert_subseteq|done|].
    { etrans; [by eapply registerModels_subseteq|by eapply registerAliases_subseteq]. }
    right.
    destruct (registerAliases_failure _ _ _ _ Ha) as (done & a & t & rest & Hl & Hd & Hs).
    exists ms, done, a, t, rest. split_and!; try done.
    + intros m' Hin. eapply lookup_weaken; [by eapply registerModels_ok|].
      by eapply registerAliases_subseteq.
    + intros a' t' Hin. by eapply registerAliases_ok.
Qed.

(** C1, witness: on the registry of [examples.aliased], a provider [q]
    that lists a new model [m9] and then the taken id [m1] is refused with
    [ErrDuplicateModel], and [m9] stays registered. *)
Lemma RegisterProvider_failure_witness :
  let m9 := {| models.ID := "m9"; models.Provider := "q"; models.APIStyle := "openai" |} in
  let q := examples.echoProvider "q" [m9; examples.m1] in
  exists err r',
    RegisterProvider examples.aliased (Some q) [] = (Some err, r') /\
    Is err ErrDuplicateModel = true /\
    models r' !! "m9" = Some {| model := m9; provider := q |}.
Proof.
  intros m9 q.
  destruct (RegisterProvider examples.aliased (Some q) []) as [[err|] r'] eqn:H;
    [|by vm_compute in H].
  exists err, r'. split; [done|].
  pose proof (RegisterProvider_failure _ _ _ _ _ H) as (_ & _ & Hc).
  assert (byName examples.aliased !! Name q = None) as Hn by (vm_compute; reflexivity).
  cbn [ListModels q examples.echoProvider] in Hc. rewrite Hn in Hc.
  destruct Hc as [_ [(done & m & rest & Hl & Hreg & Hsome & His & Hin)
                    |(ms & done & a & t & rest & _ & Ha & _)]].
  - split; [done|]. destruct done as [|d done].
    + simpl in Hreg, Hl. injection Hreg as Hr. injection Hl as <- _.
      rewrite <- Hr in Hsome. vm_compute in Hsome. destruct Hsome as [x Hx]. discriminate.
    + injection Hl as <- _. apply (Hin m9). by left.
  - by destruct done.
Defined.

(** C1, counterexample: on the empty registry, a provider with the model
    [m1] and an alias whose target is not registered is refused, yet the
    call leaves [m1] in the model map and the provider in the name map. *)
Lemma RegisterProvider_not_atomic :
  exists err r',
    RegisterProvider NewRegistry (Some examples.p1) [("a", "missing")] = (Some err, r') /\
    models r' <> models NewRegistry /\ byName r' <> byName NewRegistry.
Proof.
  unfold RegisterProvider. simpl.
  rewrite lookup_empty. simpl. rewrite lookup_empty. simpl.
  rewrite lookup_insert_ne by done. rewrite lookup_empty.
  rewrite lookup_insert_ne by done. rewrite lookup_empty.
  eexists _, _. split; [done|]. simpl. split; intros H.
  - apply (f_equal (fun m => m !! "m1")) in H.
    by rewrite lookup_insert_eq, lookup_empty in H.
  - apply (f_equal (fun m => m !! "p")) in H.
    by rewrite lookup_insert_eq, lookup_empty in H.
Qed.

(** ** Dispatcher *)

Lemma range_copy (src : bag) :
  map_fold (fun k v out => <[k := v]> out) ∅ src = src.
Proof.
  apply (map_fold_weak_ind (fun r m => r = m)); [done|].
  intros i x m r _ ->. done.
Qed.

Lemma writeMap_frame (m : mapref) k v (h : heap) l :
  m <> Some l -> writeMap m k v h !! l = h !! l.
Proof.
  intros Hne. destruct m as [l'|]; simpl; [|done].
  destruct (h !! l') eqn:Hl'; [|done].
  rewrite lookup_insert_ne; [done|]. congruence.
Qed.

Lemma applyWrites_frame (m : mapref) ws (h : heap) l :
  m <> Some l -> applyWrites m ws h !! l = h !! l.
Proof.
  intros Hne. unfold applyWrites. revert h.
  induction ws as [|[k v] ws IH]; intros h; simpl; [done|].
  rewrite IH. by apply writeMap_frame.
Qed.

(** What [cloneOptions] does to the world: nothing but one allocation, of
    a map with the contents of the original, at an address no map of the
    caller has. *)
Lemma cloneOptions_spec (o : mapref) (w : Backend) :
  exists o' w1,
    router.cloneOptions o w = (o', w1) /\
    calls w1 = calls w /\
    deref (store w1) o' = deref (store w) o /\
    forall l, is_Some (store w !! l) -> o' <> Some l /\ store w1 !! l = store w !! l.
Proof.
  unfold router.cloneOptions, bind, getStore, ret, allocMap, liftH.
  destruct (decide (size (deref (store w) o) = 0%nat)) as [Hz|Hnz].
  - eexists _, _. split; [done|]. split_and!; try done.
    simpl. symmetry. by apply map_size_empty_iff.
  - eexists _, _. split; [done|]. simpl. split_and!; try done.
    + rewrite lookup_insert_eq. simpl. apply range_copy.
    + intros l Hl.
      assert (fresh (dom (store w)) <> l) as Hne.
      { intros <-. apply (is_fresh (dom (store w))). by apply elem_of_dom. }
      split; [congruence|]. by rewrite lookup_insert_ne.
Qed.

Lemma deref_frame (h h' : heap) (o : mapref) :
  validRef h o -> (forall l, is_Some (h !! l) -> h' !! l = h !! l) ->
  deref h' o = deref h o.
Proof.
  intros Hv Hf. destruct o as [l|]; simpl in *; [|done]. by rewrite Hf.
Qed.

(** C2.  When the model id of a chat or completion request resolves, the
    dispatcher calls the adapter with the request whose model is the
    descriptor's id -- an id the registry files under itself, never an
    alias key -- and whose options are a new map with the contents of the
    caller's; whatever the adapter then writes through its reference, the
    caller's map reads as before. *)
Theorem dispatcher_sanitises (r : router.Router) (w : Backend) :
  reachable (router.registry r) ->
  (forall req modelInfo providerImpl,
      validRef (store w) (Options req) ->
      LookupModel (router.registry r) (Model_ req) = Ok (modelInfo, providerImpl) ->
      exists options w1,
        let sanitised :=
          {| Model_ := ID modelInfo; Messages := Messages req;
             Stream := Stream req; Options := options |} in
        (forall res w2,
            provider.Chat providerImpl sanitised w1 = (res, w2) ->
            router.Chat r req w =
              (match res with
               | Err err =>
                   Err (Wrap ("provider " ++ Name providerImpl ++ " chat request: " ++ Error err) err)
               | Ok resp => Ok (resp, modelInfo)
               end, w2)) /\
        models (router.registry r) !! ID modelInfo =
          Some {| model := modelInfo; provider := providerImpl |} /\
        calls w1 = calls w /\
        deref (store w1) options = deref (store w) (Options req) /\
        forall ws,
          deref (applyWrites options ws (store w1)) (Options req)
          = deref (store w) (Options req)) /\
  (forall req modelInfo providerImpl,
      validRef (store w) (cOptions req) ->
      LookupModel (router.registry r) (cModel req) = Ok (modelInfo, providerImpl) ->
      exists options w1,
        let sanitised :=
          {| cModel := ID modelInfo; cPrompt := cPrompt req; cStream := cStream req;
             cMaxTokens := cMaxTokens req; cTemperature := cTemperature req;
             cOptions := options |} in
        (forall res w2,
            provider.Completion providerImpl sanitised w1 = (res, w2) ->
            router.Completion r req w =
              (match res with
               | Err err =>
                   Err (Wrap ("provider " ++ Name providerImpl ++ " completion request: "
                              ++ Error err) err)
               | Ok resp => Ok (resp, modelInfo)
               end, w2)) /\
        models (router.registry r) !! ID modelInfo =
          Some {| model := modelInfo; provider := providerImpl |} /\
        calls w1 = calls w /\
        deref (store w1) options = deref (store w) (cOptions req) /\
        forall ws,
          deref (applyWrites options ws (store w1)) (cOptions req)
          = deref (store w) (cOptions req)).
Proof.
  intros Hreach. apply reachable_canonical in Hreach.
  assert (Hkey : forall id modelInfo providerImpl,
             LookupModel (router.registry r) id = Ok (modelInfo, providerImpl) ->
             models (router.registry r) !! ID modelInfo =
               Some {| model := modelInfo; provider := providerImpl |}).
  { intros id mi pi. unfold LookupModel.
    destruct (models (router.registry r) !! id) as [e|] eqn:He; [|done].
    intros [= <- <-]. rewrite (Hreach _ _ He). by destruct e. }
  assert (Hframe : forall (o options : mapref) w1 ws,
             validRef (store w) o ->
             (forall l, is_Some (store w !! l) ->
                        options <> Some l /\ store w1 !! l = store w !! l) ->
             deref (applyWrites options ws (store w1)) o = deref (store w) o).
  { intros o options w1 ws Hv Hf. apply deref_frame; [done|].
    intros l Hl. destruct (Hf l Hl) as [Hne Heq].
    by rewrite applyWrites_frame. }
  split; intros req mi pi Hv Hl.
  - destruct (cloneOptions_spec (Options req) w) as (o' & w1 & Hc & Hcalls & Hd & Hf).
    exists o', w1. simpl. split_and!; eauto.
    intros res w2 Hres. unfold router.Chat. rewrite Hl. unfold bind at 1.
    rewrite Hc. unfold bind. rewrite Hres. by destruct res.
  - destruct (cloneOptions_spec (cOptions req) w) as (o' & w1 & Hc & Hcalls & Hd & Hf).
    exists o', w1. simpl. split_and!; eauto.
    intros res w2 Hres. unfold router.Completion. rewrite Hl. unfold bind at 1.
    rewrite Hc. unfold bind. rewrite Hres. by destruct res.
Qed.

Lemma aliased_reachable : reachable examples.aliased.
Proof. apply reachable_register, reachable_new. Qed.

Lemma aliased_lookup :
  LookupModel examples.aliased "alias-x" = Ok (examples.m1, examples.p1).
Proof. vm_compute. reflexivity. Qed.

(** The echo adapter behind the alias [alias-x] is handed [m1], and the
    caller's options bag is still at its address. *)
Example dispatch_alias :
  exists resp w',
    router.Chat (router.New examples.aliased) examples.chatReq examples.w0
      = (Ok (Some resp, examples.m1), w') /\
    models.Content (Message_ resp) = "m1" /\
    store w' !! 1%positive = Some {[ "max_tokens" := AInt 5 ]} /\
    store w' !! 2%positive = Some {[ "max_tokens" := AInt 5 ]}.
Proof. eexists _, _. split; [vm_compute; reflexivity|]. vm_compute. auto. Qed.

(** C2, witness: the request of [examples.chatReq], which names the alias
    [alias-x], in a world that holds its options bag. *)
Lemma dispatcher_sanitises_witness :
  exists options w1,
    (forall res w2,
        provider.Chat examples.p1
          {| Model_ := "m1"; Messages := Messages examples.chatReq;
             Stream := false; Options := options |} w1 = (res, w2) ->
        router.Chat (router.New examples.aliased) examples.chatReq examples.w0 =
          (match res with
           | Err err => Err (Wrap ("provider p chat request: " ++ Error err) err)
           | Ok resp => Ok (resp, examples.m1)
           end, w2)) /\
    forall ws,
      deref (applyWrites options ws (store w1)) (Some 1%positive)
      = {[ "max_tokens" := AInt 5 ]}.
Proof.
  destruct (dispatcher_sanitises (router.New examples.aliased) examples.w0
              aliased_reachable) as [H _].
  destruct (H examples.chatReq examples.m1 examples.p1) as (o & w1 & H1 & _ & _ & _ & H2).
  - simpl. rewrite lookup_singleton_eq. eauto.
  - apply aliased_lookup.
  - exists o, w1. split; [exact H1|].
    intros ws. etrans; [exact (H2 ws)|]. simpl. by rewrite lookup_singleton_eq.
Defined.

(** ** Claude adapter *)

Section claude_facts.

Import wire.

(** The shaped messages are the non-system messages, in order and with
    the role the adapter read. *)
Lemma shapeMessages_roles msgs acc sys messages sys' :
  claude.shapeMessages msgs acc sys = Ok (messages, sys') ->
  List.map Role messages = (List.map Role acc ++ List.map shapedRole (nonSystem msgs))%list.
Proof.
  revert acc sys. induction msgs as [|msg msgs IH]; intros acc sys H; simpl in H.
  - inversion H; subst. simpl. by rewrite app_nil_r.
  - unfold nonSystem. simpl. fold (nonSystem msgs). fold (shapedRole msg) in *.
    destruct (String.eqb (shapedRole msg) "system") eqn:Hsys; simpl.
    + destruct (negb _); by apply IH in H.
    + destruct (String.eqb (shapedRole msg) "user" || String.eqb (shapedRole msg) "assistant");
        [|done].
      destruct (String.eqb (strings.TrimSpace (models.Content msg)) ""); [done|].
      apply IH in H. rewrite H, List.map_app. simpl. by rewrite <- app_assoc.
Qed.

Lemma shapeMessages_error msgs acc sys err :
  claude.shapeMessages msgs acc sys = Err err -> exists msg, err = New msg.
Proof.
  revert acc sys. induction msgs as [|msg msgs IH]; intros acc sys H; simpl in H; [done|].
  repeat (match type of H with
          | context [if ?c then _ else _] => destruct c
          end; eauto); inversion H; eauto.
Qed.

Lemma buildMessagePayload_error h req err :
  claude.buildMessagePayload h req = Err err -> exists msg, err = New msg.
Proof.
  unfold claude.buildMessagePayload. intros H.
  destruct (claude.shapeMessages _ _ _) as [e|[messages sys]] eqn:Hs.
  - inversion H; subst. by eapply shapeMessages_error.
  - destruct messages as [|first rest]; [inversion H; eauto|].
    destruct (negb _); [inversion H; eauto|].
    destruct (claude.extractInt _ _); [|inversion H; eauto].
    destruct (_ <=? 0); inversion H; eauto.
Qed.

Lemma buildMessagePayload_startsWithoutUser h req :
  startsWithoutUser req -> exists msg, claude.buildMessagePayload h req = Err (New msg).
Proof.
  unfold startsWithoutUser. intros Hs. unfold claude.buildMessagePayload.
  destruct (claude.shapeMessages _ _ _) as [e|[messages sys]] eqn:Hm.
  - apply shapeMessages_error in Hm as [msg ->]. eauto.
  - apply shapeMessages_roles in Hm. simpl in Hm.
    destruct messages as [|first rest]; [eauto|].
    destruct (nonSystem (models.Messages req)) as [|msg0 others]; [done|].
    simpl in Hm. injection Hm as Hrole _.
    destruct (String.eqb (Role first) "user") eqn:Hu; simpl; [|eauto].
    apply String.eqb_eq in Hu. congruence.
Qed.

(** Without a message it cannot shape, the loop keeps the messages that
    are not system messages and collects the system contents. *)
Lemma shapeMessages_complete msgs acc sys :
  existsb unshapeable msgs = false ->
  claude.shapeMessages msgs acc sys
  = Ok ((acc ++ List.map shapedMessage (nonSystem msgs))%list,
        (sys ++ systemPartsOf msgs)%list).
Proof.
  revert acc sys. induction msgs as [|m msgs IH]; intros acc sys H.
  - simpl. by rewrite !app_nil_r.
  - cbn [existsb] in H. apply orb_false_iff in H as [Hm H].
    cbn [claude.shapeMessages]. fold (shapedRole m).
    unfold nonSystem, systemPartsOf, unshapeable in *. cbn [List.filter].
    fold (nonSystem msgs). unfold nonBlank.
    destruct (String.eqb (shapedRole m) "system") eqn:Hs; cbn [negb andb].
    + destruct (negb (String.eqb (strings.TrimSpace (models.Content m)) "")) eqn:Hb.
      * rewrite IH by done. cbn [List.map]. by rewrite <- app_assoc.
      * by rewrite IH.
    + destruct (String.eqb (shapedRole m) "user" || String.eqb (shapedRole m) "assistant");
        [|done].
      rewrite Hm. rewrite IH by done. cbn [List.map]. by rewrite <- app_assoc.
Qed.

Lemma buildMessagePayload_without_user h req :
  startsWithoutUser req ->
  existsb unshapeable (models.Messages req) = false ->
  claude.buildMessagePayload h req
  = Err (New match nonSystem (models.Messages req) with
             | [] => "claude request requires at least one user message"
             | _ => "claude conversation must start with a user message"
             end).
Proof.
  unfold startsWithoutUser. intros Hs Hu. unfold claude.buildMessagePayload.
  rewrite shapeMessages_complete by done. cbn [app].
  destruct (nonSystem (models.Messages req)) as [|msg0 others]; [done|].
  cbn [List.map shapedMessage Role]. apply String.eqb_neq in Hs. by rewrite Hs.
Qed.

(** A plain error reaches the client as an upstream error, also when the
    dispatcher has wrapped it. *)
Lemma toHTTPError_plain msg :
  server.toHTTPError (New msg) =
    {| errors.Status := 502; errors.Message := "upstream provider error";
       errors.Type_ := "upstream_error"; errors.Code := "" |}.
Proof. reflexivity. Qed.

Lemma toHTTPError_wrapped_plain prefix msg :
  server.toHTTPError (Wrap prefix (New msg)) =
    {| errors.Status := 502; errors.Message := "upstream provider error";
       errors.Type_ := "upstream_error"; errors.Code := "" |}.
Proof. reflexivity. Qed.

End claude_facts.

(** C3 (as amended).  When no message but system messages remains, or the
    first message that is not a system message is not a user message, the
    Claude adapter fails and performs no upstream call.  When the stream
    flag is set, the error is the refusal of the stream, which wraps
    [ErrUnsupportedOperation].  Otherwise it is a plain error value (when
    every message can be shaped, the one that asks for a user message, or
    for the conversation to start with one), which the HTTP surface
    reports as an upstream error (status 502, type upstream_error, message
    "upstream provider error") and not as an invalid request, with or
    without the dispatcher's wrapping. *)
Theorem claude_rejects_without_user lib p req w :
  startsWithoutUser req ->
  exists err,
    claude.Chat lib p req w = (Err err, w) /\
    (Stream req = true ->
     err = Wrap ("streaming is not yet supported for provider " ++ claude.name p ++ ": "
                 ++ Error (Sentinel ErrUnsupportedOperation))
                (Sentinel ErrUnsupportedOperation) /\
     Is err ErrUnsupportedOperation = true) /\
    (Stream req = false ->
     (exists msg, err = New msg) /\
     (existsb unshapeable (Messages req) = false ->
      err = New match nonSystem (Messages req) with
                | [] => "claude request requires at least one user message"
                | _ => "claude conversation must start with a user message"
                end) /\
     server.isInvalidRequest err = false /\
     errors.Status (server.toHTTPError err) = 502 /\
     errors.Type_ (server.toHTTPError err) = "upstream_error" /\
     errors.Message (server.toHTTPError err) = "upstream provider error" /\
     forall prefix,
       errors.Status (server.toHTTPError (Wrap prefix err)) = 502 /\
       errors.Type_ (server.toHTTPError (Wrap prefix err)) = "upstream_error" /\
       errors.Message (server.toHTTPError (Wrap prefix err)) = "upstream provider error").
Proof.
  intros Hs. unfold claude.Chat.
  destruct (Stream req) eqn:Hst.
  - eexists. split; [reflexivity|]. split; [done|]. by intros [=].
  - destruct (buildMessagePayload_startsWithoutUser (store w) req Hs) as [msg Hb].
    exists (New msg). unfold bind, getStore. rewrite Hb. split; [done|].
    split; [by intros [=]|].
    intros _. split_and!; try done; [by eauto|].
    intros Hu. rewrite (buildMessagePayload_without_user (store w) req Hs Hu) in Hb.
    by injection Hb as <-.
Qed.

(** C3, witness: the conversation of scenario S5, which opens with the
    assistant and has no message the adapter cannot shape. *)
Lemma claude_rejects_without_user_witness :
  claude.Chat examples.offline examples.c1 examples.assistantFirst examples.w0
  = (Err (New "claude conversation must start with a user message"), examples.w0) /\
  errors.Status
    (server.toHTTPError (New "claude conversation must start with a user message")) = 502.
Proof.
  destruct (claude_rejects_without_user examples.offline examples.c1
              examples.assistantFirst examples.w0) as (err & H1 & _ & H2).
  - unfold startsWithoutUser. vm_compute. discriminate.
  - destruct (H2 eq_refl) as (_ & Hmsg & _ & Hst & _).
    rewrite (Hmsg eq_refl) in H1, Hst. split; [exact H1|exact Hst].
Defined.

(** C3, counterexample: for the conversation of scenario S5 the adapter's
    error is "claude conversation must start with a user message", a plain
    error; the HTTP surface answers it with 502, not with the 400 of an
    invalid request. *)
Lemma claude_validation_is_upstream_error :
  claude.Chat examples.offline examples.c1 examples.assistantFirst examples.w0
    = (Err (New "claude conversation must start with a user message"), examples.w0) /\
  server.isInvalidRequest (New "claude conversation must start with a user message") = false /\
  server.toHTTPError
    (Wrap "provider claude chat request: claude conversation must start with a user message"
          (New "claude conversation must start with a user message"))
  = {| errors.Status := 502; errors.Message := "upstream provider error";
       errors.Type_ := "upstream_error"; errors.Code := "" |}.
Proof. split_and!; vm_compute; reflexivity. Qed.

(** *** Response translation *)

Lemma append_assoc (a b c : string) : (a ++ b) ++ c = a ++ (b ++ c).
Proof.
  induction a as [|x a IH]; [done|].
  change (String x ((a ++ b) ++ c) = String x (a ++ (b ++ c))). by f_equal.
Qed.

Lemma append_nil_r (a : string) : a ++ "" = a.
Proof.
  induction a as [|x a IH]; [done|].
  change (String x (a ++ "") = String x a). by f_equal.
Qed.

Lemma concat_cons (x : string) (xs : list string) :
  String.concat "" (x :: xs) = x ++ String.concat "" xs.
Proof. destruct xs; simpl; [by rewrite append_nil_r|done]. Qed.

Lemma writeBlocks_text blocks text :
  Forall (fun b => wire.Type_ b = "text") blocks ->
  claude.writeBlocks blocks text
  = Ok (text ++ String.concat "" (List.map wire.Text blocks)).
Proof.
  intros H. revert text. induction H as [|b blocks Hb _ IH]; intros text.
  - simpl. by rewrite append_nil_r.
  - cbn [claude.writeBlocks List.map]. rewrite Hb, String.eqb_refl. cbn [negb].
    rewrite IH, concat_cons. by rewrite append_assoc.
Qed.

Lemma writeBlocks_other blocks text :
  Exists (fun b => wire.Type_ b <> "text") blocks ->
  exists msg, claude.writeBlocks blocks text = Err (New msg).
Proof.
  intros H. revert text. induction H as [b blocks Hb|b blocks _ IH]; intros text; simpl.
  - apply String.eqb_neq in Hb. rewrite Hb. simpl. eauto.
  - destruct (negb _); eauto.
Qed.

Lemma wrap_int_small z : min_int <= z <= max_int -> wrap_int z = z.
Proof.
  unfold wrap_int, min_int, max_int. intros H.
  rewrite Z.mod_small by lia. lia.
Qed.

(** C5 (as amended).  A Claude response with at least one content block,
    all of them text blocks, translates to a canonical response whose
    content is the texts of the blocks, concatenated in order; the role is
    the upstream role, or assistant when that is empty; prompt and
    completion tokens are the input and output tokens and the total is
    their sum in [int] arithmetic, the exact sum whenever that fits an
    [int].  A block of another type makes the translation fail with a
    plain error, and so does a response without any content block,
    although none of its blocks is of another type; the HTTP surface
    reports either as an upstream (provider) error. *)
Theorem toUnified_translates (r : wire.messageResponse) :
  (wire.RespContent r <> [] ->
   Forall (fun b => wire.Type_ b = "text") (wire.RespContent r) ->
   exists resp,
     claude.toUnified r = Ok resp /\
     models.Content (Message_ resp)
       = String.concat "" (List.map wire.Text (wire.RespContent r)) /\
     models.Role (Message_ resp)
       = (if decide (wire.RespRole r = "") then "assistant" else wire.RespRole r) /\
     PromptTokens (Usage_ resp) = wire.InputTokens (wire.Usage r) /\
     CompletionTokens (Usage_ resp) = wire.OutputTokens (wire.Usage r) /\
     TotalTokens (Usage_ resp)
       = int_add (wire.InputTokens (wire.Usage r)) (wire.OutputTokens (wire.Usage r)) /\
     (min_int <= wire.InputTokens (wire.Usage r) + wire.OutputTokens (wire.Usage r) <= max_int ->
      TotalTokens (Usage_ resp)
        = wire.InputTokens (wire.Usage r) + wire.OutputTokens (wire.Usage r))) /\
  (Exists (fun b => wire.Type_ b <> "text") (wire.RespContent r) ->
   exists msg,
     claude.toUnified r = Err (New msg) /\
     errors.Status (server.toHTTPError (New msg)) = 502 /\
     errors.Type_ (server.toHTTPError (New msg)) = "upstream_error") /\
  (wire.RespContent r = [] ->
   claude.toUnified r = Err (New "claude response missing content blocks") /\
   errors.Status (server.toHTTPError (New "claude response missing content blocks")) = 502 /\
   errors.Type_ (server.toHTTPError (New "claude response missing content blocks"))
   = "upstream_error").
Proof.
  split_and!.
  - intros Hne Hall. unfold claude.toUnified.
    rewrite (writeBlocks_text _ "" Hall). simpl.
    destruct (wire.RespContent r) as [|b bs] eqn:Hc; [done|].
    eexists. split; [reflexivity|]. simpl. split_and!; try done.
    + destruct (decide (wire.RespRole r = "")) as [->|Hr]; [done|].
      apply String.eqb_neq in Hr. by rewrite Hr.
    + intros Hfit. by apply wrap_int_small.
  - intros Hex. unfold claude.toUnified.
    destruct (writeBlocks_other _ "" Hex) as [msg Hw]. rewrite Hw.
    destruct (wire.RespContent r) as [|b bs] eqn:Hc; [by inversion Hex|].
    exists msg. done.
  - intros Hc. unfold claude.toUnified. by rewrite Hc.
Qed.

(** C5, counterexample: an upstream response without content blocks.  All
    of its blocks are text blocks and none is of another type, yet the
    translation fails, with a plain error that is answered as an upstream
    error. *)
Lemma toUnified_rejects_empty_content :
  let r := {| wire.ID := "msg_0"; wire.RespRole := "assistant"; wire.RespContent := [];
              wire.Usage := {| wire.InputTokens := 1; wire.OutputTokens := 0 |};
              wire.StopReason := "end_turn"; wire.RespError := None |} in
  Forall (fun b => wire.Type_ b = "text") (wire.RespContent r) /\
  ~ Exists (fun b => wire.Type_ b <> "text") (wire.RespContent r) /\
  claude.toUnified r = Err (New "claude response missing content blocks") /\
  errors.Status (server.toHTTPError (New "claude response missing content blocks")) = 502.
Proof.
  intros r. split_and!; [by apply List.Forall_nil|by inversion 1|reflexivity|reflexivity].
Qed.

(** C5, witness: two text blocks, no role, 12 input and 30 output tokens. *)
Lemma toUnified_translates_witness :
  exists resp,
    claude.toUnified examples.twoBlocks = Ok resp /\
    models.Content (Message_ resp) = "Hello, world" /\
    models.Role (Message_ resp) = "assistant" /\
    TotalTokens (Usage_ resp) = 42.
Proof.
  destruct (toUnified_translates examples.twoBlocks) as [H _].
  destruct H as (resp & H1 & H2 & H3 & _ & _ & _ & H4).
  - discriminate.
  - repeat constructor.
  - exists resp. split; [exact H1|]. split; [exact H2|]. split; [exact H3|].
    rewrite H4; [reflexivity|]. vm_compute. split; discriminate.
Defined.

(** ** Translators *)

(** C10.  In the document written for an OpenAI chat or completion
    response the member [usage] is absent exactly when prompt, completion
    and total tokens are all zero; otherwise it is there and carries the
    three counts as they are. *)
Theorem usage_omitted_iff_zero (modelID : string) (createdUnix : Z) :
  (forall resp : UnifiedChatResponse,
      let doc := translator.ChatCompletionResponse_json
                   (translator.FromUnifiedChat modelID createdUnix resp) in
      let u := Usage_ resp in
      (json.get "usage" doc = None <->
       PromptTokens u = 0 /\ CompletionTokens u = 0 /\ TotalTokens u = 0) /\
      (~ (PromptTokens u = 0 /\ CompletionTokens u = 0 /\ TotalTokens u = 0) ->
       json.get "usage" doc
       = Some (JObject [("prompt_tokens", JInt (PromptTokens u));
                        ("completion_tokens", JInt (CompletionTokens u));
                        ("total_tokens", JInt (TotalTokens u))]))) /\
  (forall resp : UnifiedCompletionResponse,
      let doc := translator.CompletionResponse_json
                   (translator.FromUnifiedCompletion modelID createdUnix resp) in
      let u := cUsage resp in
      (json.get "usage" doc = None <->
       PromptTokens u = 0 /\ CompletionTokens u = 0 /\ TotalTokens u = 0) /\
      (~ (PromptTokens u = 0 /\ CompletionTokens u = 0 /\ TotalTokens u = 0) ->
       json.get "usage" doc
       = Some (JObject [("prompt_tokens", JInt (PromptTokens u));
                        ("completion_tokens", JInt (CompletionTokens u));
                        ("total_tokens", JInt (TotalTokens u))]))).
Proof.
  assert (Hu : forall u : models.Usage,
             (translator.usageOf u = None /\
              PromptTokens u = 0 /\ CompletionTokens u = 0 /\ TotalTokens u = 0) \/
             (translator.usageOf u
              = Some {| translator.uPromptTokens := PromptTokens u;
                        translator.uCompletionTokens := CompletionTokens u;
                        translator.uTotalTokens := TotalTokens u |} /\
              ~ (PromptTokens u = 0 /\ CompletionTokens u = 0 /\ TotalTokens u = 0))).
  { intros u. unfold translator.usageOf.
    destruct (Z.eqb_spec (TotalTokens u) 0), (Z.eqb_spec (PromptTokens u) 0),
      (Z.eqb_spec (CompletionTokens u) 0); simpl; try (right; split; [done|lia]).
    by left. }
  split; intros resp doc u; subst doc u.
  - unfold translator.ChatCompletionResponse_json, translator.FromUnifiedChat; simpl.
    destruct (Hu (Usage_ resp)) as [[-> H0]|[-> Hn]]; simpl.
    + split; [done|]. intros Hn. by destruct Hn.
    + split; [split; [discriminate|done]|done].
  - unfold translator.CompletionResponse_json, translator.FromUnifiedCompletion; simpl.
    destruct (Hu (cUsage resp)) as [[-> H0]|[-> Hn]]; simpl.
    + split; [done|]. intros Hn. by destruct Hn.
    + split; [split; [discriminate|done]|done].
Qed.

(** C7, the code at a failing input.  The stop string [" a"] (a space, then
    the letter a) is kept as it is when it comes as a single string and is
    trimmed when it comes as the only item of an array: the two parses
    succeed with different canonical stop values. *)
Theorem stop_single_differs_from_array :
  translator.parseStop (Some (JString " a")) = Ok [" a"] /\
  translator.parseStop (Some (JArray [JString " a"])) = Ok ["a"] /\
  examples.stopOf (translator.ChatCompletionRequest_UnmarshalJSON
                     (examples.chatWithStop (JString " a")))
    = Some (AStrings [" a"]) /\
  examples.stopOf (translator.ChatCompletionRequest_UnmarshalJSON
                     (examples.chatWithStop (JArray [JString " a"])))
    = Some (AStrings ["a"]).
Proof. split_and!; vm_compute; reflexivity. Qed.

(** The two parses do agree on every string that has no white space at
    either end. *)
Lemma stop_single_equals_array_trimmed (s : string) :
  strings.TrimSpace s = s ->
  translator.parseStop (Some (JString s)) = translator.parseStop (Some (JArray [JString s])).
Proof.
  intros Ht. unfold translator.parseStop. simpl. rewrite Ht.
  by destruct (String.eqb s "").
Qed.

(** *** The system string of a Claude-messages request *)

Lemma shapedRole_system : strings.ToLower (strings.TrimSpace "system") = "system".
Proof. vm_compute. reflexivity. Qed.

Lemma shapedRole_user : strings.ToLower (strings.TrimSpace "user") = "user".
Proof. vm_compute. reflexivity. Qed.

Lemma shapedRole_assistant : strings.ToLower (strings.TrimSpace "assistant") = "assistant".
Proof. vm_compute. reflexivity. Qed.

Lemma validateClaudeMessages_roles i msgs :
  translator.validateClaudeMessages i msgs = None ->
  Forall (fun m => translator.Role m = "user" \/ translator.Role m = "assistant") msgs.
Proof.
  revert i. induction msgs as [|m msgs IH]; intros i H; [constructor|].
  simpl in H. unfold translator.ClaudeMessage_validate in H.
  destruct (String.eqb (translator.Role m) "user") eqn:Hu;
    destruct (String.eqb (translator.Role m) "assistant") eqn:Ha;
    simpl in H; try discriminate;
    (destruct (String.eqb (strings.TrimSpace (translator.Content m)) ""); [discriminate|]);
    (constructor; [|by eapply IH]).
  - left. by apply String.eqb_eq.
  - left. by apply String.eqb_eq.
  - right. by apply String.eqb_eq.
Qed.

(** User and assistant messages add nothing to the system parts. *)
Lemma shapeMessages_conversation cms acc sp messages sp' :
  Forall (fun m => translator.Role m = "user" \/ translator.Role m = "assistant") cms ->
  claude.shapeMessages (translator.toMessages cms) acc sp = Ok (messages, sp') ->
  sp' = sp.
Proof.
  intros Hroles. revert acc. induction Hroles as [|m cms Hm _ IH]; intros acc H.
  - simpl in H. by inversion H.
  - cbn [translator.toMessages List.map claude.shapeMessages models.Role models.Content] in H.
    destruct Hm as [Hm|Hm]; rewrite Hm in H.
    + rewrite shapedRole_user in H. cbn [String.eqb Ascii.eqb Bool.eqb orb] in H.
      destruct (String.eqb (strings.TrimSpace (translator.Content m)) ""); [done|].
      by apply IH in H.
    + rewrite shapedRole_assistant in H. cbn [String.eqb Ascii.eqb Bool.eqb orb] in H.
      destruct (String.eqb (strings.TrimSpace (translator.Content m)) ""); [done|].
      by apply IH in H.
Qed.

(** The system parts the adapter collects are the non-blank entries of the
    request's system list, in order. *)
Lemma shapeMessages_system sys cms acc sp messages sp' :
  Forall (fun m => translator.Role m = "user" \/ translator.Role m = "assistant") cms ->
  claude.shapeMessages (translator.systemMessages sys ++ translator.toMessages cms)%list acc sp
    = Ok (messages, sp') ->
  sp' = (sp ++ List.filter nonBlank sys)%list.
Proof.
  intros Hroles. revert sp. induction sys as [|x sys IH]; intros sp H.
  - simpl in H. apply shapeMessages_conversation in H; [|done]. simpl.
    by rewrite app_nil_r.
  - unfold translator.systemMessages in H. cbn [List.filter] in H.
    fold (nonBlank x) in H. cbn [List.filter]. destruct (nonBlank x) eqn:Hx.
    + cbn [List.map app claude.shapeMessages models.Role models.Content] in H.
      rewrite shapedRole_system in H. cbn [String.eqb Ascii.eqb Bool.eqb] in H.
      fold (nonBlank x) in H. rewrite Hx in H.
      apply IH in H. rewrite H. by rewrite <- app_assoc.
    + by apply IH in H.
Qed.

(** For every decoded Claude-messages request the payload's system string
    is the non-blank entries of the system list joined by a blank line. *)
Lemma claude_system_joined raw req b payload :
  translator.ClaudeMessageRequest_UnmarshalJSON raw = Ok req ->
  claude.buildMessagePayload (store (translator.ClaudeMessageRequest_ToUnified req b).2)
    (translator.ClaudeMessageRequest_ToUnified req b).1 = Ok payload ->
  wire.System payload
  = match List.filter nonBlank (translator.clSystem req) with
    | [] => ""
    | parts => strings.Join parts (newline ++ newline)
    end.
Proof.
  intros Hreq Hp.
  assert (Hroles : Forall (fun m => translator.Role m = "user" \/
                                    translator.Role m = "assistant")
                          (translator.clMessages req)).
  { unfold translator.ClaudeMessageRequest_UnmarshalJSON in Hreq.
    destruct (translator.parseClaudeSystem _); [done|].
    destruct (translator.parseClaudeStops _); [done|].
    destruct (translator.ClaudeMessageRequest_validate _) eqn:Hv; [done|].
    inversion Hreq; subst req; clear Hreq. cbn [translator.clMessages].
    unfold translator.ClaudeMessageRequest_validate in Hv.
    cbn [translator.clMessages translator.clModel] in Hv.
    destruct (String.eqb _ ""); [done|].
    destruct (translator.craw_Messages raw) eqn:Hm; [done|].
    by eapply validateClaudeMessages_roles. }
  unfold translator.ClaudeMessageRequest_ToUnified, bind, ret in Hp.
  destruct (allocMap _ b) as [l b']. cbn [fst snd] in Hp.
  unfold claude.buildMessagePayload in Hp. cbn [models.Messages] in Hp.
  destruct (claude.shapeMessages _ _ _) as [e|[messages sp]] eqn:Hs; [done|].
  apply shapeMessages_system in Hs; [|done]. simpl in Hs. subst sp.
  destruct messages as [|first rest]; [done|].
  destruct (negb _); [done|].
  destruct (claude.extractInt _ _); [|done].
  destruct (_ <=? 0); [done|].
  inversion Hp; subst payload; clear Hp. cbn [wire.System].
  by destruct (List.filter nonBlank (translator.clSystem req)).
Qed.

(** C8.  Whatever the text [t], the four shapes of the [system] member
    parse to the same list: empty when [t] is blank, else the trimmed [t]
    alone.  Hence a document decodes to the same request under each of the
    four shapes, and the Claude adapter builds the same payload for it;
    where a payload is built, its system string is the trimmed [t] (or
    empty, when nothing is left of [t] after trimming). *)
Theorem system_shapes_agree (t : string) :
  Forall (fun shape =>
            translator.parseClaudeSystem (Some shape)
            = Ok (if String.eqb (strings.TrimSpace t) "" then []
                  else [strings.TrimSpace t]) /\
            forall raw b,
              translator.ClaudeMessageRequest_UnmarshalJSON (withSystem raw shape)
              = translator.ClaudeMessageRequest_UnmarshalJSON (withSystem raw (JString t)) /\
              claudeIngressPayload (withSystem raw shape) b
              = claudeIngressPayload (withSystem raw (JString t)) b /\
              forall payload,
                claudeIngressPayload (withSystem raw shape) b = Ok (Ok payload) ->
                wire.System payload
                = if nonBlank (strings.TrimSpace t) then strings.TrimSpace t else "")
         (systemShapes t).
Proof.
  assert (Hparse : Forall (fun shape =>
            translator.parseClaudeSystem (Some shape)
            = Ok (if String.eqb (strings.TrimSpace t) "" then []
                  else [strings.TrimSpace t])) (systemShapes t)).
  { unfold systemShapes. repeat apply List.Forall_cons; [ | | | | apply List.Forall_nil].
    - unfold translator.parseClaudeSystem. cbn [UnmarshalString].
      by destruct (String.eqb _ "").
    - unfold translator.parseClaudeSystem.
      cbn [UnmarshalString UnmarshalStrings mapM mbind option_bind mret option_ret
           translator.trimSystem app].
      by destruct (String.eqb _ "").
    - unfold translator.parseClaudeSystem.
      change (UnmarshalBlock (JObject [("type", JString "text"); ("text", JString t)]))
        with (Some ("text", t)).
      cbn [UnmarshalString UnmarshalStrings fst translator.extractSystemBlock].
      change (negb (String.eqb "text" "")) with true.
      change (negb (String.eqb "text" "text")) with false.
      cbn [andb negb]. by destruct (String.eqb _ "").
    - unfold translator.parseClaudeSystem.
      change (UnmarshalBlocks (JArray [JObject [("type", JString "text"); ("text", JString t)]]))
        with (Some [("text", t)]).
      change (UnmarshalStrings (JArray [JObject [("type", JString "text"); ("text", JString t)]]))
        with (@None (list string)).
      cbn [UnmarshalString UnmarshalBlock translator.extractSystemBlocks
           translator.extractSystemBlock].
      change (negb (String.eqb "text" "")) with true.
      change (negb (String.eqb "text" "text")) with false.
      cbn [andb negb app]. by destruct (String.eqb _ ""). }
  assert (Hstr : translator.parseClaudeSystem (Some (JString t))
                 = Ok (if String.eqb (strings.TrimSpace t) "" then []
                       else [strings.TrimSpace t])).
  { by inversion Hparse. }
  eapply Forall_impl; [exact Hparse|]. intros shape Hshape. split; [done|].
  intros raw b.
  assert (translator.ClaudeMessageRequest_UnmarshalJSON (withSystem raw shape)
          = translator.ClaudeMessageRequest_UnmarshalJSON (withSystem raw (JString t))) as Heq.
  { unfold translator.ClaudeMessageRequest_UnmarshalJSON.
    cbn [withSystem translator.craw_System]. by rewrite Hshape, Hstr. }
  split; [done|]. split; [unfold claudeIngressPayload; by rewrite Heq|].
  intros payload Hp. unfold claudeIngressPayload in Hp.
  destruct (translator.ClaudeMessageRequest_UnmarshalJSON (withSystem raw shape))
    as [e|req] eqn:Hreq; [done|].
  destruct (translator.ClaudeMessageRequest_ToUnified req b) as [u b'] eqn:Hu.
  injection Hp as Hp.
  pose proof (claude_system_joined (withSystem raw shape) req b payload Hreq) as Hsys.
  rewrite Hu in Hsys. specialize (Hsys Hp). rewrite Hsys.
  assert (translator.clSystem req
          = if String.eqb (strings.TrimSpace t) "" then [] else [strings.TrimSpace t]) as ->.
  { unfold translator.ClaudeMessageRequest_UnmarshalJSON in Hreq.
    cbn [withSystem translator.craw_System] in Hreq. rewrite Hshape in Hreq.
    destruct (translator.parseClaudeStops _); [done|].
    destruct (translator.ClaudeMessageRequest_validate _); [done|].
    by inversion Hreq. }
  destruct (String.eqb (strings.TrimSpace t) "") eqn:Hb.
  - apply String.eqb_eq in Hb. rewrite Hb. reflexivity.
  - cbn [List.filter]. by destruct (nonBlank (strings.TrimSpace t)).
Qed.

(** C8, witness: the text [" A "] as a one-element block list. *)
Lemma system_shapes_agree_witness :
  exists payload,
    claudeIngressPayload (withSystem examples.claudeS3 (JArray [examples.textBlock " A "]))
      examples.w0 = Ok (Ok payload) /\
    wire.System payload = "A".
Proof.
  pose proof (system_shapes_agree " A ") as H.
  apply Forall_lookup_1 with (i := 3%nat) (x := JArray [examples.textBlock " A "]) in H;
    [|reflexivity].
  destruct H as [_ H]. destruct (H examples.claudeS3 examples.w0) as (_ & _ & Hsys).
  eexists. split; [vm_compute; reflexivity|].
  erewrite Hsys; [|vm_compute; reflexivity]. vm_compute. reflexivity.
Defined.

(** Scenario S3: two system blocks reach the upstream joined by a blank
    line. *)
Example system_two_blocks :
  exists payload,
    claudeIngressPayload
      (withSystem examples.claudeS3 (JArray [examples.textBlock "A"; examples.textBlock "B"]))
      examples.w0 = Ok (Ok payload) /\
    wire.System payload = "A" ++ newline ++ newline ++ "B".
Proof. eexists. split; vm_compute; reflexivity. Qed.

(** ** HTTP surface *)

Section server_facts.

Import server.

Context (ing : Ingress) (s : Server) (now : Z).

Lemma liftH_calls {A} (m : ST heap A) (b : Backend) : calls (liftH m b).2 = calls b.
Proof. unfold liftH. by destruct (m (store b)). Qed.

Lemma allocMap_calls (m : bag) (b : Backend) : calls (allocMap m b).2 = calls b.
Proof. apply liftH_calls. Qed.

Lemma decodeFailure_badRequest err : exists msg, decodeFailure err = badRequest msg.
Proof. unfold decodeFailure. destruct (Is err io_EOF); eauto. Qed.

Lemma decodeRequestBody_calls {T} (unmarshal : JSON -> ST heap (result T)) body b :
  calls (decodeRequestBody (scan ing) unmarshal body b).2 = calls b.
Proof.
  unfold decodeRequestBody. destruct (MaxBytesReader _ _) as [data rerr].
  destruct (Decode (scan ing) data rerr) as [[err|v] rest]; [done|].
  unfold bind. pose proof (liftH_calls (unmarshal v) b) as Hc.
  destruct (liftH (unmarshal v) b) as [[err|target] b']; [done|].
  destruct (Decode (scan ing) rest rerr) as [[[]|] ?]; try done.
  by destruct s0.
Qed.

(** A body over the limit never decodes: the stream ends with the reader's
    error, which is not [io.EOF]. *)
Lemma decodeRequestBody_too_large {T} (unmarshal : JSON -> ST heap (result T)) body b :
  maxBodyBytes < Z.of_nat (String.length body) ->
  exists msg b', decodeRequestBody (scan ing) unmarshal body b = (Err (badRequest msg), b').
Proof.
  intros Hbig. unfold decodeRequestBody, MaxBytesReader.
  destruct (Z.leb_spec (Z.of_nat (String.length body)) maxBodyBytes) as [Hle|_]; [lia|].
  set (data := String.substring _ _ _).
  unfold Decode. change (Is errBodyTooLarge io_EOF) with false.
  destruct (scan ing data false) as [v rest| | |msg];
    try (destruct (decodeFailure_badRequest errBodyTooLarge) as [m ->]; by eauto).
  - unfold bind. destruct (liftH (unmarshal v) b) as [[err|target] b'].
    + destruct (decodeFailure_badRequest err) as [m ->]. by eauto.
    + destruct (scan ing rest false); by eauto.
  - destruct (decodeFailure_badRequest (External msg)) as [m ->]. by eauto.
Qed.

(** A handler error that is a [requestError] becomes the response: its
    status is the status line (of a response that has none yet), its
    message the error document. *)
Lemma openAIErrorHandler_request (e : requestError) (w : World) :
  status (response w) = None ->
  let w' := (openAIErrorHandler (Request e) w).2 in
  status (response w') = Some (errors.Status e) /\
  backend w' = backend w /\
  (canWrite (response w) 1 ->
   events (response w')
   = (events (response w)
      ++ [Wrote [Encoded (errorBody_json (errors.Message e) (errors.Type_ e) (errors.Code e));
                 Text newline]])%list).
Proof.
  intros Hs. unfold openAIErrorHandler, writeError, http.JSON_, http.SetHeader,
    http.WriteHeader, http.Write, bind, ret, canWrite. simpl. rewrite Hs. simpl.
  destruct (writesLeft (response w)) as [[|k]|]; simpl; split_and!; try done. lia.
Qed.

Lemma ServeHTTP_request_error rt body w e w1 :
  handler ing s now rt body w = (Some (Request e), w1) ->
  ServeHTTP ing s now rt body w = openAIErrorHandler (Request e) w1.
Proof. intros H. unfold ServeHTTP, bind. by rewrite H. Qed.

(** Every route hands a body that fails to decode to the error handler,
    without touching the response or the upstream. *)
(** The common start of the three handlers on a body that does not
    decode. *)
Ltac fail_decode unmarshal handle body w Hbig :=
  let msg := fresh "msg" in
  let b' := fresh "b'" in
  let Hd := fresh "Hd" in
  let Hc := fresh "Hc" in
  destruct (decodeRequestBody_too_large unmarshal body (backend w) Hbig) as (msg & b' & Hd);
  pose proof (decodeRequestBody_calls unmarshal body (backend w)) as Hc;
  unfold handle, bind, liftB; rewrite Hd in *; simpl in *; eauto.

Lemma handler_decode_error rt body w :
  maxBodyBytes < Z.of_nat (String.length body) ->
  exists msg w1,
    handler ing s now rt body w = (Some (badRequest msg), w1) /\
    response w1 = response w /\ calls (backend w1) = calls (backend w).
Proof.
  intros Hbig. destruct rt; simpl.
  - fail_decode (unmarshalChat ing) handleChatCompletions body w Hbig.
  - fail_decode (unmarshalCompletion ing) handleCompletions body w Hbig.
  - fail_decode (unmarshalClaude ing) handleClaudeMessages body w Hbig.
Qed.

End server_facts.

Lemma spaces_length n : String.length (examples.spaces n) = n.
Proof. induction n as [|n IH]; simpl; [done|]. by rewrite IH. Qed.

Lemma bigBody_too_large :
  server.maxBodyBytes < Z.of_nat (String.length examples.bigBody).
Proof.
  unfold examples.bigBody. rewrite spaces_length.
  assert (server.maxBodyBytes = 1048576) as -> by reflexivity.
  rewrite Z2Nat.id; lia.
Qed.

(** C6 (as amended).  A POST to any of the three routes whose body is
    longer than 1 MiB is answered with status 400: the handler returns an
    invalid-request error and no upstream call is performed. *)
Theorem oversized_body_is_bad_request ing s now rt body w :
  server.maxBodyBytes < Z.of_nat (String.length body) ->
  status (response w) = None ->
  let w' := (server.ServeHTTP ing s now rt body w).2 in
  (exists msg, (server.handler ing s now rt body w).1 = Some (server.badRequest msg)) /\
  status (response w') = Some 400 /\
  calls (backend w') = calls (backend w).
Proof.
  intros Hbig Hs.
  destruct (handler_decode_error ing s now rt body w Hbig) as (msg & w1 & Hh & Hr & Hc).
  unfold server.badRequest in Hh. cbv zeta.
  rewrite (ServeHTTP_request_error _ _ _ _ _ _ _ _ Hh). rewrite Hh.
  assert (Hs1 : status (response w1) = None) by by rewrite Hr.
  match type of Hh with
  | _ = (Some (Request ?e), _) =>
      destruct (openAIErrorHandler_request e w1 Hs1) as (H1 & H2 & _)
  end.
  simpl in *. split; [by eauto|]. split; [done|]. by rewrite H2.
Qed.

(** C6, witness: a body of 1 MiB and one byte, all spaces, to the chat
    route. *)
Lemma oversized_body_is_bad_request_witness :
  status (response (server.ServeHTTP examples.blankIngress examples.srv 0
                      server.ChatCompletions examples.bigBody examples.world0).2)
  = Some 400.
Proof.
  pose proof (oversized_body_is_bad_request examples.blankIngress examples.srv 0
                server.ChatCompletions examples.bigBody examples.world0
                bigBody_too_large eq_refl) as (_ & H & _).
  exact H.
Defined.

(** C6, counterexample: the same body on each of the three routes.  The
    handler's error carries status 400, and 400 is the status line; it is
    not 413. *)
Lemma oversized_body_is_not_413 :
  Forall (fun rt =>
            let w' := (server.ServeHTTP examples.blankIngress examples.srv 0 rt
                         examples.bigBody examples.world0).2 in
            status (response w') = Some 400 /\ status (response w') <> Some 413)
         [server.ChatCompletions; server.Completions; server.Messages].
Proof.
  assert (H : forall rt,
             status (response (server.ServeHTTP examples.blankIngress examples.srv 0 rt
                                 examples.bigBody examples.world0).2) = Some 400).
  { intros rt.
    destruct (handler_decode_error examples.blankIngress examples.srv 0 rt
                examples.bigBody examples.world0 bigBody_too_large)
      as (msg & w1 & Hh & Hr & _).
    rewrite (ServeHTTP_request_error _ _ _ _ _ _ _ _ Hh).
    assert (Hs1 : status (response w1) = None) by by rewrite Hr.
    unfold server.badRequest.
    match goal with
    | |- context [server.openAIErrorHandler (Request ?e) w1] =>
        destruct (openAIErrorHandler_request e w1 Hs1) as (H1 & _)
    end.
    exact H1. }
  repeat apply List.Forall_cons; [ | | | apply List.Forall_nil];
    cbv zeta; rewrite H; (split; [done|discriminate]).
Qed.

Section unknown_model.

Import server.

Context (ing : Ingress) (s : Server) (now : Z).

Lemma LookupModel_unknown (r : Registry) (id : string) :
  models r !! id = None ->
  LookupModel r id = Err (Wrap ("unknown model: " ++ id) (Sentinel ErrUnknownModel)).
Proof. intros H. unfold LookupModel. by rewrite H. Qed.

Lemma toHTTPError_unknown (id : string) :
  toHTTPError (Wrap ("unknown model: " ++ id) (Sentinel ErrUnknownModel))
  = {| errors.Status := 400; errors.Message := "unknown model: " ++ id;
       errors.Type_ := "invalid_request_error"; errors.Code := "" |}.
Proof. reflexivity. Qed.

(** What is left to show once a handler is known to return the 400 error
    of the registry without having gone upstream. *)
Lemma answersUnknownModel_intro rt body w id w1 :
  status (response w) = None ->
  handler ing s now rt body w
  = (Some (Request (toHTTPError (Wrap ("unknown model: " ++ id) (Sentinel ErrUnknownModel)))),
     w1) ->
  response w1 = response w ->
  calls (backend w1) = calls (backend w) ->
  answersUnknownModel ing s now rt body w id.
Proof.
  intros Hs Hh Hr Hc. rewrite toHTTPError_unknown in Hh.
  unfold answersUnknownModel. cbv zeta.
  rewrite (ServeHTTP_request_error ing s now _ _ _ _ _ Hh), Hh.
  assert (Hs1 : status (response w1) = None) by by rewrite Hr.
  match type of Hh with
  | _ = (Some (Request ?e), _) =>
      destruct (openAIErrorHandler_request e w1 Hs1) as (H1 & H2 & H3)
  end.
  cbn [fst errors.Status errors.Message errors.Type_ errors.Code] in *.
  split_and!; [done|done|by rewrite H2|reflexivity|].
  intros Hw. rewrite Hr in H3. by apply H3.
Qed.

Lemma ToUnified_chat_calls req b :
  calls (translator.ChatCompletionRequest_ToUnified req b).2 = calls b /\
  Model_ (translator.ChatCompletionRequest_ToUnified req b).1 = translator.Model req.
Proof.
  unfold translator.ChatCompletionRequest_ToUnified, bind, ret.
  pose proof (allocMap_calls (map_fold (fun k v out => <[k := v]> out) ∅
                                (translator.Options req)) b) as Hc.
  by destruct (allocMap _ b).
Qed.

Lemma ToUnified_completion_calls req b :
  calls (translator.CompletionRequest_ToUnified req b).2 = calls b /\
  cModel (translator.CompletionRequest_ToUnified req b).1 = translator.compModel req.
Proof.
  unfold translator.CompletionRequest_ToUnified, bind, ret.
  pose proof (allocMap_calls (map_fold (fun k v out => <[k := v]> out) ∅
                                (translator.compOptions req)) b) as Hc.
  by destruct (allocMap _ b).
Qed.

Lemma ToUnified_claude_calls req b :
  calls (translator.ClaudeMessageRequest_ToUnified req b).2 = calls b /\
  Model_ (translator.ClaudeMessageRequest_ToUnified req b).1 = translator.clModel req.
Proof.
  unfold translator.ClaudeMessageRequest_ToUnified, bind, ret.
  pose proof (allocMap_calls (map_fold (fun k v out => <[k := v]> out) ∅
                                (translator.clOptions req)) b) as Hc.
  by destruct (allocMap _ b).
Qed.

End unknown_model.

(** One route of the three: decoding keeps the upstream untouched, so does
    the conversion to the canonical request, and the dispatcher stops at
    the lookup. *)
Ltac unknown_route ing s now w Hs Hd Hm unmarshal toUnified toUnified_calls handle dispatch :=
  let Hc := fresh "Hc" in
  let Hc2 := fresh "Hc2" in
  let Hid := fresh "Hid" in
  let Hu := fresh "Hu" in
  let u := fresh "u" in
  let b2 := fresh "b2" in
  match type of Hd with
  | server.decodeRequestBody _ _ ?body _ = (_ ?req, ?b1) =>
      pose proof (decodeRequestBody_calls ing unmarshal body (backend w)) as Hc;
      rewrite Hd in Hc; simpl in Hc;
      destruct (toUnified_calls req b1) as [Hc2 Hid];
      destruct (toUnified req b1) as [u b2] eqn:Hu;
      simpl in Hc2, Hid;
      eapply (answersUnknownModel_intro ing s now _ _ _ _
                {| backend := b2; response := response w |});
      [ exact Hs
      | cbn [server.handler]; unfold handle, bind, liftB;
        rewrite Hd; cbn [backend response]; rewrite Hu; cbn [backend response];
        unfold dispatch; cbn [Model_]; rewrite Hid, (LookupModel_unknown _ _ Hm);
        reflexivity
      | reflexivity
      | simpl; congruence ]
  end.

(** C9 (as amended).  A request that decodes and names a model id which is
    neither a registered model nor an alias is answered with status 400 and
    the error message ["unknown model: <id>"], which contains
    ["unknown model"]; no upstream call is performed.  This holds on each of
    the three routes. *)
Theorem unknown_model_is_bad_request ing s now w :
  status (response w) = None ->
  (forall body req b1,
      server.decodeRequestBody (server.scan ing) (server.unmarshalChat ing) body (backend w)
        = (Ok req, b1) ->
      models (router.registry (server.router s)) !! translator.Model req = None ->
      answersUnknownModel ing s now server.ChatCompletions body w (translator.Model req)) /\
  (forall body req b1,
      server.decodeRequestBody (server.scan ing) (server.unmarshalCompletion ing) body (backend w)
        = (Ok req, b1) ->
      models (router.registry (server.router s)) !! translator.compModel req = None ->
      answersUnknownModel ing s now server.Completions body w (translator.compModel req)) /\
  (forall body req b1,
      server.decodeRequestBody (server.scan ing) (server.unmarshalClaude ing) body (backend w)
        = (Ok req, b1) ->
      models (router.registry (server.router s)) !! translator.clModel req = None ->
      answersUnknownModel ing s now server.Messages body w (translator.clModel req)).
Proof.
  intros Hs. split_and!; intros body req b1 Hd Hm.
  - unknown_route ing s now w Hs Hd Hm
      (server.unmarshalChat ing) translator.ChatCompletionRequest_ToUnified
      ToUnified_chat_calls server.handleChatCompletions router.Chat.
  - unknown_route ing s now w Hs Hd Hm
      (server.unmarshalCompletion ing) translator.CompletionRequest_ToUnified
      ToUnified_completion_calls server.handleCompletions router.Completion.
  - unknown_route ing s now w Hs Hd Hm
      (server.unmarshalClaude ing) translator.ClaudeMessageRequest_ToUnified
      ToUnified_claude_calls server.handleClaudeMessages router.Chat.
Qed.

(** C9, counterexample: for the model id [nope] the registry's error reads
    ["unknown model: nope"]; the answer is a 400 whose message does not
    contain ["unknown_model"]. *)
Lemma unknown_model_message_has_no_underscore :
  exists err,
    LookupModel examples.aliased "nope" = Err err /\
    errors.Status (server.toHTTPError err) = 400 /\
    errors.Message (server.toHTTPError err) = "unknown model: nope" /\
    strings.Contains (errors.Message (server.toHTTPError err)) "unknown_model" = false.
Proof. eexists. split; [vm_compute; reflexivity|]. vm_compute. auto. Qed.

(** C9, witness: a chat request for the model [nope], which the registry
    of [examples.srv] does not know. *)
Lemma unknown_model_is_bad_request_witness :
  answersUnknownModel (examples.ingressFor "nope" false) examples.srv 0
    server.ChatCompletions "{}" examples.world0 "nope".
Proof.
  destruct (unknown_model_is_bad_request (examples.ingressFor "nope" false) examples.srv 0
              examples.world0 eq_refl) as (H & _ & _).
  apply (H "{}" (examples.chatFor "nope") examples.w0).
  - vm_compute. reflexivity.
  - vm_compute. reflexivity.
Defined.

(** *** Claude stream *)

Section stream_facts.

Import server.

Lemma writeSSEEvent_ok name payload w :
  canWrite (response w) 2 ->
  exists w',
    writeSSEEvent name payload w = (None, w') /\
    backend w' = backend w /\
    canFlush (response w') = canFlush (response w) /\
    (forall c, status (response w) = Some c -> status (response w') = Some c) /\
    events (response w')
    = (events (response w)
       ++ [Wrote [Text ("event: " ++ name ++ newline)];
           Wrote [Text "data: "; Encoded payload; Text (newline ++ newline)]])%list /\
    writesLeft (response w') = (fun k => (k - 2)%nat) <$> writesLeft (response w).
Proof.
  unfold canWrite, writeSSEEvent, http.Write, bind, ret.
  destruct w as [b r]. simpl.
  destruct (writesLeft r) as [[|[|k]]|] eqn:Hw; simpl; try lia; intros _.
  - eexists. split; [reflexivity|]. simpl. split_and!; try done.
    + by intros c ->.
    + by rewrite <- app_assoc.
    + do 2 f_equal. lia.
  - eexists. split; [reflexivity|]. simpl. split_and!; try done.
    + by intros c ->.
    + by rewrite <- app_assoc.
Qed.

Lemma Flush_spec w :
  exists w',
    http.Flush w = (tt, w') /\
    backend w' = backend w /\
    canFlush (response w') = canFlush (response w) /\
    (forall c, status (response w) = Some c -> status (response w') = Some c) /\
    events (response w') = (events (response w) ++ [Flushed])%list /\
    writesLeft (response w') = writesLeft (response w).
Proof.
  unfold http.Flush. eexists. split; [reflexivity|]. simpl. split_and!; try done.
  by intros c ->.
Qed.

(** With room for two writes per event, the loop writes every event as
    its frame, one after the other, and fails nowhere. *)
Lemma writeEvents_ok evs w :
  canWrite (response w) (2 * length evs) ->
  exists w',
    writeEvents evs w = (None, w') /\
    backend w' = backend w /\
    (forall c, status (response w) = Some c -> status (response w') = Some c) /\
    events (response w') = (events (response w) ++ List.concat (List.map sseFrame evs))%list.
Proof.
  revert w. induction evs as [|[name payload] evs IH]; intros w Hw.
  - exists w. simpl. split_and!; try done. by rewrite app_nil_r.
  - cbn [writeEvents]. unfold bind at 1.
    destruct (writeSSEEvent_ok name payload w) as (w1 & H1 & Hb1 & Hf1 & Hs1 & He1 & Hl1).
    { unfold canWrite in *. destruct (writesLeft (response w)); [|done]. simpl in Hw. lia. }
    rewrite H1. unfold bind at 1.
    destruct (Flush_spec w1) as (w2 & H2 & Hb2 & Hf2 & Hs2 & He2 & Hl2).
    rewrite H2.
    destruct (IH w2) as (w3 & H3 & Hb3 & Hs3 & He3).
    { unfold canWrite in *. rewrite Hl2, Hl1.
      destruct (writesLeft (response w)); [|done]. simpl in *. lia. }
    exists w3. split; [exact H3|]. split_and!.
    + congruence.
    + intros c Hc. auto.
    + rewrite He3, He2, He1. cbn [List.map List.concat sseFrame fst snd].
      rewrite <- !app_assoc. reflexivity.
Qed.

Lemma writeClaudeStream_ok modelID resp w :
  canFlush (response w) = true ->
  canWrite (response w) 12 ->
  exists w',
    writeClaudeStream modelID resp w = (None, w') /\
    backend w' = backend w /\
    status (response w') = Some (default 200 (status (response w))) /\
    events (response w')
    = (events (response w)
       ++ List.concat (List.map sseFrame (streamEvents modelID resp)))%list.
Proof.
  intros Hf Hw. unfold writeClaudeStream, bind at 1, getResponse. rewrite Hf. cbn [negb].
  set (w1 := (http.WriteHeader 200
                (http.SetHeader "Connection" "keep-alive"
                   (http.SetHeader "Cache-Control" "no-cache"
                      (http.SetHeader "Content-Type" "text/event-stream" w).2).2).2).2).
  destruct (writeEvents_ok (streamEvents modelID resp) w1) as (w' & H1 & Hb & Hs & He).
  { subst w1. unfold canWrite in *. simpl. exact Hw. }
  exists w'. split; [|split_and!].
  - unfold bind, http.SetHeader, http.WriteHeader. simpl. exact H1.
  - by rewrite Hb.
  - by apply Hs.
  - by rewrite He.
Qed.

End stream_facts.

(** C4.  A Claude-messages request that decodes with [stream] set is
    dispatched with the stream flag off.  When that dispatch succeeds, the
    writer can flush and the connection takes the twelve writes, the
    handler returns no error and has written exactly the six events
    message_start, content_block_start, content_block_delta,
    content_block_stop, message_delta and message_stop, in that order,
    each as an [event:] line with its name followed by a [data:] line with
    its encoded payload and then flushed; the [delta.text] of the third is
    the whole content of the response. *)
Theorem claude_stream_six_events ing s body w req b1 :
  server.decodeRequestBody (server.scan ing) (server.unmarshalClaude ing) body (backend w)
    = (Ok req, b1) ->
  translator.clStream req = true ->
  canFlush (response w) = true ->
  canWrite (response w) 12 ->
  let unifiedReq := (translator.ClaudeMessageRequest_ToUnified req b1).1 in
  let b2 := (translator.ClaudeMessageRequest_ToUnified req b1).2 in
  let dispatched :=
    {| Model_ := Model_ unifiedReq; Messages := Messages unifiedReq;
       Stream := false; Options := Options unifiedReq |} in
  forall resp modelInfo b3,
    router.Chat (server.router s) dispatched b2 = (Ok (Some resp, modelInfo), b3) ->
    exists w' third,
      server.handleClaudeMessages ing s body w = (None, w') /\
      backend w' = b3 /\
      status (response w') = Some (default 200 (status (response w))) /\
      events (response w')
      = (events (response w)
         ++ List.concat (List.map sseFrame (server.streamEvents (ID modelInfo) resp)))%list /\
      List.map fst (server.streamEvents (ID modelInfo) resp)
      = ["message_start"; "content_block_start"; "content_block_delta";
         "content_block_stop"; "message_delta"; "message_stop"] /\
      server.streamEvents (ID modelInfo) resp !! 2%nat = Some ("content_block_delta", third) /\
      json.get "delta" third ≫= json.get "text"
      = Some (JString (models.Content (Message_ resp))).
Proof.
  intros Hd Hst Hf Hw unifiedReq b2 dispatched resp modelInfo b3 Hr.
  destruct (writeClaudeStream_ok (ID modelInfo) resp {| backend := b3; response := response w |})
    as (w' & H1 & Hb & Hs & He); [done|done|].
  exists w'. eexists. split_and!; [|exact Hb|exact Hs|exact He|reflexivity|reflexivity|reflexivity].
  unfold server.handleClaudeMessages, bind, liftB.
  rewrite Hd; cbn [backend response].
  subst unifiedReq b2 dispatched.
  destruct (translator.ClaudeMessageRequest_ToUnified req b1) as [u b2'].
  cbn [fst snd backend response] in *. rewrite Hr, Hst. exact H1.
Qed.

(** C4, witness: a streamed request for the alias [alias-x], served by an
    adapter that refuses streams and echoes the model id.  The stream is
    the six frames, and the text of the third is [m1]. *)
Lemma claude_stream_six_events_witness :
  exists w',
    server.handleClaudeMessages (examples.ingressFor "alias-x" true) examples.srv "{}"
      examples.world0 = (None, w') /\
    status (response w') = Some 200 /\
    List.map (fun e => match e with Wrote (Text line :: _) => line | _ => "" end)
             (events (response w'))
    = ["event: message_start" ++ newline; "data: "; "";
       "event: content_block_start" ++ newline; "data: "; "";
       "event: content_block_delta" ++ newline; "data: "; "";
       "event: content_block_stop" ++ newline; "data: "; "";
       "event: message_delta" ++ newline; "data: "; "";
       "event: message_stop" ++ newline; "data: "; ""] /\
    events (response w') !! 7%nat
    = Some (Wrote [Text "data: ";
                   Encoded (JObject [("type", JString "content_block_delta");
                                     ("index", JInt 0);
                                     ("delta", JObject [("type", JString "text_delta");
                                                        ("text", JString "m1")])]);
                   Text (newline ++ newline)]).
Proof.
  edestruct (claude_stream_six_events (examples.ingressFor "alias-x" true) examples.srv "{}"
               examples.world0 (examples.claudeFor "alias-x" true))
    as (w' & third & H1 & _ & H2 & H3 & _).
  - vm_compute. reflexivity.
  - reflexivity.
  - reflexivity.
  - exact I.
  - vm_compute. reflexivity.
  - exists w'. split; [exact H1|]. split; [exact H2|]. rewrite H3.
    split; vm_compute; reflexivity.
Defined.

(** C10, witness: a chat response with 3 prompt, 4 completion and 7 total
    tokens keeps its usage. *)
Lemma usage_omitted_iff_zero_witness :
  let resp :=
    {| Message_ := {| models.Role := "assistant"; models.Content := "ok"; models.Name := "" |};
       Usage_ := {| PromptTokens := 3; CompletionTokens := 4; TotalTokens := 7 |};
       FinishReason := "stop";
       ID_ := "chatcmpl-1" |} in
  json.get "usage" (translator.ChatCompletionResponse_json
                      (translator.FromUnifiedChat "m1" 0 resp))
  = Some (JObject [("prompt_tokens", JInt 3); ("completion_tokens", JInt 4);
                   ("total_tokens", JInt 7)]).
Proof.
  intros resp. destruct (usage_omitted_iff_zero "m1" 0) as [H _].
  destruct (H resp) as [_ H2]. apply H2. simpl. intros (? & _). discriminate.
Defined.

(** * Further properties of the code *)

(** ** Registry: what a registration leaves behind *)

(** X1.  After a registration that succeeds, every model the provider
    lists resolves, under its id, to that very descriptor and that
    provider. *)
Theorem registered_models_resolve r p aliases r' l m :
  RegisterProvider r (Some p) aliases = (None, r') ->
  ListModels p = Ok l ->
  In m l ->
  LookupModel r' (ID m) = Ok (m, p).
Proof.
  unfold RegisterProvider. intros H Hl Hin. rewrite Hl in H.
  destruct (byName r !! Name p); [done|].
  destruct (registerModels p l (models r)) as [[e|] ms] eqn:Hm; [done|].
  destruct (registerAliases aliases ms) as [e ms'] eqn:Ha.
  inversion H; subst; clear H. unfold LookupModel. simpl.
  erewrite lookup_weaken;
    [|by eapply registerModels_ok|by eapply registerAliases_subseteq].
  done.
Qed.

(** X1, witness: the registry of [examples.aliased] and its model [m1]. *)
Lemma registered_models_resolve_witness :
  LookupModel examples.aliased "m1" = Ok (examples.m1, examples.p1).
Proof.
  destruct (RegisterProvider NewRegistry (Some examples.p1) [("alias-x", "m1")])
    as [e r'] eqn:H.
  assert (e = None) as -> by (vm_compute in H; by inversion H).
  assert (examples.aliased = r') as ->.
  { unfold examples.aliased. by rewrite H. }
  apply (registered_models_resolve _ _ _ _ [examples.m1] examples.m1 H); [done|by left].
Defined.

(** X2.  After a registration that succeeds, every alias resolves to what
    its target resolves to.  In a registry built by registrations the
    descriptor found there carries the upstream id and not the alias. *)
Theorem registered_aliases_resolve r p aliases r' a t :
  RegisterProvider r (Some p) aliases = (None, r') ->
  In (a, t) aliases ->
  LookupModel r' a = LookupModel r' t /\
  exists m q, LookupModel r' a = Ok (m, q) /\ (reachable r -> ID m <> a).
Proof.
  intros H Hin.
  assert (Hreach : reachable r -> canonicalKeys (models r')).
  { intros Hr. apply reachable_canonical.
    replace r' with (RegisterProvider r (Some p) aliases).2 by by rewrite H.
    by constructor. }
  unfold RegisterProvider in H.
  destruct (ListModels p) as [e|l]; [done|].
  destruct (byName r !! Name p); [done|].
  destruct (registerModels p l (models r)) as [[e|] ms] eqn:Hm; [done|].
  destruct (registerAliases aliases ms) as [e ms'] eqn:Ha.
  inversion H; subst; clear H. simpl in *.
  assert (Hnew : forall a0 t0 l0 ms0 ms1,
             registerAliases l0 ms0 = (None, ms1) -> In (a0, t0) l0 ->
             exists e0, ms1 !! a0 = Some e0 /\ ms1 !! t0 = Some e0 /\
                        (canonicalKeys ms0 -> ID (model e0) <> a0)).
  { clear. intros a0 t0 l0. induction l0 as [|[a1 t1] l0 IH]; intros ms0 ms1 H Hin; [done|].
    simpl in H. destruct (ms0 !! a1) eqn:Ha1; [done|].
    destruct (ms0 !! t1) as [e1|] eqn:Ht1; [|done].
    destruct Hin as [[= -> ->]|Hin].
    - exists e1. pose proof (registerAliases_subseteq _ _ _ _ H) as Hsub.
      split_and!.
      + eapply lookup_weaken; [|exact Hsub]. apply lookup_insert_eq.
      + eapply lookup_weaken; [|exact Hsub].
        rewrite lookup_insert_ne; [done|]. intros ->. congruence.
      + intros Hc Heq. apply Hc in Ht1. rewrite Heq in Ht1. congruence.
    - destruct (IH _ _ H Hin) as (e0 & H1 & H2 & H3). exists e0. split_and!; try done.
      intros Hc. apply H3. apply canonicalKeys_insert; eauto. }
  destruct (Hnew _ _ _ _ _ Ha Hin) as (e0 & H1 & H2 & H3).
  unfold LookupModel. simpl. rewrite H1, H2. split; [done|].
  eexists _, _. split; [reflexivity|]. intros Hr. apply H3.
  pose proof (reachable_canonical _ Hr) as Hc.
  pose proof (registerModels_canonical p l _ Hc) as Hc'. by rewrite Hm in Hc'.
Qed.

(** X2, witness: the alias [alias-x] of [examples.aliased]. *)
Lemma registered_aliases_resolve_witness :
  LookupModel examples.aliased "alias-x" = LookupModel examples.aliased "m1".
Proof.
  destruct (RegisterProvider NewRegistry (Some examples.p1) [("alias-x", "m1")])
    as [e r'] eqn:H.
  assert (e = None) as -> by (vm_compute in H; by inversion H).
  assert (examples.aliased = r') as ->.
  { unfold examples.aliased. by rewrite H. }
  apply (registered_aliases_resolve _ _ _ _ "alias-x" "m1" H). by left.
Defined.

(** X3.  Whatever a registration does, and whether it succeeds or fails,
    an id that resolved before it resolves to the same descriptor and
    provider after it. *)
Theorem lookups_survive_registration r (op : option Provider) aliases id m q :
  LookupModel r id = Ok (m, q) ->
  LookupModel (RegisterProvider r op aliases).2 id = Ok (m, q).
Proof.
  unfold LookupModel. intros H.
  destruct (models r !! id) as [e|] eqn:He; [|done].
  by rewrite (lookup_weaken _ _ _ _ He (RegisterProvider_subseteq r op aliases)).
Qed.

(** X3, witness: [m1] still resolves after a second provider was added. *)
Lemma lookups_survive_registration_witness :
  LookupModel (RegisterProvider examples.aliased
                 (Some (examples.echoProvider "q" [])) []).2 "m1"
  = Ok (examples.m1, examples.p1).
Proof. apply lookups_survive_registration. vm_compute. reflexivity. Defined.

(** X4.  Ids are unique across providers and aliases: a provider whose
    name is new and that lists a model under an id that already resolves
    (as a model or as an alias) is refused with [ErrDuplicateModel], and so
    is, with some error, any provider with an alias whose key already
    resolves. *)
Theorem taken_ids_are_refused r p aliases :
  byName r !! Name p = None ->
  (forall l m,
      ListModels p = Ok l -> In m l -> is_Some (models r !! ID m) ->
      exists err, (RegisterProvider r (Some p) aliases).1 = Some err /\
                  Is err ErrDuplicateModel = true) /\
  (forall a t,
      In (a, t) aliases -> is_Some (models r !! a) ->
      exists err, (RegisterProvider r (Some p) aliases).1 = Some err).
Proof.
  intros Hn. split.
  - intros l m Hl Hin Hsome. unfold RegisterProvider. rewrite Hl, Hn.
    destruct (registerModels_duplicate p l (models r) m Hin Hsome) as (e & ms' & -> & He).
    eauto.
  - intros a t Hin Hsome. unfold RegisterProvider.
    destruct (ListModels p) as [e|l]; [by eauto|]. rewrite Hn.
    pose proof (registerModels_subseteq_any p l (models r)) as Hsub.
    destruct (registerModels p l (models r)) as [[e|] ms]; [by eauto|]. simpl in Hsub.
    destruct (registerAliases_duplicate aliases ms a t Hin) as (e & ms' & ->); [|by eauto].
    destruct Hsome as [x Hx]. exists x. by eapply lookup_weaken.
Qed.

(** X4, witness: a second provider that lists [m1], and one that wants
    the alias [alias-x]. *)
Lemma taken_ids_are_refused_witness :
  (exists err,
      (RegisterProvider examples.aliased
         (Some (examples.echoProvider "q" [examples.m1])) []).1 = Some err /\
      Is err ErrDuplicateModel = true) /\
  (exists err,
      (RegisterProvider examples.aliased
         (Some (examples.echoProvider "q" [])) [("alias-x", "m1")]).1 = Some err).
Proof.
  split.
  - destruct (taken_ids_are_refused examples.aliased
                (examples.echoProvider "q" [examples.m1]) []) as [H _].
    + vm_compute. reflexivity.
    + apply (H [examples.m1] examples.m1); [done|by left|].
      vm_compute. eauto.
  - destruct (taken_ids_are_refused examples.aliased
                (examples.echoProvider "q" []) [("alias-x", "m1")]) as [_ H].
    + vm_compute. reflexivity.
    + apply (H "alias-x" "m1"); [by left|]. vm_compute. eauto.
Defined.

(** ** Dispatcher: errors *)

(** X5.  When the model resolves, the dispatcher fails exactly when the
    adapter fails on the sanitised request, and its error is then the
    adapter's error wrapped under the provider's name; the wrapping keeps
    what [errors.Is] and [errors.As] find, so the failure is answered with
    the status and type the adapter's own error would get. *)
Theorem dispatcher_keeps_error_kind (r : router.Router) req w modelInfo providerImpl :
  LookupModel (router.registry r) (Model_ req) = Ok (modelInfo, providerImpl) ->
  let options := (router.cloneOptions (Options req) w).1 in
  let w1 := (router.cloneOptions (Options req) w).2 in
  let sanitisedReq :=
    {| Model_ := ID modelInfo; Messages := Messages req; Stream := Stream req;
       Options := options |} in
  let wrapped cause :=
    Wrap ("provider " ++ Name providerImpl ++ " chat request: " ++ Error cause) cause in
  (forall err w',
      router.Chat r req w = (Err err, w') <->
      exists cause,
        provider.Chat providerImpl sanitisedReq w1 = (Err cause, w') /\ err = wrapped cause) /\
  (forall cause,
      (forall s, Is (wrapped cause) s = Is cause s) /\
      As (wrapped cause) = As cause /\
      errors.Status (server.toHTTPError (wrapped cause))
      = errors.Status (server.toHTTPError cause) /\
      errors.Type_ (server.toHTTPError (wrapped cause))
      = errors.Type_ (server.toHTTPError cause)).
Proof.
  intros Hl options w1 sanitisedReq wrapped. split.
  - intros err w'. unfold router.Chat. rewrite Hl. unfold bind.
    subst options w1 sanitisedReq.
    destruct (router.cloneOptions (Options req) w) as [o w1]. cbn [fst snd].
    destruct (provider.Chat providerImpl _ w1) as [[cause|resp] w2]; split.
    + intros [= <- <-]. by exists cause.
    + by intros (cause' & [= <- <-] & ->).
    + done.
    + by intros (cause' & [=] & _).
  - intros cause. split; [done|]. split; [done|].
    unfold server.toHTTPError. subst wrapped. cbn [As Is].
    destruct (As cause); [done|].
    destruct (Is cause ErrUnknownModel); [done|].
    by destruct (Is cause ErrUnsupportedOperation).
Qed.

(** X5, witness: a streamed chat request for [alias-x]; the echo adapter
    refuses the stream, the dispatcher returns that error wrapped, and the
    answer is a 400. *)
Lemma dispatcher_keeps_error_kind_witness :
  let cause :=
    Wrap "streaming is not yet supported for provider p: unsupported provider operation"
         (Sentinel ErrUnsupportedOperation) in
  let err :=
    Wrap ("provider p chat request: " ++ Error cause) cause in
  router.Chat (router.New examples.aliased)
    {| Model_ := "alias-x"; Messages := []; Stream := true; Options := None |} examples.w0
  = (Err err, examples.w0) /\
  errors.Status (server.toHTTPError err) = errors.Status (server.toHTTPError cause).
Proof.
  intros cause err.
  destruct (dispatcher_keeps_error_kind (router.New examples.aliased)
              {| Model_ := "alias-x"; Messages := []; Stream := true; Options := None |}
              examples.w0 examples.m1 examples.p1 aliased_lookup) as [H1 H2].
  split.
  - apply H1. exists cause. split; reflexivity.
  - by destruct (H2 cause) as (_ & _ & H & _).
Defined.

(** ** Claude adapter: what goes upstream *)

Section claude_more.

Import wire.

Lemma shapeMessages_unshapeable msgs acc sys :
  existsb unshapeable msgs = true ->
  exists msg, claude.shapeMessages msgs acc sys = Err (New msg).
Proof.
  revert acc sys. induction msgs as [|m msgs IH]; intros acc sys H; [done|].
  simpl in H. cbn [claude.shapeMessages]. fold (shapedRole m).
  unfold unshapeable in H.
  destruct (String.eqb (shapedRole m) "system").
  - simpl in H. destruct (negb _); by apply IH.
  - destruct (String.eqb (shapedRole m) "user" || String.eqb (shapedRole m) "assistant").
    + destruct (String.eqb (strings.TrimSpace (models.Content m)) ""); [by eauto|].
      simpl in H. by apply IH.
    + by eauto.
Qed.

Lemma shapeMessages_shaped msgs acc sys messages sys' :
  claude.shapeMessages msgs acc sys = Ok (messages, sys') ->
  existsb unshapeable msgs = false /\
  messages = (acc ++ List.map shapedMessage (nonSystem msgs))%list /\
  sys' = (sys ++ systemPartsOf msgs)%list.
Proof.
  revert acc sys. induction msgs as [|m msgs IH]; intros acc sys H.
  - simpl in H. inversion H; subst. simpl. by rewrite !app_nil_r.
  - cbn [claude.shapeMessages] in H. fold (shapedRole m) in H.
    unfold nonSystem, systemPartsOf, unshapeable. cbn [existsb List.filter].
    fold (nonSystem msgs). unfold nonBlank.
    destruct (String.eqb (shapedRole m) "system") eqn:Hs; cbn [negb andb orb].
    + destruct (negb (String.eqb (strings.TrimSpace (models.Content m)) "")) eqn:Hb.
      * apply IH in H as (H1 & H2 & H3). split_and!; try done.
        rewrite H3. cbn [List.map]. by rewrite <- app_assoc.
      * apply IH in H as (H1 & H2 & H3). by split_and!.
    + destruct (String.eqb (shapedRole m) "user" || String.eqb (shapedRole m) "assistant");
        [|done].
      destruct (String.eqb (strings.TrimSpace (models.Content m)) ""); [done|].
      apply IH in H as (H1 & H2 & H3). split_and!; try done.
      rewrite H2. cbn [List.map]. by rewrite <- app_assoc.
Qed.

Lemma substring_whole (s : string) (n : nat) :
  (String.length s <= n)%nat -> String.substring 0 n s = s.
Proof.
  revert n. induction s as [|c s IH]; intros n Hn; [by destruct n|].
  destruct n as [|n]; [simpl in Hn; lia|].
  cbn [String.substring]. rewrite IH; [done|]. simpl in Hn. lia.
Qed.

Lemma buildMessagePayload_stream h req payload :
  claude.buildMessagePayload h req = Ok payload -> Stream payload = models.Stream req.
Proof.
  unfold claude.buildMessagePayload.
  destruct (claude.shapeMessages _ _ _) as [e|[messages sp]]; [done|].
  destruct messages; [done|]. destruct (negb _); [done|].
  destruct (claude.extractInt _ _); [|done]. destruct (_ <=? _); [done|].
  by intros [= <-].
Qed.

End claude_more.

(** X6.  The payload the Claude adapter builds, when it builds one: the
    messages are the messages that are not system messages, in their
    order, each with its lower-cased role and its trimmed content as one
    text block, and the first of them is a user message; the system string
    is the non-blank system contents joined by a blank line; the model and
    stream flag are the request's and [max_tokens] is positive. *)
Theorem claude_payload_shape h req payload :
  claude.buildMessagePayload h req = Ok payload ->
  wire.Messages payload = List.map shapedMessage (nonSystem (Messages req)) /\
  (exists first rest, wire.Messages payload = first :: rest /\ wire.Role first = "user") /\
  wire.System payload
    = match systemPartsOf (Messages req) with
      | [] => ""
      | parts => strings.Join parts (newline ++ newline)
      end /\
  wire.Model payload = Model_ req /\
  wire.Stream payload = Stream req /\
  0 < wire.MaxTokens payload /\
  existsb unshapeable (Messages req) = false.
Proof.
  unfold claude.buildMessagePayload. intros H.
  destruct (claude.shapeMessages _ _ _) as [e|[messages sp]] eqn:Hs; [done|].
  apply shapeMessages_shaped in Hs as (Hu & Hm & Hp). simpl in Hm, Hp. subst messages sp.
  destruct (List.map shapedMessage (nonSystem (Messages req))) as [|first rest] eqn:Hmsgs;
    [done|].
  destruct (String.eqb (wire.Role first) "user") eqn:Hr; [|done]. cbn [negb] in H.
  destruct (claude.extractInt _ _) as [n|]; [|done].
  destruct (Z.leb_spec n 0); [done|].
  inversion H; subst payload; clear H. cbn.
  apply String.eqb_eq in Hr. split_and!; try done; [by eauto|].
  by destruct (systemPartsOf (Messages req)).
Qed.

(** X6, witness: a user message between the system texts A and B. *)
Lemma claude_payload_shape_witness :
  exists payload,
    claude.buildMessagePayload (store examples.w0) samples.systemsAround = Ok payload /\
    wire.Messages payload
    = [ {| wire.Role := "user";
           wire.Content := [ {| wire.Type_ := "text"; wire.Text := "q" |} ] |} ] /\
    wire.System payload = "A" ++ newline ++ newline ++ "B".
Proof.
  destruct (claude.buildMessagePayload (store examples.w0) samples.systemsAround)
    as [e|payload] eqn:H; [by vm_compute in H|].
  exists payload. split; [done|].
  destruct (claude_payload_shape _ _ _ H) as (H1 & _ & H2 & _).
  rewrite H1, H2. split; vm_compute; reflexivity.
Defined.

(** X7.  The Claude adapter refuses, without an upstream call and without
    touching memory, every request that holds a message it cannot shape (a
    role other than system, user and assistant, or a user or assistant
    message without content) and every request whose [max_tokens] option is
    missing, not a number or not positive. *)
Theorem claude_rejects_before_call lib p req w :
  existsb unshapeable (Messages req) = true \/
  (forall n, claude.extractInt (deref (store w) (Options req)) "max_tokens" = Some n -> n <= 0) ->
  exists err, claude.Chat lib p req w = (Err err, w).
Proof.
  intros H. unfold claude.Chat. destruct (Stream req); [by eauto|].
  unfold bind, getStore.
  destruct (claude.buildMessagePayload (store w) req) as [e|payload] eqn:Hb; [by eauto|].
  exfalso. unfold claude.buildMessagePayload in Hb. destruct H as [H|H].
  - apply (shapeMessages_unshapeable _ [] []) in H as [msg H]. by rewrite H in Hb.
  - destruct (claude.shapeMessages _ _ _) as [e|[messages sp]]; [done|].
    destruct messages; [done|]. destruct (negb _); [done|].
    destruct (claude.extractInt _ _) as [n|] eqn:Hn; [|done].
    specialize (H n eq_refl). destruct (Z.leb_spec n 0); [done|lia].
Qed.

(** X7, witness: a conversation with a tool message. *)
Lemma claude_rejects_before_call_witness :
  exists err,
    claude.Chat examples.offline examples.c1 samples.withTool examples.w0
    = (Err err, examples.w0).
Proof.
  apply claude_rejects_before_call. left. vm_compute. reflexivity.
Defined.

(** X8.  One chat makes at most one upstream round-trip and never writes
    to memory.  The round-trip, if there is one, is a POST to the messages
    endpoint of the payload built for the request, whose stream flag is
    off: the adapter never asks the upstream for a stream. *)
Theorem claude_calls_upstream_once lib p req w :
  let w' := (claude.Chat lib p req w).2 in
  store w' = store w /\
  (calls w' = calls w \/
   exists payload,
     claude.buildMessagePayload (store w) req = Ok payload /\
     wire.Stream payload = false /\
     calls w' = (calls w ++ [ {| Method := "POST"; URL := claude.messages p;
                                 Body := ClaudePayload payload |} ])%list).
Proof.
  unfold claude.Chat. destruct (Stream req) eqn:Hst; [simpl; by auto|].
  unfold bind, getStore.
  destruct (claude.buildMessagePayload (store w) req) as [e|payload] eqn:Hb; [simpl; by auto|].
  destruct (claude.newRequestError lib _); [simpl; by auto|].
  unfold claude.Do.
  assert (wire.Stream payload = false) as Hs.
  { apply buildMessagePayload_stream in Hb. congruence. }
  assert (forall (res : result UnifiedChatResponse) w1,
             w1 = {| store := store w;
                     calls := (calls w ++ [ {| Method := "POST"; URL := claude.messages p;
                                               Body := ClaudePayload payload |} ])%list |} ->
             store (res, w1).2 = store w /\
             (calls (res, w1).2 = calls w \/
              exists payload0,
                (Ok payload : result wire.messagePayload) = Ok payload0 /\ wire.Stream payload0 = false /\
                calls (res, w1).2
                = (calls w ++ [ {| Method := "POST"; URL := claude.messages p;
                                   Body := ClaudePayload payload0 |} ])%list)) as Hsent.
  { intros res w1 ->. split; [done|]. right. by exists payload. }
  destruct (claude.client p _) as [e|resp]; [by apply Hsent|].
  destruct (400 <=? StatusCode resp); [by apply Hsent|].
  destruct (claude.decodeMessageResponse lib _ _); by apply Hsent.
Qed.

(** X9.  A completion request that the dispatcher routes to a Claude
    adapter is refused without an upstream call; the error is
    [ErrUnsupportedOperation] under the dispatcher's wrapping, which the
    HTTP surface answers with status 400 and type
    [invalid_request_error]. *)
Theorem claude_completion_unsupported (r : router.Router) req w lib p modelInfo :
  LookupModel (router.registry r) (cModel req) = Ok (modelInfo, claude.asProvider lib p) ->
  exists err w',
    router.Completion r req w = (Err err, w') /\
    calls w' = calls w /\
    Is err ErrUnsupportedOperation = true /\
    errors.Status (server.toHTTPError err) = 400 /\
    errors.Type_ (server.toHTTPError err) = "invalid_request_error".
Proof.
  intros Hl. unfold router.Completion. rewrite Hl. unfold bind at 1.
  destruct (cloneOptions_spec (cOptions req) w) as (o & w1 & Hc & Hcalls & _).
  rewrite Hc. eexists _, _. split; [reflexivity|]. by split_and!.
Qed.

(** X9, witness: a completion request for the model [m2] of the registry
    [samples.claudeOnly]. *)
Lemma claude_completion_unsupported_witness :
  exists err w',
    router.Completion (router.New samples.claudeOnly)
      {| cModel := "m2"; cPrompt := "hi"; cStream := false; cMaxTokens := 5;
         cTemperature := 0; cOptions := None |} examples.w0 = (Err err, w') /\
    errors.Status (server.toHTTPError err) = 400.
Proof.
  edestruct (claude_completion_unsupported (router.New samples.claudeOnly)
               {| cModel := "m2"; cPrompt := "hi"; cStream := false; cMaxTokens := 5;
                  cTemperature := 0; cOptions := None |} examples.w0
               examples.offline examples.c1)
    as (err & w' & H1 & _ & _ & H2 & _).
  - by apply (fresh_registry_lookup (claude.asProvider examples.offline examples.c1)
                  {| models.ID := "m2"; models.Provider := "claude";
                     models.APIStyle := "claude" |}).
  - eauto.
Defined.

(** X10.  When the upstream answers a chat with a status of 400 or more,
    the adapter fails after that one round-trip with the error
    [parseAPIError] makes of the answer: when the body cannot be read (it
    breaks off before 64 KiB), the read error wrapped; else, when the
    first 64 KiB decode to an error document with a message, a plain
    error of its type and message; else a plain error of the status and
    the trimmed body.  None of the three is an invalid request: the HTTP
    surface answers each, under the dispatcher's wrapping, with status 502
    and the fixed message "upstream provider error", so the upstream's own
    message does not reach the client. *)
Theorem claude_upstream_failure lib p req w payload httpResp :
  Stream req = false ->
  claude.buildMessagePayload (store w) req = Ok payload ->
  let httpReq := {| Method := "POST"; URL := claude.messages p;
                    Body := ClaudePayload payload |} in
  claude.newRequestError lib httpReq = None ->
  claude.client p httpReq = Ok httpResp ->
  400 <= StatusCode httpResp ->
  let err := claude.parseAPIError lib httpResp in
  let body := String.substring 0 (Z.to_nat (64 * 1024)) (RespBody httpResp) in
  let status := pretty (StatusCode httpResp) in
  claude.Chat lib p req w
  = (Err err, {| store := store w; calls := (calls w ++ [httpReq])%list |}) /\
  (forall failure,
      Z.of_nat (String.length (RespBody httpResp)) < 64 * 1024 ->
      BodyFailure httpResp = Some failure ->
      err = Wrap ("upstream error status " ++ status ++ " and failed to read body: "
                  ++ failure) (External failure)) /\
  ((64 * 1024 <= Z.of_nat (String.length (RespBody httpResp))
    \/ BodyFailure httpResp = None) ->
   match claude.unmarshalAPIError lib body with
   | Some apiErr =>
       if String.eqb (wire.ErrMessage apiErr) ""
       then err = New ("upstream error status " ++ status ++ ": " ++ strings.TrimSpace body)
       else err = New ("claude error (" ++ wire.ErrType apiErr ++ "): "
                       ++ wire.ErrMessage apiErr)
   | None => err = New ("upstream error status " ++ status ++ ": " ++ strings.TrimSpace body)
   end) /\
  forall prefix,
    server.toHTTPError (Wrap prefix err)
    = {| errors.Status := 502; errors.Message := "upstream provider error";
         errors.Type_ := "upstream_error"; errors.Code := "" |}.
Proof.
  intros Hst Hb httpReq Hn Hc Hcode err body status. split_and!.
  - unfold claude.Chat. rewrite Hst.
    unfold bind, getStore. rewrite Hb. fold httpReq. rewrite Hn. unfold claude.Do.
    rewrite Hc. by destruct (Z.leb_spec 400 (StatusCode httpResp)); [|lia].
  - intros failure Hlen Hf. subst err. unfold claude.parseAPIError, readAllLimited.
    destruct (Z.leb_spec (64 * 1024) (Z.of_nat (String.length (RespBody httpResp)))); [lia|].
    by rewrite Hf.
  - intros Hread. subst err. unfold claude.parseAPIError, readAllLimited.
    assert ((if 64 * 1024 <=? Z.of_nat (String.length (RespBody httpResp))
             then Ok (String.substring 0 (Z.to_nat (64 * 1024)) (RespBody httpResp))
             else match BodyFailure httpResp with
                  | Some msg => Err (External msg)
                  | None => Ok (RespBody httpResp)
                  end) = (Ok body : result string)) as ->.
    { destruct (Z.leb_spec (64 * 1024) (Z.of_nat (String.length (RespBody httpResp))))
        as [Hle|Hlt]; [done|].
      destruct Hread as [Hle|Hnone]; [lia|]. rewrite Hnone. subst body. f_equal. symmetry.
      apply substring_whole. lia. }
    destruct (claude.unmarshalAPIError lib body) as [apiErr|]; [|done].
    by destruct (String.eqb (wire.ErrMessage apiErr) "").
  - intros prefix. subst err. unfold claude.parseAPIError.
    destruct (readAllLimited (64 * 1024) httpResp) as [e|b] eqn:Hr.
    + unfold readAllLimited in Hr. destruct (_ <=? _); [done|].
      destruct (BodyFailure httpResp); by inversion Hr.
    + destruct (claude.unmarshalAPIError lib b) as [apiErr|]; [|done].
      by destruct (negb _).
Qed.

(** X10, witness: an upstream that answers 429 with an error document of
    type rate_limit_error and the message "slow down". *)
Lemma claude_upstream_failure_witness :
  exists w',
    claude.Chat samples.throttledLib samples.throttled samples.userOnly examples.w0
    = (Err (New "claude error (rate_limit_error): slow down"), w') /\
    length (calls w') = 1%nat.
Proof.
  destruct (claude.buildMessagePayload (store examples.w0) samples.userOnly)
    as [e|payload] eqn:Hb; [by vm_compute in Hb|].
  destruct (claude_upstream_failure samples.throttledLib samples.throttled samples.userOnly
              examples.w0 payload
              {| StatusCode := 429; RespBody := samples.rateLimitBody; BodyFailure := None |})
    as (H1 & _ & _ & _); try done.
  rewrite H1. eexists. split.
  - apply (f_equal2 pair); [|reflexivity]. vm_compute. reflexivity.
  - reflexivity.
Defined.

(** ** HTTP surface: bodies that do not decode *)

Section server_more.

Import server.

Context (ing : Ingress) (s : Server) (now : Z).

Lemma decodeRequestBody_error {T} (unmarshal : JSON -> ST heap (result T)) body b err b' :
  decodeRequestBody (scan ing) unmarshal body b = (Err err, b') ->
  exists msg, err = badRequest msg.
Proof.
  unfold decodeRequestBody. destruct (MaxBytesReader _ _) as [data rerr].
  destruct (Decode (scan ing) data rerr) as [[e|v] rest].
  - intros [= <- _]. apply decodeFailure_badRequest.
  - unfold bind. destruct (liftH (unmarshal v) b) as [[e|target] b1].
    + intros [= <- _]. apply decodeFailure_badRequest.
    + unfold ret. repeat case_match; intros [= <- _]; by eauto.
Qed.

Lemma handler_decodes rt body w err :
  (decodes ing rt body (backend w)).1 = Some err ->
  handler ing s now rt body w
  = (Some err, {| backend := (decodes ing rt body (backend w)).2; response := response w |}).
Proof.
  destruct rt; cbn [decodes handler fst snd];
    unfold handleChatCompletions, handleCompletions, handleClaudeMessages, bind, liftB.
  - destruct (decodeRequestBody _ (unmarshalChat ing) body (backend w)) as [[e|req] b1];
      [|done]. by intros [= ->].
  - destruct (decodeRequestBody _ (unmarshalCompletion ing) body (backend w)) as [[e|req] b1];
      [|done]. by intros [= ->].
  - destruct (decodeRequestBody _ (unmarshalClaude ing) body (backend w)) as [[e|req] b1];
      [|done]. by intros [= ->].
Qed.

Lemma decodes_error rt body b err :
  (decodes ing rt body b).1 = Some err -> exists msg, err = badRequest msg.
Proof.
  destruct rt; cbn [decodes fst].
  - destruct (decodeRequestBody _ (unmarshalChat ing) body b) as [[e|req] b1] eqn:H; [|done].
    intros [= <-]. by eapply decodeRequestBody_error.
  - destruct (decodeRequestBody _ (unmarshalCompletion ing) body b) as [[e|req] b1] eqn:H;
      [|done]. intros [= <-]. by eapply decodeRequestBody_error.
  - destruct (decodeRequestBody _ (unmarshalClaude ing) body b) as [[e|req] b1] eqn:H; [|done].
    intros [= <-]. by eapply decodeRequestBody_error.
Qed.

Lemma decodes_calls rt body b : calls (decodes ing rt body b).2 = calls b.
Proof. destruct rt; cbn [decodes snd]; apply decodeRequestBody_calls. Qed.

End server_more.

(** X11.  On each of the three routes, a body that does not decode, for
    whatever reason, is answered with status 400 and one error document of
    type [invalid_request_error]; nothing goes upstream. *)
Theorem undecodable_body_is_bad_request ing s now rt body w err :
  (decodes ing rt body (backend w)).1 = Some err ->
  status (response w) = None ->
  let w' := (server.ServeHTTP ing s now rt body w).2 in
  exists msg,
    err = server.badRequest msg /\
    (server.handler ing s now rt body w).1 = Some err /\
    calls (backend w') = calls (backend w) /\
    status (response w') = Some 400 /\
    (canWrite (response w) 1 ->
     events (response w')
     = (events (response w)
        ++ oneDocument (server.errorBody_json msg "invalid_request_error" ""))%list).
Proof.
  intros Hd Hs w'. destruct (decodes_error ing _ _ _ _ Hd) as [msg ->]. exists msg.
  pose proof (handler_decodes ing s now rt body w _ Hd) as Hh.
  subst w'. rewrite (ServeHTTP_request_error ing s now _ _ _ _ _ Hh), Hh.
  set (w1 := {| backend := _; response := response w |}).
  destruct (openAIErrorHandler_request
              {| errors.Status := 400; errors.Message := msg;
                 errors.Type_ := "invalid_request_error"; errors.Code := "" |} w1 Hs)
    as (H1 & H2 & H3).
  split_and!; [done|done| |exact H1|exact H3].
  unfold server.badRequest. rewrite H2. apply decodes_calls.
Qed.

(** X11, witness: an empty body on the completions route. *)
Lemma undecodable_body_is_bad_request_witness :
  let w' := (server.ServeHTTP examples.blankIngress examples.srv 0 server.Completions ""
               examples.world0).2 in
  status (response w') = Some 400 /\
  events (response w')
  = oneDocument (server.errorBody_json "request body is required" "invalid_request_error" "").
Proof.
  destruct (undecodable_body_is_bad_request examples.blankIngress examples.srv 0
              server.Completions "" examples.world0
              (server.badRequest "request body is required") eq_refl eq_refl)
    as (msg & Hm & _ & _ & H1 & H2).
  injection Hm as <-. split; [exact H1|]. by apply H2.
Defined.

(** X12.  A body within the size limit whose first document decodes is
    accepted exactly when nothing but white space follows the document;
    anything else after it is refused with the message "request body must
    contain a single JSON object".  A body of white space alone is refused
    with "request body is required". *)
Theorem body_must_be_one_document {T} (scan : string -> bool -> server.scanned)
    (unmarshal : JSON -> ST heap (result T)) (body : string) (b : Backend) :
  Z.of_nat (String.length body) <= server.maxBodyBytes ->
  (scan body true = server.Blank ->
   server.decodeRequestBody scan unmarshal body b
   = (Err (server.badRequest "request body is required"), b)) /\
  (forall v rest target h',
      scan body true = server.Value v rest ->
      unmarshal v (store b) = (Ok target, h') ->
      let b' := {| store := h'; calls := calls b |} in
      server.decodeRequestBody scan unmarshal body b
      = if isBlank (scan rest true)
        then (Ok target, b')
        else (Err (server.badRequest "request body must contain a single JSON object"), b')).
Proof.
  intros Hlen. unfold server.decodeRequestBody, server.MaxBytesReader.
  destruct (Z.leb_spec (Z.of_nat (String.length body)) server.maxBodyBytes); [|lia].
  unfold server.Decode. change (Is (Sentinel io_EOF) io_EOF) with true. split.
  - by intros ->.
  - intros v rest target h' Hsc Hu. cbv zeta. rewrite Hsc. unfold bind, liftH. rewrite Hu.
    by destruct (scan rest true).
Qed.

(** X12, witness: with the scanner of [examples.fixedIngress], which takes
    all of a non-empty body for one document, the body [{}] is accepted. *)
Lemma body_must_be_one_document_witness :
  server.decodeRequestBody (server.scan (examples.ingressFor "m1" false))
    (server.unmarshalChat (examples.ingressFor "m1" false)) "{}" examples.w0
  = (Ok (examples.chatFor "m1"), examples.w0).
Proof.
  destruct (body_must_be_one_document (server.scan (examples.ingressFor "m1" false))
              (server.unmarshalChat (examples.ingressFor "m1" false)) "{}" examples.w0)
    as [_ H].
  - vm_compute. discriminate.
  - by rewrite (H (JString "{}") "" (examples.chatFor "m1") (store examples.w0) eq_refl eq_refl).
Defined.

(** ** HTTP surface: the stream and the answers *)

Section stream_more.

Import server.

Lemma half_succ_succ k : (S (S k) / 2 = S (k / 2))%nat.
Proof. change (S (S k)) with (1 * 2 + k)%nat. rewrite Nat.div_add_l; lia. Qed.

(** A connection that takes fewer writes than the events need: the loop
    stops at the write that fails, with what was written before it. *)
Lemma writeEvents_broken evs w k :
  writesLeft (response w) = Some k ->
  (k < 2 * length evs)%nat ->
  exists err w',
    writeEvents evs w = (Some err, w') /\
    As err = None /\
    backend w' = backend w /\
    (forall c, status (response w) = Some c -> status (response w') = Some c) /\
    writesLeft (response w') = Some 0%nat /\
    events (response w')
    = (events (response w) ++ take (k + k / 2) (List.concat (List.map sseFrame evs)))%list.
Proof.
  revert w k. induction evs as [|[name payload] evs IH]; intros w k Hk Hlt; [simpl in Hlt; lia|].
  cbn [writeEvents]. unfold bind at 1.
  destruct k as [|[|k]].
  - unfold writeSSEEvent, bind, http.Write, ret. rewrite Hk.
    eexists _, w. split; [reflexivity|]. split_and!; try done.
    by rewrite app_nil_r.
  - unfold writeSSEEvent, bind, http.Write, ret. rewrite Hk. cbn.
    eexists _, _. split; [reflexivity|]. cbn. split_and!; try done.
    by intros c ->.
  - destruct (writeSSEEvent_ok name payload w) as (w1 & H1 & Hb1 & Hf1 & Hs1 & He1 & Hl1).
    { unfold canWrite. rewrite Hk. lia. }
    rewrite H1. unfold bind at 1.
    destruct (Flush_spec w1) as (w2 & H2 & Hb2 & Hf2 & Hs2 & He2 & Hl2).
    rewrite H2.
    destruct (IH w2 k) as (err & w3 & H3 & Ha & Hb3 & Hs3 & Hl3 & He3).
    { rewrite Hl2, Hl1, Hk. cbn. f_equal. lia. }
    { cbn [length] in Hlt. lia. }
    exists err, w3. split; [exact H3|]. split_and!; try done.
    + congruence.
    + intros c Hc. auto.
    + rewrite He3, He2, He1. rewrite half_succ_succ.
      cbn [List.map List.concat sseFrame fst snd].
      replace (S (S k) + S (k / 2))%nat with (S (S (S (k + k / 2)))) by lia.
      cbn [app take]. by rewrite <- !app_assoc.
Qed.

Lemma Write_header data w : header (response (http.Write data w).2) = header (response w).
Proof. unfold http.Write. by destruct (writesLeft (response w)) as [[|k]|]. Qed.

Lemma writeSSEEvent_header name payload w :
  header (response (writeSSEEvent name payload w).2) = header (response w).
Proof.
  unfold writeSSEEvent, bind.
  pose proof (Write_header [Text ("event: " ++ name ++ newline)] w) as H1.
  destruct (http.Write _ w) as [[e|] w1]; simpl in *; [done|].
  pose proof (Write_header [Text "data: "; Encoded payload; Text (newline ++ newline)] w1) as H2.
  destruct (http.Write _ w1) as [[e|] w2]; simpl in *; congruence.
Qed.

Lemma writeEvents_header evs w :
  header (response (writeEvents evs w).2) = header (response w).
Proof.
  revert w. induction evs as [|[name payload] evs IH]; intros w; [done|].
  cbn [writeEvents]. unfold bind.
  pose proof (writeSSEEvent_header name payload w) as H1.
  destruct (writeSSEEvent name payload w) as [[e|] w1]; simpl in *; [done|].
  by rewrite IH.
Qed.

Lemma writeClaudeStream_header modelID resp w :
  canFlush (response w) = true ->
  header (response (writeClaudeStream modelID resp w).2) !! "Content-Type"
  = Some "text/event-stream".
Proof.
  intros Hf. unfold writeClaudeStream, bind at 1, getResponse. rewrite Hf. cbn [negb].
  set (w1 := (http.WriteHeader 200
                (http.SetHeader "Connection" "keep-alive"
                   (http.SetHeader "Cache-Control" "no-cache"
                      (http.SetHeader "Content-Type" "text/event-stream" w).2).2).2).2).
  change (header (response (writeEvents (streamEvents modelID resp) w1).2) !! "Content-Type"
          = Some "text/event-stream").
  rewrite writeEvents_header. subst w1. cbn [http.WriteHeader http.SetHeader snd response header].
  rewrite lookup_insert_ne; [|done]. rewrite lookup_insert_ne; [|done].
  by rewrite lookup_insert_eq.
Qed.

(** A JSON answer on a response that has no status line yet and a
    connection that takes the write. *)
Lemma JSON_spec code doc w :
  status (response w) = None ->
  canWrite (response w) 1 ->
  exists w',
    http.JSON_ code doc w = (None, w') /\
    backend w' = backend w /\
    status (response w') = Some code /\
    header (response w') !! "Content-Type" = Some "application/json" /\
    events (response w') = (events (response w) ++ oneDocument doc)%list.
Proof.
  intros Hs Hw. unfold http.JSON_, http.SetHeader, http.WriteHeader, http.Write, bind, canWrite in *.
  cbn. rewrite Hs. cbn.
  destruct (writesLeft (response w)) as [[|k]|]; [lia| |].
  - eexists. split; [reflexivity|]. cbn. split_and!; try done. by rewrite lookup_insert_eq.
  - eexists. split; [reflexivity|]. cbn. split_and!; try done. by rewrite lookup_insert_eq.
Qed.

End stream_more.

(** X13.  A connection that breaks during a Claude stream, after taking
    [k] of the twelve writes: the stream stops at the failing write, so
    the client has the status line and the first [k] writes with the
    flushes between them and nothing after; the error handler's 500 never
    reaches it, neither as status nor as document. *)
Theorem stream_stops_at_broken_write modelID resp w k :
  canFlush (response w) = true ->
  writesLeft (response w) = Some k ->
  (k < 12)%nat ->
  exists err w',
    server.writeClaudeStream modelID resp w = (Some err, w') /\
    let w'' := (server.openAIErrorHandler err w').2 in
    backend w'' = backend w /\
    status (response w'') = Some (default 200 (status (response w))) /\
    events (response w'')
    = (events (response w)
       ++ take (k + k / 2)
            (List.concat (List.map sseFrame (server.streamEvents modelID resp))))%list.
Proof.
  intros Hf Hk Hlt. unfold server.writeClaudeStream, bind at 1, getResponse.
  rewrite Hf. cbn [negb].
  set (w1 := (http.WriteHeader 200
                (http.SetHeader "Connection" "keep-alive"
                   (http.SetHeader "Cache-Control" "no-cache"
                      (http.SetHeader "Content-Type" "text/event-stream" w).2).2).2).2).
  destruct (writeEvents_broken (server.streamEvents modelID resp) w1 k)
    as (err & w' & H1 & Ha & Hb & Hs & Hl & He); [done|simpl; lia|].
  exists err, w'. split.
  - unfold bind, http.SetHeader, http.WriteHeader. simpl. exact H1.
  - specialize (Hs _ eq_refl).
    unfold server.openAIErrorHandler. rewrite Ha.
    unfold server.writeError, http.JSON_, http.SetHeader, http.WriteHeader, http.Write, bind, ret.
    cbn. rewrite Hl, Hs. cbn. split_and!; [by rewrite Hb|done|by rewrite He].
Qed.

(** X13, witness: a connection that takes three writes gets the first
    event, its flush and the name of the second. *)
Lemma stream_stops_at_broken_write_witness :
  exists err w',
    server.writeClaudeStream "m1" samples.answer (samples.worldTaking 3) = (Some err, w') /\
    status (response (server.openAIErrorHandler err w').2) = Some 200 /\
    length (events (response (server.openAIErrorHandler err w').2)) = 4%nat.
Proof.
  destruct (stream_stops_at_broken_write "m1" samples.answer (samples.worldTaking 3) 3)
    as (err & w' & H1 & _ & H2 & H3); [done|done|lia|].
  exists err, w'. split; [exact H1|]. split; [exact H2|]. by rewrite H3.
Defined.

(** X14.  When the response writer cannot flush, a Claude-messages
    request with [stream] set is answered with status 500 and one error
    document of type [server_error], and no event is written; the check
    comes after the dispatch, so the upstream has been called and its
    answer is dropped. *)
Theorem stream_needs_flusher ing s now body w req b1 :
  server.decodeRequestBody (server.scan ing) (server.unmarshalClaude ing) body (backend w)
    = (Ok req, b1) ->
  translator.clStream req = true ->
  canFlush (response w) = false ->
  status (response w) = None ->
  let unifiedReq := (translator.ClaudeMessageRequest_ToUnified req b1).1 in
  let b2 := (translator.ClaudeMessageRequest_ToUnified req b1).2 in
  let dispatched :=
    {| Model_ := Model_ unifiedReq; Messages := Messages unifiedReq;
       Stream := false; Options := Options unifiedReq |} in
  forall resp modelInfo b3,
    router.Chat (server.router s) dispatched b2 = (Ok (Some resp, modelInfo), b3) ->
    let w' := (server.ServeHTTP ing s now server.Messages body w).2 in
    backend w' = b3 /\
    status (response w') = Some 500 /\
    (canWrite (response w) 1 ->
     events (response w')
     = (events (response w)
        ++ oneDocument (server.errorBody_json "server does not support streaming responses"
                          "server_error" ""))%list).
Proof.
  intros Hd Hst Hf Hs unifiedReq b2 dispatched resp modelInfo b3 Hr w'.
  assert (server.handler ing s now server.Messages body w
          = (Some (Request {| errors.Status := 500;
                              errors.Message := "server does not support streaming responses";
                              errors.Type_ := "server_error"; errors.Code := "" |}),
             {| backend := b3; response := response w |})) as Hh.
  { cbn [server.handler]. unfold server.handleClaudeMessages, bind, liftB.
    rewrite Hd; cbn [backend response].
    subst unifiedReq b2 dispatched.
    destruct (translator.ClaudeMessageRequest_ToUnified req b1) as [u b2'].
    cbn [fst snd backend response] in *. rewrite Hr, Hst.
    unfold server.writeClaudeStream, bind, getResponse. cbn [response]. by rewrite Hf. }
  subst w'. rewrite (ServeHTTP_request_error ing s now _ _ _ _ _ Hh).
  match type of Hh with
  | _ = (Some (Request ?e), ?w1) =>
      destruct (openAIErrorHandler_request e w1 Hs) as (H1 & H2 & H3)
  end.
  split_and!; [by rewrite H2|exact H1|exact H3].
Qed.

(** X14, witness: a streamed request for [alias-x] on a writer that is no
    flusher. *)
Lemma stream_needs_flusher_witness :
  let w' := (server.ServeHTTP (examples.ingressFor "alias-x" true) examples.srv 0
               server.Messages "{}" samples.worldWithoutFlusher).2 in
  status (response w') = Some 500 /\
  events (response w')
  = oneDocument (server.errorBody_json "server does not support streaming responses"
                   "server_error" "").
Proof.
  edestruct (stream_needs_flusher (examples.ingressFor "alias-x" true) examples.srv 0 "{}"
               samples.worldWithoutFlusher (examples.claudeFor "alias-x" true))
    as (_ & H1 & H2).
  - vm_compute. reflexivity.
  - reflexivity.
  - reflexivity.
  - reflexivity.
  - vm_compute. reflexivity.
  - split; [exact H1|]. by apply H2.
Defined.

(** X15.  Every POST gets exactly one answer.  On a fresh response whose
    connection takes all writes, each of the three routes ends with a
    status line and either one JSON document under the content type
    [application/json], or, on the messages route only, status 200 and the
    whole event stream under [text/event-stream]; no handler writes an
    answer and then fails into a second one. *)
Theorem every_request_gets_one_answer ing s now rt body w :
  status (response w) = None ->
  events (response w) = [] ->
  writesLeft (response w) = None ->
  let w' := (server.ServeHTTP ing s now rt body w).2 in
  (exists code doc,
      status (response w') = Some code /\
      header (response w') !! "Content-Type" = Some "application/json" /\
      events (response w') = oneDocument doc) \/
  (rt = server.Messages /\
   status (response w') = Some 200 /\
   header (response w') !! "Content-Type" = Some "text/event-stream" /\
   exists modelID resp,
     events (response w')
     = List.concat (List.map sseFrame (server.streamEvents modelID resp))).
Proof.
  intros Hs He Hw w'.
  assert (forall b, canWrite (response {| backend := b; response := response w |}) 1) as Hcw.
  { intros b. unfold canWrite. cbn. by rewrite Hw. }
  assert (forall e b, server.handler ing s now rt body w
                      = (Some (Request e), {| backend := b; response := response w |}) ->
                      exists code doc,
                        status (response w') = Some code /\
                        header (response w') !! "Content-Type" = Some "application/json" /\
                        events (response w') = oneDocument doc) as Herr.
  { intros e b Hh. subst w'. rewrite (ServeHTTP_request_error ing s now _ _ _ _ _ Hh).
    unfold server.openAIErrorHandler. cbn [As]. unfold server.writeError, bind.
    destruct (JSON_spec (errors.Status e)
                (server.errorBody_json (errors.Message e) (errors.Type_ e) (errors.Code e))
                {| backend := b; response := response w |} Hs (Hcw b))
      as (w1 & H1 & _ & H2 & H3 & H4).
    rewrite H1. cbn [response] in H4. rewrite He in H4. cbn. by eauto. }
  assert (forall code doc b,
             server.handler ing s now rt body w
             = http.JSON_ code doc {| backend := b; response := response w |} ->
             exists code doc,
               status (response w') = Some code /\
               header (response w') !! "Content-Type" = Some "application/json" /\
               events (response w') = oneDocument doc) as Hok.
  { intros code doc b Hh. subst w'. unfold server.ServeHTTP, bind. rewrite Hh.
    destruct (JSON_spec code doc {| backend := b; response := response w |} Hs (Hcw b))
      as (w1 & H1 & _ & H2 & H3 & H4).
    rewrite H1. cbn [response] in H4. rewrite He in H4. cbn. by eauto. }
  destruct rt; cbn [server.handler] in Herr, Hok.
  - left. unfold server.handleChatCompletions, bind, liftB in Herr, Hok.
    destruct (server.decodeRequestBody _ (server.unmarshalChat ing) body (backend w))
      as [[e|req] b1] eqn:Hd.
    { destruct (decodeRequestBody_error ing _ _ _ _ _ Hd) as [msg ->]. by eapply Herr. }
    cbn [backend response] in Herr, Hok.
    destruct (translator.ChatCompletionRequest_ToUnified req b1) as [u b2].
    cbn [backend response] in Herr, Hok.
    destruct (router.Chat (server.router s) u b2) as [[e|[[resp|] modelInfo]] b3].
    + by eapply Herr.
    + by eapply Hok.
    + by eapply Herr.
  - left. unfold server.handleCompletions, bind, liftB in Herr, Hok.
    destruct (server.decodeRequestBody _ (server.unmarshalCompletion ing) body (backend w))
      as [[e|req] b1] eqn:Hd.
    { destruct (decodeRequestBody_error ing _ _ _ _ _ Hd) as [msg ->]. by eapply Herr. }
    cbn [backend response] in Herr, Hok.
    destruct (translator.CompletionRequest_ToUnified req b1) as [u b2].
    cbn [backend response] in Herr, Hok.
    destruct (router.Completion (server.router s) u b2) as [[e|[[resp|] modelInfo]] b3].
    + by eapply Herr.
    + by eapply Hok.
    + by eapply Herr.
  - unfold server.handleClaudeMessages, bind, liftB in Herr, Hok.
    destruct (server.decodeRequestBody _ (server.unmarshalClaude ing) body (backend w))
      as [[e|req] b1] eqn:Hd.
    { left. destruct (decodeRequestBody_error ing _ _ _ _ _ Hd) as [msg ->]. by eapply Herr. }
    cbn [backend response] in Herr, Hok.
    destruct (translator.ClaudeMessageRequest_ToUnified req b1) as [u b2] eqn:Hu.
    cbn [backend response] in Herr, Hok.
    destruct (router.Chat (server.router s) _ b2) as [[e|[[resp|] modelInfo]] b3] eqn:Hr.
    + left. by eapply Herr.
    + destruct (translator.clStream req) eqn:Hst; [|left; by eapply Hok].
      destruct (canFlush (response w)) eqn:Hf.
      * right. clear Herr Hok. subst w'.
        unfold server.ServeHTTP, bind at 1. cbn [server.handler].
        unfold server.handleClaudeMessages, bind, liftB. rewrite Hd. cbn [backend response].
        rewrite Hu. cbn [backend response]. rewrite Hr, Hst.
        set (w3 := {| backend := b3; response := response w |}).
        destruct (writeClaudeStream_ok (models.ID modelInfo) resp w3) as (w4 & H1 & _ & H2 & H3);
          [exact Hf|unfold canWrite; cbn; by rewrite Hw|].
        pose proof (writeClaudeStream_header (models.ID modelInfo) resp w3 Hf) as Hh.
        rewrite H1 in Hh. cbn [snd] in Hh.
        rewrite H1. unfold ret. cbn [snd]. split_and!.
        -- reflexivity.
        -- subst w3. cbn [response] in H2. by rewrite Hs in H2.
        -- exact Hh.
        -- subst w3. cbn [response] in H3. rewrite He in H3. by eauto.
      * left. eapply Herr. unfold server.writeClaudeStream, bind, getResponse. cbn [response].
        by rewrite Hf.
    + left. by eapply Herr.
Qed.

(** X15, witness: a chat for [alias-x] is answered with one document and
    status 200. *)
Lemma every_request_gets_one_answer_witness :
  let w' := (server.ServeHTTP (examples.ingressFor "alias-x" false) examples.srv 0
               server.ChatCompletions "{}" examples.world0).2 in
  (exists code doc,
      status (response w') = Some code /\
      header (response w') !! "Content-Type" = Some "application/json" /\
      events (response w') = oneDocument doc) \/
  (server.ChatCompletions = server.Messages /\
   status (response w') = Some 200 /\
   header (response w') !! "Content-Type" = Some "text/event-stream" /\
   exists modelID resp,
     events (response w')
     = List.concat (List.map sseFrame (server.streamEvents modelID resp))).
Proof.
  apply (every_request_gets_one_answer (examples.ingressFor "alias-x" false) examples.srv 0
           server.ChatCompletions "{}" examples.world0); reflexivity.
Defined.

(** ** OpenAI adapter *)

Section openai_more.

Lemma copyMessages_blank msgs acc :
  existsb blankContent msgs = true ->
  openai.copyMessages msgs acc = Err (New "message content must not be empty").
Proof.
  revert acc. induction msgs as [|m msgs IH]; intros acc H; [done|].
  cbn [existsb] in H. cbn [openai.copyMessages]. fold (blankContent m).
  destruct (blankContent m); [done|]. by apply IH.
Qed.

Lemma copyMessages_copies msgs acc :
  existsb blankContent msgs = false ->
  openai.copyMessages msgs acc = Ok (acc ++ List.map openAIMessageOf msgs)%list.
Proof.
  revert acc. induction msgs as [|m msgs IH]; intros acc H.
  - simpl. by rewrite app_nil_r.
  - cbn [existsb] in H. apply orb_false_iff in H as [Hm H].
    cbn [openai.copyMessages]. fold (blankContent m). rewrite Hm.
    rewrite IH by done. cbn [List.map]. by rewrite <- app_assoc.
Qed.

Lemma setIf_lookup_ne {A} (key : string) (f : A -> any) (v : option A) (m : bag) (k : string) :
  k <> key -> translator.setIf key f v m !! k = m !! k.
Proof.
  intros Hk. unfold translator.setIf. destruct v as [a|]; [|done].
  by rewrite lookup_insert_ne.
Qed.

Lemma setIf_lookup_eq {A} (key : string) (f : A -> any) (v : option A) (m : bag) :
  translator.setIf key f v m !! key
  = match v with Some a => Some (f a) | None => m !! key end.
Proof.
  unfold translator.setIf. destruct v as [a|]; [|done]. by rewrite lookup_insert_eq.
Qed.

(** The conversion to the canonical request puts the options into a new
    map, which reads as the options of the request. *)
Lemma ToUnified_chat_options req b :
  let u := (translator.ChatCompletionRequest_ToUnified req b).1 in
  let b1 := (translator.ChatCompletionRequest_ToUnified req b).2 in
  deref (store b1) (Options u) = translator.Options req /\
  Messages u = translator.toMessages (translator.Messages req) /\
  Stream u = translator.Stream req.
Proof.
  unfold translator.ChatCompletionRequest_ToUnified, bind, ret, allocMap, liftH. cbn.
  rewrite lookup_insert_eq. cbn. by rewrite range_copy.
Qed.

Lemma validateChatMessages_content i msgs :
  translator.validateChatMessages i msgs = None ->
  existsb blankContent (translator.toMessages msgs) = false.
Proof.
  revert i. induction msgs as [|m msgs IH]; intros i H; [done|].
  cbn [translator.validateChatMessages] in H.
  destruct (translator.ChatMessage_validate m) eqn:Hm; [done|].
  cbn [translator.toMessages List.map existsb]. fold (translator.toMessages msgs).
  rewrite (IH _ H), orb_false_r. unfold translator.ChatMessage_validate in Hm.
  destruct (negb _); [done|]. unfold blankContent. cbn [models.Content].
  by destruct (String.eqb (strings.TrimSpace (translator.Content m)) "").
Qed.

End openai_more.

(** X16.  The OpenAI adapter does not look at roles: it refuses a chat
    exactly when one of its messages has no content, and otherwise sends
    every message as it is, system and tool messages included, with role,
    content and name untouched and in order, under the request's model
    and stream flag. *)
Theorem openai_payload_keeps_messages h req :
  if existsb blankContent (Messages req)
  then openai.buildChatPayload h req = Err (New "message content must not be empty")
  else exists payload,
      openai.buildChatPayload h req = Ok payload /\
      openai.Messages payload = List.map openAIMessageOf (Messages req) /\
      openai.Model payload = Model_ req /\
      openai.Stream payload = Stream req.
Proof.
  unfold openai.buildChatPayload.
  destruct (existsb blankContent (Messages req)) eqn:Hb.
  - by rewrite copyMessages_blank.
  - rewrite copyMessages_copies by done. eexists. split; [reflexivity|]. done.
Qed.

(** X17.  One chat or completion through the OpenAI adapter makes at most
    one upstream round-trip and never writes to memory.  A request with
    the stream flag is refused with [ErrUnsupportedOperation] before
    anything is built; the round-trip, if there is one, is a POST of the
    encoded payload built for the request, to the chat endpoint for a chat
    and to the legacy endpoint for a completion. *)
Theorem openai_calls_upstream_once lib p w :
  (forall req,
      let w' := (openai.Chat lib p req w).2 in
      store w' = store w /\
      (Stream req = true ->
       exists msg, openai.Chat lib p req w
                   = (Err (Wrap msg (Sentinel ErrUnsupportedOperation)), w)) /\
      (calls w' = calls w \/
       exists payload body,
         Stream req = false /\
         openai.buildChatPayload (store w) req = Ok payload /\
         openai.marshalChat lib (store w) payload = Ok body /\
         calls w' = (calls w ++ [ {| Method := "POST"; URL := openai.chatURL p;
                                     Body := OtherPayload body |} ])%list)) /\
  (forall req,
      let w' := (openai.Completion lib p req w).2 in
      store w' = store w /\
      (cStream req = true ->
       exists msg, openai.Completion lib p req w
                   = (Err (Wrap msg (Sentinel ErrUnsupportedOperation)), w)) /\
      (calls w' = calls w \/
       exists payload body,
         cStream req = false /\
         openai.buildCompletionPayload (store w) req = Ok payload /\
         openai.marshalCompletion lib (store w) payload = Ok body /\
         calls w' = (calls w ++ [ {| Method := "POST"; URL := openai.legacyURL p;
                                     Body := OtherPayload body |} ])%list)).
Proof.
  split; intros req.
  - unfold openai.Chat. destruct (Stream req) eqn:Hst.
    { cbn. split_and!; [done|by eauto|by left]. }
    unfold bind, getStore.
    destruct (openai.buildChatPayload (store w) req) as [e|payload] eqn:Hb;
      [cbn; split_and!; [done|done|by left]|].
    unfold openai.newRequest.
    destruct (openai.marshalChat lib (store w) payload) as [e|body] eqn:Hm;
      [cbn; split_and!; [done|done|by left]|].
    destruct (openai.newRequestError lib _);
      [cbn; split_and!; [done|done|by left]|].
    unfold openai.Do.
    assert (forall (res : result UnifiedChatResponse) w1,
               w1 = {| store := store w;
                       calls := (calls w ++ [ {| Method := "POST"; URL := openai.chatURL p;
                                                 Body := OtherPayload body |} ])%list |} ->
               store (res, w1).2 = store w /\
               (false = true ->
                exists msg, (res, w1) = (Err (Wrap msg (Sentinel ErrUnsupportedOperation)), w)) /\
               (calls (res, w1).2 = calls w \/
                exists payload0 body0,
                  false = false /\
                  (Ok payload : result openai.chatPayload) = Ok payload0 /\
                  openai.marshalChat lib (store w) payload0 = Ok body0 /\
                  calls (res, w1).2
                  = (calls w ++ [ {| Method := "POST"; URL := openai.chatURL p;
                                     Body := OtherPayload body0 |} ])%list)) as Hsent.
    { intros res w1 ->. split_and!; [done|done|]. right. by exists payload, body. }
    destruct (openai.client p _) as [e|resp]; [by apply Hsent|].
    destruct (400 <=? StatusCode resp); [by apply Hsent|].
    destruct (openai.decodeChatResponse lib _ _); by apply Hsent.
  - unfold openai.Completion. destruct (cStream req) eqn:Hst.
    { cbn. split_and!; [done|by eauto|by left]. }
    unfold bind, getStore.
    destruct (openai.buildCompletionPayload (store w) req) as [e|payload] eqn:Hb;
      [cbn; split_and!; [done|done|by left]|].
    unfold openai.newRequest.
    destruct (openai.marshalCompletion lib (store w) payload) as [e|body] eqn:Hm;
      [cbn; split_and!; [done|done|by left]|].
    destruct (openai.newRequestError lib _);
      [cbn; split_and!; [done|done|by left]|].
    unfold openai.Do.
    assert (forall (res : result UnifiedCompletionResponse) w1,
               w1 = {| store := store w;
                       calls := (calls w ++ [ {| Method := "POST"; URL := openai.legacyURL p;
                                                 Body := OtherPayload body |} ])%list |} ->
               store (res, w1).2 = store w /\
               (false = true ->
                exists msg, (res, w1) = (Err (Wrap msg (Sentinel ErrUnsupportedOperation)), w)) /\
               (calls (res, w1).2 = calls w \/
                exists payload0 body0,
                  false = false /\
                  (Ok payload : result openai.completionPayload) = Ok payload0 /\
                  openai.marshalCompletion lib (store w) payload0 = Ok body0 /\
                  calls (res, w1).2
                  = (calls w ++ [ {| Method := "POST"; URL := openai.legacyURL p;
                                     Body := OtherPayload body0 |} ])%list)) as Hsent.
    { intros res w1 ->. split_and!; [done|done|]. right. by exists payload, body. }
    destruct (openai.client p _) as [e|resp]; [by apply Hsent|].
    destruct (400 <=? StatusCode resp); [by apply Hsent|].
    destruct (openai.decodeCompletionResponse lib _ _); by apply Hsent.
Qed.

(** Reads one key of the options a request was decoded into: the entries
    set under other keys are skipped. *)
Ltac skip_options := repeat (rewrite setIf_lookup_ne by discriminate).
Ltac read_option := skip_options; rewrite setIf_lookup_eq.
Ltac no_option := skip_options; rewrite lookup_empty.

(** X18.  What the chat route decodes, the OpenAI adapter sends.  For a
    chat request that the ingress translator accepts, converted to the
    canonical request and given the copy of its options the dispatcher
    makes, the adapter builds a payload, and in it every message and every
    option is the client's: the sampling numbers and [max_tokens] as
    given (a zero is still sent), the stop values as parsed, the raw
    [tools] and [tool_choice] documents, the [response_format] and
    [metadata] maps by reference, [logit_bias] and [user]. *)
Theorem chat_request_reaches_openai_payload raw req b id :
  translator.ChatCompletionRequest_UnmarshalJSON raw = Ok req ->
  let u := (translator.ChatCompletionRequest_ToUnified req b).1 in
  let b1 := (translator.ChatCompletionRequest_ToUnified req b).2 in
  let o := (router.cloneOptions (Options u) b1).1 in
  let b2 := (router.cloneOptions (Options u) b1).2 in
  exists stops,
    translator.parseStop (translator.raw_Stop raw) = Ok stops /\
    openai.buildChatPayload (store b2)
      {| Model_ := id; Messages := Messages u; Stream := Stream u; Options := o |}
    = Ok {| openai.Model := id;
            openai.Messages :=
              List.map (fun m => {| openai.Role := translator.Role m;
                                    openai.Content := translator.Content m;
                                    openai.Name := translator.Name m |})
                       (translator.raw_Messages raw);
            openai.Stream := translator.raw_Stream raw;
            openai.MaxTokens := translator.raw_MaxTokens raw;
            openai.Temperature := translator.raw_Temperature raw;
            openai.TopP := translator.raw_TopP raw;
            openai.FrequencyPenalty := translator.raw_FrequencyPenalty raw;
            openai.PresencePenalty := translator.raw_PresencePenalty raw;
            openai.Stop := stops;
            openai.ResponseFormat := translator.raw_ResponseFormat raw;
            openai.Tools := openai.RawDocument <$> translator.raw_Tools raw;
            openai.ToolChoice := openai.RawDocument <$> translator.raw_ToolChoice raw;
            openai.LogitBias := translator.raw_LogitBias raw;
            openai.Metadata := translator.raw_Metadata raw;
            openai.User := translator.raw_User raw |}.
Proof.
  intros Hreq u b1 o b2.
  unfold translator.ChatCompletionRequest_UnmarshalJSON in Hreq.
  destruct (translator.parseStop (translator.raw_Stop raw)) as [e|stops]; [done|].
  exists stops. split; [done|].
  destruct (translator.ChatCompletionRequest_validate _) eqn:Hv; [done|].
  injection Hreq as <-.
  unfold translator.ChatCompletionRequest_validate in Hv. cbn in Hv.
  destruct (String.eqb (strings.TrimSpace (translator.raw_Model raw)) ""); [done|].
  assert (existsb blankContent (translator.toMessages (translator.raw_Messages raw)) = false)
    as Hc.
  { destruct (translator.raw_Messages raw); [done|]. by eapply validateChatMessages_content. }
  match goal with
  | u := (translator.ChatCompletionRequest_ToUnified ?r b).1 |- _ =>
      destruct (ToUnified_chat_options r b) as (Ho & Hm & Hs)
  end.
  destruct (cloneOptions_spec (Options u) b1) as (o' & w1 & Hcl & _ & Hd & _).
  subst o b2. rewrite Hcl. cbn [fst snd].
  unfold openai.buildChatPayload. cbn [Messages Options Model_ Stream].
  fold u in Hm, Hs. fold u b1 in Ho. rewrite Hm, Hs. cbn [translator.Messages translator.Stream].
  rewrite copyMessages_copies by done.
  rewrite Hd, Ho. cbn [translator.Options app].
  f_equal. f_equal.
  - unfold translator.toMessages. rewrite List.map_map. done.
  - unfold openai.extractInt. read_option.
    destruct (translator.raw_MaxTokens raw); [done|]. by no_option.
  - unfold openai.extractFloat. read_option.
    destruct (translator.raw_Temperature raw); [done|]. by no_option.
  - unfold openai.extractFloat. read_option.
    destruct (translator.raw_TopP raw); [done|]. by no_option.
  - unfold openai.extractFloat. read_option.
    destruct (translator.raw_FrequencyPenalty raw); [done|]. by no_option.
  - unfold openai.extractFloat. read_option.
    destruct (translator.raw_PresencePenalty raw); [done|]. by no_option.
  - unfold openai.extractStringSlice. read_option.
    destruct stops; [|done]. cbn [translator.nonEmpty]. by no_option.
  - unfold openai.extractMap. read_option.
    destruct (translator.raw_ResponseFormat raw); [done|]. by no_option.
  - unfold openai.extractRaw. read_option.
    destruct (translator.raw_Tools raw); [done|]. by no_option.
  - unfold openai.extractRaw. read_option.
    destruct (translator.raw_ToolChoice raw); [done|]. by no_option.
  - unfold openai.extractLogitBias. read_option.
    destruct (translator.raw_LogitBias raw); [done|]. by no_option.
  - unfold openai.extractMap. read_option.
    destruct (translator.raw_Metadata raw); [done|]. by no_option.
  - unfold openai.extractString. read_option.
    destruct (String.eqb (translator.raw_User raw) "") eqn:Hu; [|done].
    apply String.eqb_eq in Hu. rewrite Hu. by no_option.
Qed.

(** X18, witness: the chat request of scenario S2 with the stop array
    [[" a"]]; the payload carries the stop value [a] and [max_tokens] 5. *)
Lemma chat_request_reaches_openai_payload_witness :
  let raw := examples.chatWithStop (JArray [JString " a"]) in
  exists req payload,
    translator.ChatCompletionRequest_UnmarshalJSON raw = Ok req /\
    (let u := (translator.ChatCompletionRequest_ToUnified req examples.w0).1 in
     let b1 := (translator.ChatCompletionRequest_ToUnified req examples.w0).2 in
     openai.buildChatPayload (store (router.cloneOptions (Options u) b1).2)
       {| Model_ := "m1"; Messages := Messages u; Stream := Stream u;
          Options := (router.cloneOptions (Options u) b1).1 |} = Ok payload) /\
    openai.Stop payload = ["a"] /\
    openai.MaxTokens payload = Some 5 /\
    openai.Messages payload
    = [ {| openai.Role := "user"; openai.Content := "hi"; openai.Name := "" |} ].
Proof.
  intros raw.
  destruct (translator.ChatCompletionRequest_UnmarshalJSON raw) as [e|req] eqn:Hreq;
    [by vm_compute in Hreq|].
  destruct (chat_request_reaches_openai_payload raw req examples.w0 "m1" Hreq)
    as (stops & Hs & Hp).
  vm_compute in Hs. injection Hs as <-.
  eexists _, _. split; [reflexivity|]. split; [exact Hp|]. by split_and!.
Defined.

(** X19.  What an OpenAI upstream answers, the chat route returns: the
    translation of the upstream response, written back for the client,
    has the upstream's id, the message and finish reason of the first
    choice as the only choice (index 0), the model id and time the
    handler gives, and the upstream's usage, left out when the upstream
    sent none or only zeros.  An answer without choices fails with a plain
    error, which is answered as an upstream error. *)
Theorem openai_answer_reaches_client (r : openai.chatResponse) modelID createdUnix :
  match openai.Choices r with
  | [] =>
      exists msg,
        openai.chatResponse_toUnified r = Err (New msg) /\
        errors.Status (server.toHTTPError (New msg)) = 502
  | choice :: _ =>
      exists resp,
        openai.chatResponse_toUnified r = Ok resp /\
        translator.FromUnifiedChat modelID createdUnix resp
        = {| translator.crID := openai.ID r;
             translator.crObject := "chat.completion";
             translator.crCreated := createdUnix;
             translator.crModel := modelID;
             translator.crChoices :=
               [ {| translator.chIndex := 0;
                    translator.chMessage :=
                      {| translator.Role := openai.Role (openai.Message choice);
                         translator.Content := openai.Content (openai.Message choice);
                         translator.Name := openai.Name (openai.Message choice) |};
                    translator.chFinishReason := openai.FinishReason choice |} ];
             translator.crUsage :=
               match openai.Usage r with
               | None => None
               | Some u =>
                   if (openai.PromptTokens u =? 0) && (openai.CompletionTokens u =? 0)
                      && (openai.TotalTokens u =? 0)
                   then None
                   else Some {| translator.uPromptTokens := openai.PromptTokens u;
                                translator.uCompletionTokens := openai.CompletionTokens u;
                                translator.uTotalTokens := openai.TotalTokens u |}
               end |}
  end.
Proof.
  unfold openai.chatResponse_toUnified.
  destruct (openai.Choices r) as [|choice rest]; [by eauto|].
  eexists. split; [reflexivity|].
  unfold translator.FromUnifiedChat, translator.usageOf. cbn. f_equal.
  destruct (openai.Usage r) as [u|]; cbn; [|done].
  destruct (openai.PromptTokens u =? 0), (openai.CompletionTokens u =? 0),
    (openai.TotalTokens u =? 0); done.
Qed.

(** ** Completions and message contents *)

Section ingress_more.

Lemma ToUnified_completion_options req b :
  let u := (translator.CompletionRequest_ToUnified req b).1 in
  let b1 := (translator.CompletionRequest_ToUnified req b).2 in
  deref (store b1) (cOptions u) = translator.compOptions req /\
  cPrompt u = translator.compPrompt req /\
  cStream u = translator.compStream req /\
  cMaxTokens u = translator.firstOrDefaultInt (translator.compMaxTokens req) /\
  cTemperature u = translator.firstOrDefaultFloat (translator.compTemperature req).
Proof.
  unfold translator.CompletionRequest_ToUnified, bind, ret, allocMap, liftH. cbn.
  rewrite lookup_insert_eq. cbn. by rewrite range_copy.
Qed.

Lemma UnmarshalBlock_text (text : string) :
  UnmarshalBlock (examples.textBlock text) = Some ("text", text).
Proof. vm_compute. reflexivity. Qed.

Lemma UnmarshalBlocks_text (texts : list string) :
  mapM UnmarshalBlock (List.map examples.textBlock texts)
  = Some (List.map (fun text => ("text", text)) texts).
Proof.
  induction texts as [|t texts IH]; [done|].
  cbn [List.map mapM]. rewrite UnmarshalBlock_text. cbn [mbind option_bind].
  cbn [mapM] in IH. rewrite IH. reflexivity.
Qed.

Lemma writeSegments_text (texts : list string) (builder : string) :
  ingress.writeSegments (List.map (fun text => ("text", text)) texts) builder
  = Ok (builder ++ String.concat "" texts).
Proof.
  revert builder. induction texts as [|t texts IH]; intros builder.
  - simpl. by rewrite append_nil_r.
  - cbn [List.map ingress.writeSegments]. change (String.eqb "text" "text") with true.
    cbn [negb]. rewrite IH, concat_cons. by rewrite append_assoc.
Qed.

End ingress_more.

(** X20.  What the completions route decodes, the OpenAI adapter sends,
    with three exceptions.  For a completion request that the ingress
    translator accepts, converted to the canonical request and given the
    dispatcher's copy of its options, the adapter builds a payload with
    the client's prompt (a list of strings joined by line feeds), stream
    flag and [top_p]; [max_tokens] is sent only when it is positive and
    [temperature] only when it is not zero, so a client's explicit zero is
    dropped; and [stop], [logit_bias] and [user] are never sent on this
    route, whatever the client wrote. *)
Theorem completion_request_reaches_openai_payload raw req b id :
  ingress.CompletionRequest_UnmarshalJSON raw = Ok req ->
  let u := (translator.CompletionRequest_ToUnified req b).1 in
  let b1 := (translator.CompletionRequest_ToUnified req b).2 in
  let o := (router.cloneOptions (cOptions u) b1).1 in
  let b2 := (router.cloneOptions (cOptions u) b1).2 in
  exists prompt,
    ingress.extractPrompt (ingress.craw_Prompt raw) = Ok prompt /\
    openai.buildCompletionPayload (store b2)
      {| cModel := id; cPrompt := cPrompt u; cStream := cStream u;
         cMaxTokens := cMaxTokens u; cTemperature := cTemperature u; cOptions := o |}
    = Ok {| openai.cpModel := id;
            openai.cpPrompt := prompt;
            openai.cpStream := ingress.craw_Stream raw;
            openai.cpMaxTokens :=
              match ingress.craw_MaxTokens raw with
              | Some n => if 0 <? n then Some n else None
              | None => None
              end;
            openai.cpTemperature :=
              match ingress.craw_Temperature raw with
              | Some t => if float64_nonzero t then Some t else None
              | None => None
              end;
            openai.cpTopP := ingress.craw_TopP raw;
            openai.cpStop := [];
            openai.cpLogitBias := None;
            openai.cpUser := "" |}.
Proof.
  intros Hreq u b1 o b2.
  unfold ingress.CompletionRequest_UnmarshalJSON in Hreq.
  destruct (ingress.extractPrompt (ingress.craw_Prompt raw)) as [e|prompt]; [done|].
  exists prompt. split; [done|].
  cbn [translator.compModel translator.compPrompt] in Hreq.
  destruct (String.eqb (strings.TrimSpace (ingress.craw_Model raw)) ""); [done|].
  destruct (String.eqb (strings.TrimSpace prompt) "") eqn:Hp; [done|].
  injection Hreq as <-.
  match goal with
  | u := (translator.CompletionRequest_ToUnified ?r b).1 |- _ =>
      destruct (ToUnified_completion_options r b) as (Ho & Hpr & Hs & Hm & Ht)
  end.
  destruct (cloneOptions_spec (cOptions u) b1) as (o' & w1 & Hcl & _ & Hd & _).
  subst o b2. rewrite Hcl. cbn [fst snd].
  unfold openai.buildCompletionPayload. cbn [cPrompt cStream cMaxTokens cTemperature cOptions cModel].
  fold u in Hpr, Hs, Hm, Ht. fold u b1 in Ho. rewrite Hpr, Hs, Hm, Ht, Hd, Ho.
  cbn [translator.compPrompt translator.compStream translator.compMaxTokens
       translator.compTemperature translator.compOptions].
  rewrite Hp. f_equal. f_equal.
  - by destruct (ingress.craw_MaxTokens raw).
  - by destruct (ingress.craw_Temperature raw).
  - unfold openai.extractFloat. read_option.
    destruct (ingress.craw_TopP raw); [done|]. by no_option.
  - unfold openai.extractStringSlice. by no_option.
  - unfold openai.extractLogitBias. by no_option.
  - unfold openai.extractString. by no_option.
Qed.

(** X20, witness: a completion request with the prompt list [a, b] and an
    explicit temperature of zero; the payload has the prompt of two lines
    and no temperature. *)
Lemma completion_request_reaches_openai_payload_witness :
  let raw := {| ingress.craw_Model := " m1 ";
                ingress.craw_Prompt := Some (JArray [JString "a"; JString "b"]);
                ingress.craw_Stream := false;
                ingress.craw_MaxTokens := Some 16;
                ingress.craw_Temperature := Some 0;
                ingress.craw_TopP := None |} in
  exists req payload,
    ingress.CompletionRequest_UnmarshalJSON raw = Ok req /\
    (let u := (translator.CompletionRequest_ToUnified req examples.w0).1 in
     let b1 := (translator.CompletionRequest_ToUnified req examples.w0).2 in
     openai.buildCompletionPayload (store (router.cloneOptions (cOptions u) b1).2)
       {| cModel := "m1"; cPrompt := cPrompt u; cStream := cStream u;
          cMaxTokens := cMaxTokens u; cTemperature := cTemperature u;
          cOptions := (router.cloneOptions (cOptions u) b1).1 |} = Ok payload) /\
    openai.cpPrompt payload = "a" ++ newline ++ "b" /\
    openai.cpMaxTokens payload = Some 16 /\
    openai.cpTemperature payload = None.
Proof.
  intros raw.
  destruct (ingress.CompletionRequest_UnmarshalJSON raw) as [e|req] eqn:Hreq;
    [by vm_compute in Hreq|].
  destruct (completion_request_reaches_openai_payload raw req examples.w0 "m1" Hreq)
    as (prompt & Hs & Hp).
  vm_compute in Hs. injection Hs as <-.
  eexists _, _. split; [reflexivity|]. split; [exact Hp|]. by split_and!.
Defined.

(** X21.  On the chat route a message whose content is an array of text
    segments decodes to the same message as one whose content is the
    string of their texts, concatenated without a separator; role and
    name are trimmed, the content is not. *)
Theorem chat_content_shapes_agree (role name : string) (texts : list string) :
  ingress.ChatMessage_UnmarshalJSON
    {| ingress.raw_Role := role;
       ingress.raw_Content := Some (JArray (List.map examples.textBlock texts));
       ingress.raw_Name := name |}
  = ingress.ChatMessage_UnmarshalJSON
      {| ingress.raw_Role := role;
         ingress.raw_Content := Some (JString (String.concat "" texts));
         ingress.raw_Name := name |} /\
  forall m,
    ingress.ChatMessage_UnmarshalJSON
      {| ingress.raw_Role := role;
         ingress.raw_Content := Some (JString (String.concat "" texts));
         ingress.raw_Name := name |} = Ok m ->
    m = {| translator.Role := strings.TrimSpace role;
           translator.Content := String.concat "" texts;
           translator.Name := strings.TrimSpace name |}.
Proof.
  unfold ingress.ChatMessage_UnmarshalJSON, ingress.extractMessageContent.
  cbn [ingress.raw_Content ingress.raw_Role ingress.raw_Name UnmarshalString UnmarshalBlocks].
  rewrite UnmarshalBlocks_text, writeSegments_text. split; [done|].
  intros m. destruct (translator.ChatMessage_validate _); [done|]. by intros [= <-].
Qed.

(** X21, witness: the segments [Hel] and [lo] under the role [ user ]. *)
Lemma chat_content_shapes_agree_witness :
  ingress.ChatMessage_UnmarshalJSON
    {| ingress.raw_Role := " user ";
       ingress.raw_Content := Some (JArray [examples.textBlock "Hel"; examples.textBlock "lo"]);
       ingress.raw_Name := "" |}
  = Ok {| translator.Role := "user"; translator.Content := "Hello"; translator.Name := "" |}.
Proof.
  destruct (chat_content_shapes_agree " user " "" ["Hel"; "lo"]) as [H1 H2].
  cbn [List.map] in H1. rewrite H1.
  destruct (ingress.ChatMessage_UnmarshalJSON _) as [e|m] eqn:Hm; [by vm_compute in Hm|].
  rewrite (H2 m eq_refl). vm_compute. reflexivity.
Defined.

(** ** Configuration and construction *)

Section config_more.






End config_more.



Section constructors.

Lemma bytes_bounded (s : string) : Forall (fun c => (c < 256)%N) (strings.bytes s).
Proof.
  unfold strings.bytes. induction (list_ascii_of_string s) as [|a l IH]; [done|].
  cbn [List.map]. apply List.Forall_cons; [apply N_ascii_bounded|done].
Qed.

Lemma bytes_of_bytes (l : list N) :
  Forall (fun c => (c < 256)%N) l -> strings.bytes (strings.of_bytes l) = l.
Proof.
  intros H. unfold strings.bytes, strings.of_bytes.
  rewrite list_ascii_of_string_of_list_ascii.
  induction H as [|c l Hc _ IH]; [done|].
  cbn [List.map]. by rewrite N_ascii_embedding, IH.
Qed.

Lemma dropLeading_bounded cutset l :
  Forall (fun c => (c < 256)%N) l -> Forall (fun c => (c < 256)%N) (dropLeading cutset l).
Proof.
  induction 1 as [|c l Hc H IH]; [done|].
  cbn [dropLeading]. destruct (existsb _ cutset); [done|]. by apply List.Forall_cons.
Qed.

Lemma dropLeading_idem cutset l :
  dropLeading cutset (dropLeading cutset l) = dropLeading cutset l.
Proof.
  induction l as [|c l IH]; [done|].
  cbn [dropLeading]. destruct (existsb (N.eqb c) cutset) eqn:Hc; [done|].
  cbn [dropLeading]. by rewrite Hc.
Qed.

(** Trimming twice is trimming once: the adapters of the NVIDIA provider
    get the base URL the provider has trimmed already. *)
Lemma TrimRight_idem s cutset : TrimRight (TrimRight s cutset) cutset = TrimRight s cutset.
Proof.
  unfold TrimRight at 1. unfold TrimRight at 1. rewrite bytes_of_bytes.
  - rewrite rev_involutive, dropLeading_idem. done.
  - apply Forall_rev, dropLeading_bounded, Forall_rev, bytes_bounded.
Qed.

Lemma openai_listModels_ok name ms acc :
  Forall (fun m => config.APIStyle m = "openai") ms ->
  openai.listModels name ms acc = Ok (acc ++ List.map (listed name) ms)%list.
Proof.
  intros H. revert acc. induction H as [|m ms Hm _ IH]; intros acc.
  - simpl. by rewrite app_nil_r.
  - cbn [openai.listModels]. rewrite Hm. change (String.eqb "openai" "openai") with true.
    cbn [negb]. rewrite IH. cbn [List.map]. rewrite <- app_assoc.
    unfold listed at 2. by rewrite Hm.
Qed.

Lemma openai_listModels_inv name ms acc l :
  openai.listModels name ms acc = Ok l ->
  Forall (fun m => config.APIStyle m = "openai") ms.
Proof.
  revert acc. induction ms as [|m ms IH]; intros acc H; [done|].
  cbn [openai.listModels] in H.
  destruct (String.eqb_spec (config.APIStyle m) "openai") as [Hm|Hm]; [|done].
  cbn [negb] in H. apply List.Forall_cons; [done|]. by eapply IH.
Qed.

Lemma claude_listModels_ok name ms acc :
  Forall (fun m => config.APIStyle m = "claude") ms ->
  claudeProvider.listModels name ms acc = Ok (acc ++ List.map (listed name) ms)%list.
Proof.
  intros H. revert acc. induction H as [|m ms Hm _ IH]; intros acc.
  - simpl. by rewrite app_nil_r.
  - cbn [claudeProvider.listModels]. rewrite Hm.
    change (String.eqb "claude" "claude") with true.
    cbn [negb]. rewrite IH. cbn [List.map]. rewrite <- app_assoc.
    unfold listed at 2. by rewrite Hm.
Qed.

Lemma claude_listModels_inv name ms acc l :
  claudeProvider.listModels name ms acc = Ok l ->
  Forall (fun m => config.APIStyle m = "claude") ms.
Proof.
  revert acc. induction ms as [|m ms IH]; intros acc H; [done|].
  cbn [claudeProvider.listModels] in H.
  destruct (String.eqb_spec (config.APIStyle m) "claude") as [Hm|Hm]; [|done].
  cbn [negb] in H. apply List.Forall_cons; [done|]. by eapply IH.
Qed.

Lemma openai_New_ok name cfg client :
  TrimRight (config.BaseURL cfg) "/" <> "" ->
  Forall (fun m => config.APIStyle m = "openai") (config.Models cfg) ->
  openai.New name cfg (Some client)
  = Ok {| openai.name := name;
          openai.apiKey := config.APIKey cfg;
          openai.baseURL := TrimRight (config.BaseURL cfg) "/";
          openai.client := client;
          openai.models := List.map (listed name) (config.Models cfg);
          openai.chatURL := TrimRight (config.BaseURL cfg) "/" ++ "/chat/completions";
          openai.legacyURL := TrimRight (config.BaseURL cfg) "/" ++ "/completions" |}.
Proof.
  intros Hb Hm. unfold openai.New. apply String.eqb_neq in Hb. rewrite Hb.
  by rewrite openai_listModels_ok.
Qed.

Lemma openai_New_inv name cfg client p :
  openai.New name cfg client = Ok p ->
  TrimRight (config.BaseURL cfg) "/" <> "" /\
  Forall (fun m => config.APIStyle m = "openai") (config.Models cfg).
Proof.
  unfold openai.New. destruct client as [c|]; [|done].
  destruct (String.eqb_spec (TrimRight (config.BaseURL cfg) "/") "") as [Hb|Hb]; [done|].
  destruct (openai.listModels _ _ _) as [e|l] eqn:Hl; [done|].
  intros _. split; [done|]. by eapply openai_listModels_inv.
Qed.

Lemma claude_New_ok name cfg client :
  TrimRight (config.BaseURL cfg) "/" <> "" ->
  Forall (fun m => config.APIStyle m = "claude") (config.Models cfg) ->
  claudeProvider.New name cfg (Some client)
  = Ok {| claude.name := name;
          claude.apiKey := config.APIKey cfg;
          claude.baseURL := TrimRight (config.BaseURL cfg) "/";
          claude.client := client;
          claude.models := List.map (listed name) (config.Models cfg);
          claude.messages := TrimRight (config.BaseURL cfg) "/" ++ "/v1/messages" |}.
Proof.
  intros Hb Hm. unfold claudeProvider.New. apply String.eqb_neq in Hb. rewrite Hb.
  by rewrite claude_listModels_ok.
Qed.

Lemma claude_New_inv name cfg client p :
  claudeProvider.New name cfg client = Ok p ->
  TrimRight (config.BaseURL cfg) "/" <> "" /\
  Forall (fun m => config.APIStyle m = "claude") (config.Models cfg).
Proof.
  unfold claudeProvider.New. destruct client as [c|]; [|done].
  destruct (String.eqb_spec (TrimRight (config.BaseURL cfg) "/") "") as [Hb|Hb]; [done|].
  destruct (claudeProvider.listModels _ _ _) as [e|l] eqn:Hl; [done|].
  intros _. split; [done|]. by eapply claude_listModels_inv.
Qed.

End constructors.

(** X23.  An adapter is built from a section exactly when the base URL
    is more than slashes and every model of the section has the adapter's
    own style ([openai] for the OpenAI adapter, [claude] for the Claude
    adapter).  Validation accepts either style in any section, so a valid
    section can still be refused here.  The adapter built lists the
    section's models in order under the given provider name, and its
    endpoints are the base URL, without its trailing slashes, followed by
    the path. *)
Theorem adapters_need_their_own_style name cfg client :
  let base := TrimRight (config.BaseURL cfg) "/" in
  ((exists p, openai.New name cfg (Some client) = Ok p)
   <-> base <> "" /\ Forall (fun m => config.APIStyle m = "openai") (config.Models cfg)) /\
  (forall p,
      openai.New name cfg (Some client) = Ok p ->
      openai.name p = name /\
      openai.models p = List.map (listed name) (config.Models cfg) /\
      openai.chatURL p = base ++ "/chat/completions" /\
      openai.legacyURL p = base ++ "/completions") /\
  ((exists p, claudeProvider.New name cfg (Some client) = Ok p)
   <-> base <> "" /\ Forall (fun m => config.APIStyle m = "claude") (config.Models cfg)) /\
  (forall p,
      claudeProvider.New name cfg (Some client) = Ok p ->
      claude.name p = name /\
      claude.models p = List.map (listed name) (config.Models cfg) /\
      claude.messages p = base ++ "/v1/messages") /\
  (forall m, In m (config.Models cfg) -> config.APIStyle m = "claude" ->
             config.validateAPIStyle name (config.APIStyle m) = None /\
             exists err, openai.New name cfg (Some client) = Err err).
Proof.
  intros base. split_and!.
  - split.
    + intros [p Hp]. by eapply openai_New_inv.
    + intros [Hb Hm]. eexists. by apply openai_New_ok.
  - intros p Hp. destruct (openai_New_inv _ _ _ _ Hp) as [Hb Hm].
    rewrite (openai_New_ok name cfg client Hb Hm) in Hp. by injection Hp as <-.
  - split.
    + intros [p Hp]. by eapply claude_New_inv.
    + intros [Hb Hm]. eexists. by apply claude_New_ok.
  - intros p Hp. destruct (claude_New_inv _ _ _ _ Hp) as [Hb Hm].
    rewrite (claude_New_ok name cfg client Hb Hm) in Hp. by injection Hp as <-.
  - intros m Hin Hs. split; [by rewrite Hs|].
    destruct (openai.New name cfg (Some client)) as [e|p] eqn:Hp; [by eauto|].
    destruct (openai_New_inv _ _ _ _ Hp) as [_ Hm].
    rewrite List.Forall_forall in Hm. specialize (Hm m Hin). rewrite Hs in Hm.
    discriminate.
Qed.

(** X23, witness: the OpenAI section of [samples.cfg], whose base URL
    ends in a slash. *)
Lemma adapters_need_their_own_style_witness :
  exists p,
    openai.New "openai" samples.openaiSection (Some (fun _ => Err (External "offline"))) = Ok p /\
    openai.chatURL p = "https://api.openai.com/v1/chat/completions" /\
    List.map models.ID (openai.models p) = ["gpt-4o"].
Proof.
  destruct (adapters_need_their_own_style "openai" samples.openaiSection
              (fun _ => Err (External "offline"))) as (H1 & H2 & _).
  destruct H1 as [_ H1]. destruct H1 as [p Hp].
  - split; [vm_compute; discriminate|].
    apply List.Forall_cons; [reflexivity|apply List.Forall_nil].
  - exists p. split; [exact Hp|]. destruct (H2 p Hp) as (_ & Hm & Hc & _).
    rewrite Hm, Hc. split; vm_compute; reflexivity.
Defined.

(** ** NVIDIA provider *)

Section nvidia_more.

Lemma normalisedStyle_exact m :
  config.APIStyle m = "openai" \/ config.APIStyle m = "claude" ->
  normalisedStyle m = config.APIStyle m.
Proof. unfold normalisedStyle. by intros [-> | ->]; vm_compute. Qed.

Lemma sortModels_spec name ms acc found :
  nvidia.sortModels name ms acc = Ok found ->
  nvidia.openaiModels found
  = (nvidia.openaiModels acc
     ++ List.filter (fun m => String.eqb (normalisedStyle m) "openai") ms)%list /\
  nvidia.claudeModels found
  = (nvidia.claudeModels acc
     ++ List.filter (fun m => String.eqb (normalisedStyle m) "claude") ms)%list /\
  nvidia.allModels found
  = (nvidia.allModels acc
     ++ List.map (fun m => {| models.ID := config.ID m; models.Provider := name;
                              models.APIStyle := normalisedStyle m |}) ms)%list /\
  nvidia.styles found
  = foldl (fun s m => <[config.ID m := normalisedStyle m]> s) (nvidia.styles acc) ms /\
  Forall (fun m => normalisedStyle m = "openai" \/ normalisedStyle m = "claude") ms.
Proof.
  revert acc. induction ms as [|m ms IH]; intros acc H.
  - simpl in H. injection H as <-. simpl. by rewrite !app_nil_r.
  - cbn [nvidia.sortModels] in H. fold (normalisedStyle m) in H.
    unfold nvidia.apiStyleOpenAI, nvidia.apiStyleClaude in H.
    cbn [List.filter List.map foldl].
    destruct (String.eqb_spec (normalisedStyle m) "openai") as [Ho|Ho].
    + apply IH in H as (H1 & H2 & H3 & H4 & H5). cbn in H1, H2, H3, H4.
      rewrite Ho. change (String.eqb "openai" "claude") with false.
      rewrite H1, H2, H3, H4, <- !app_assoc. rewrite Ho in *. split_and!; try done.
      apply List.Forall_cons; [by left|done].
    + destruct (String.eqb_spec (normalisedStyle m) "claude") as [Hc|Hc]; [|done].
      apply IH in H as (H1 & H2 & H3 & H4 & H5). cbn in H1, H2, H3, H4.
      rewrite H1, H2, H3, H4, <- !app_assoc. split_and!; try done.
      apply List.Forall_cons; [by right|done].
Qed.

Lemma sortModels_ok name ms acc :
  Forall (fun m => normalisedStyle m = "openai" \/ normalisedStyle m = "claude") ms ->
  exists found, nvidia.sortModels name ms acc = Ok found.
Proof.
  intros H. revert acc. induction H as [|m ms Hm _ IH]; intros acc; [by eexists|].
  cbn [nvidia.sortModels]. fold (normalisedStyle m).
  unfold nvidia.apiStyleOpenAI, nvidia.apiStyleClaude.
  destruct Hm as [-> | ->].
  - change (String.eqb "openai" "openai") with true. cbv iota. apply IH.
  - change (String.eqb "claude" "openai") with false.
    change (String.eqb "claude" "claude") with true. cbv iota. apply IH.
Qed.

Lemma styles_lookup ms (s0 : gmap string string) id style :
  foldl (fun s m => <[config.ID m := normalisedStyle m]> s) s0 ms !! id = Some style ->
  s0 !! id = Some style \/
  exists m, In m ms /\ config.ID m = id /\ normalisedStyle m = style.
Proof.
  revert s0. induction ms as [|m ms IH]; intros s0 H; [by left|].
  cbn [foldl] in H. apply IH in H as [H|(m' & Hin & Hid & Hs)].
  - destruct (decide (config.ID m = id)) as [Heq|Hne].
    + rewrite Heq, lookup_insert_eq in H. injection H as <-. right. exists m.
      split; [by left|done].
    + rewrite lookup_insert_ne in H by done. by left.
  - right. exists m'. split; [by right|done].
Qed.

Lemma styles_kept ms (s0 : gmap string string) id :
  is_Some (s0 !! id) ->
  is_Some (foldl (fun s m => <[config.ID m := normalisedStyle m]> s) s0 ms !! id).
Proof.
  revert s0. induction ms as [|m ms IH]; intros s0 H; [done|].
  cbn [foldl]. apply IH.
  destruct (decide (config.ID m = id)) as [Heq|Hne].
  - rewrite Heq, lookup_insert_eq. by eexists.
  - by rewrite lookup_insert_ne.
Qed.

Lemma styles_listed ms (s0 : gmap string string) m :
  In m ms ->
  is_Some (foldl (fun s m => <[config.ID m := normalisedStyle m]> s) s0 ms !! config.ID m).
Proof.
  revert s0. induction ms as [|m' ms IH]; intros s0 Hin; [done|].
  cbn [foldl]. destruct Hin as [->|Hin]; [|by apply IH].
  apply styles_kept. rewrite lookup_insert_eq. by eexists.
Qed.

(** What [New] returns, when it returns a provider. *)
Lemma nvidia_New_inv name cfg client p :
  nvidia.New name cfg client = Ok p ->
  exists found,
    TrimRight (config.BaseURL cfg) "/" <> "" /\
    nvidia.sortModels name (config.Models cfg)
      {| nvidia.openaiModels := []; nvidia.claudeModels := []; nvidia.allModels := [];
         nvidia.styles := ∅ |} = Ok found /\
    nvidia.name p = name /\
    nvidia.models p = nvidia.allModels found /\
    nvidia.modelStyles p = nvidia.styles found /\
    match nvidia.openaiModels found with
    | [] => nvidia.openaiAdapter p = None
    | ms => exists a, openai.New name (sectionFor cfg ms) client = Ok a /\
                      nvidia.openaiAdapter p = Some a
    end /\
    match nvidia.claudeModels found with
    | [] => nvidia.claudeAdapter p = None
    | ms => exists a, claudeProvider.New name (sectionFor cfg ms) client = Ok a /\
                      nvidia.claudeAdapter p = Some a
    end.
Proof.
  unfold nvidia.New. destruct client as [c|]; [|done].
  destruct (String.eqb_spec (TrimRight (config.BaseURL cfg) "/") "") as [Hb|Hb]; [done|].
  destruct (nvidia.sortModels name (config.Models cfg) _) as [e|found] eqn:Hs; [done|].
  fold (sectionFor cfg).
  intros H. exists found. split; [done|]. split; [done|].
  destruct (nvidia.openaiModels found) as [|mo mso] eqn:Hmo.
  - destruct (nvidia.claudeModels found) as [|mc msc] eqn:Hmc.
    + injection H as <-. by split_and!.
    + destruct (claudeProvider.New name _ (Some c)) as [e|a] eqn:Ha; [done|].
      injection H as <-. split_and!; try done. by exists a.
  - destruct (openai.New name _ (Some c)) as [e|ao] eqn:Hao; [done|].
    destruct (nvidia.claudeModels found) as [|mc msc] eqn:Hmc.
    + injection H as <-. split_and!; try done. by exists ao.
    + destruct (claudeProvider.New name _ (Some c)) as [e|a] eqn:Ha; [done|].
      injection H as <-. split_and!; try done; by eexists.
Qed.

End nvidia_more.

(** X24.  The NVIDIA provider is built exactly when the base URL is more
    than slashes and the style of every model is [openai] or [claude] to
    the letter.  The provider lower-cases and trims the style to sort the
    models, but hands the models to the adapters as configured, and these
    compare the style as it is: a style in another case or with spaces
    around it passes the sorting and fails in the adapter. *)
Theorem nvidia_needs_exact_styles name cfg client :
  (exists p, nvidia.New name cfg (Some client) = Ok p)
  <-> TrimRight (config.BaseURL cfg) "/" <> "" /\
      Forall (fun m => config.APIStyle m = "openai" \/ config.APIStyle m = "claude")
             (config.Models cfg).
Proof.
  split.
  - intros [p Hp]. apply nvidia_New_inv in Hp as (found & Hb & Hs & _ & _ & _ & Ho & Hc).
    split; [done|].
    apply sortModels_spec in Hs as (Hmo & Hmc & _ & _ & Hall). cbn [app] in Hmo, Hmc.
    assert (Forall (fun m => config.APIStyle m = "openai") (nvidia.openaiModels found)) as Hfo.
    { destruct (nvidia.openaiModels found) as [|m ms]; [done|].
      destruct Ho as (a & Ha & _). by apply openai_New_inv in Ha as [_ Ha]. }
    assert (Forall (fun m => config.APIStyle m = "claude") (nvidia.claudeModels found)) as Hfc.
    { destruct (nvidia.claudeModels found) as [|m ms]; [done|].
      destruct Hc as (a & Ha & _). by apply claude_New_inv in Ha as [_ Ha]. }
    rewrite Hmo in Hfo. rewrite Hmc in Hfc.
    rewrite List.Forall_forall in Hfo, Hfc, Hall. apply List.Forall_forall. intros m Hin.
    destruct (Hall m Hin) as [Hn|Hn].
    + left. apply Hfo. apply List.filter_In. split; [done|]. by rewrite Hn.
    + right. apply Hfc. apply List.filter_In. split; [done|]. by rewrite Hn.
  - intros [Hb Hall].
    assert (Forall (fun m => normalisedStyle m = "openai" \/ normalisedStyle m = "claude")
                   (config.Models cfg)) as Hn.
    { eapply List.Forall_impl; [|exact Hall]. intros m Hm. cbv beta.
      rewrite (normalisedStyle_exact m Hm). done. }
    destruct (sortModels_ok name (config.Models cfg)
                {| nvidia.openaiModels := []; nvidia.claudeModels := [];
                   nvidia.allModels := []; nvidia.styles := ∅ |} Hn) as [found Hs].
    pose proof (sortModels_spec _ _ _ _ Hs) as (Hmo & Hmc & _). cbn [app] in Hmo, Hmc.
    assert (Forall (fun m => config.APIStyle m = "openai") (nvidia.openaiModels found)) as Hfo.
    { rewrite Hmo. apply List.Forall_forall. intros m [Hin Hf]%List.filter_In.
      rewrite List.Forall_forall in Hall. specialize (Hall m Hin).
      rewrite (normalisedStyle_exact m Hall) in Hf. by apply String.eqb_eq in Hf. }
    assert (Forall (fun m => config.APIStyle m = "claude") (nvidia.claudeModels found)) as Hfc.
    { rewrite Hmc. apply List.Forall_forall. intros m [Hin Hf]%List.filter_In.
      rewrite List.Forall_forall in Hall. specialize (Hall m Hin).
      rewrite (normalisedStyle_exact m Hall) in Hf. by apply String.eqb_eq in Hf. }
    assert (forall ms, TrimRight (config.BaseURL (sectionFor cfg ms)) "/" <> "") as Hb'.
    { intros ms. cbn [sectionFor config.BaseURL]. by rewrite TrimRight_idem. }
    unfold nvidia.New. cbv zeta. apply String.eqb_neq in Hb. rewrite Hb, Hs.
    destruct (nvidia.openaiModels found) as [|mo mso] eqn:Heo.
    + destruct (nvidia.claudeModels found) as [|mc msc] eqn:Hec; [by eexists|].
      pose proof (claude_New_ok name (sectionFor cfg (mc :: msc)) client (Hb' _) Hfc) as Hnc.
      unfold sectionFor in Hnc. rewrite Hnc. by eexists.
    + pose proof (openai_New_ok name (sectionFor cfg (mo :: mso)) client (Hb' _) Hfo) as Hno.
      unfold sectionFor in Hno. rewrite Hno.
      destruct (nvidia.claudeModels found) as [|mc msc] eqn:Hec; [by eexists|].
      pose proof (claude_New_ok name (sectionFor cfg (mc :: msc)) client (Hb' _) Hfc) as Hnc.
      unfold sectionFor in Hnc. rewrite Hnc. by eexists.
Qed.

(** X25.  A NVIDIA provider that was built routes by the style of the
    model.  It knows exactly the configured ids; a chat for an id of style
    [openai] is the chat of its OpenAI adapter and one for an id of style
    [claude] the chat of its Claude adapter, and both adapters exist
    whenever an id of their style does, with endpoints under the
    provider's base URL; a completion for a [claude] id is refused with
    [ErrUnsupportedOperation] and one for any other known id is the
    completion of the OpenAI adapter; an unknown id is refused with
    [ErrUnknownModel].  No request goes upstream but through an adapter. *)
Theorem nvidia_routes_by_style olib clib name cfg client p :
  nvidia.New name cfg (Some client) = Ok p ->
  let base := TrimRight (config.BaseURL cfg) "/" in
  (forall id, is_Some (nvidia.modelStyles p !! id)
              <-> exists m, In m (config.Models cfg) /\ config.ID m = id) /\
  (forall req w,
      match nvidia.modelStyles p !! Model_ req with
      | None =>
          nvidia.Chat olib clib p req w
          = (Err (Wrap ("unknown model: " ++ Model_ req) (Sentinel ErrUnknownModel)), w)
      | Some style =>
          (style = "openai" /\
           exists a, nvidia.openaiAdapter p = Some a /\
                     openai.chatURL a = base ++ "/chat/completions" /\
                     nvidia.Chat olib clib p req w = openai.Chat olib a req w) \/
          (style = "claude" /\
           exists a, nvidia.claudeAdapter p = Some a /\
                     claude.messages a = base ++ "/v1/messages" /\
                     nvidia.Chat olib clib p req w = claude.Chat clib a req w)
      end) /\
  (forall req w,
      match nvidia.modelStyles p !! cModel req with
      | None =>
          nvidia.Completion olib p req w
          = (Err (Wrap ("unknown model: " ++ cModel req) (Sentinel ErrUnknownModel)), w)
      | Some style =>
          (style = "openai" /\
           exists a, nvidia.openaiAdapter p = Some a /\
                     openai.legacyURL a = base ++ "/completions" /\
                     nvidia.Completion olib p req w = openai.Completion olib a req w) \/
          (style = "claude" /\
           exists msg, nvidia.Completion olib p req w
                       = (Err (Wrap msg (Sentinel ErrUnsupportedOperation)), w))
      end).
Proof.
  intros Hp base.
  apply nvidia_New_inv in Hp as (found & Hb & Hs & _ & _ & Hst & Ho & Hc).
  pose proof (sortModels_spec _ _ _ _ Hs) as (Hmo & Hmc & _ & Hstyles & Hall).
  cbn [app nvidia.styles] in Hmo, Hmc, Hstyles. rewrite <- Hst in Hstyles.
  assert (forall id style,
             nvidia.modelStyles p !! id = Some style ->
             (style = "openai" /\
              exists a, nvidia.openaiAdapter p = Some a /\
                        openai.chatURL a = base ++ "/chat/completions" /\
                        openai.legacyURL a = base ++ "/completions") \/
             (style = "claude" /\
              exists a, nvidia.claudeAdapter p = Some a /\
                        claude.messages a = base ++ "/v1/messages")) as Hstyle.
  { intros id style Hl. rewrite Hstyles in Hl.
    apply styles_lookup in Hl as [Hl|(m & Hin & Hid & Hn)]; [by rewrite lookup_empty in Hl|].
    rewrite List.Forall_forall in Hall. destruct (Hall m Hin) as [Hm|Hm].
    - left. split; [congruence|].
      assert (In m (nvidia.openaiModels found)) as Hmem.
      { rewrite Hmo. apply List.filter_In. split; [done|]. by rewrite Hm. }
      destruct (nvidia.openaiModels found) as [|mo mso]; [done|].
      destruct Ho as (a & Ha & Hsome). exists a. split; [done|].
      pose proof (openai_New_inv _ _ _ _ Ha) as [Hb' Hf].
      rewrite (openai_New_ok name _ client Hb' Hf) in Ha. injection Ha as <-.
      cbn [openai.chatURL openai.legacyURL sectionFor config.BaseURL].
      by rewrite TrimRight_idem.
    - right. split; [congruence|].
      assert (In m (nvidia.claudeModels found)) as Hmem.
      { rewrite Hmc. apply List.filter_In. split; [done|]. by rewrite Hm. }
      destruct (nvidia.claudeModels found) as [|mc msc]; [done|].
      destruct Hc as (a & Ha & Hsome). exists a. split; [done|].
      pose proof (claude_New_inv _ _ _ _ Ha) as [Hb' Hf].
      rewrite (claude_New_ok name _ client Hb' Hf) in Ha. injection Ha as <-.
      cbn [claude.messages sectionFor config.BaseURL].
      by rewrite TrimRight_idem. }
  split_and!.
  - intros id. rewrite Hstyles. split.
    + intros [style Hl]. apply styles_lookup in Hl as [Hl|(m & Hin & Hid & _)];
        [by rewrite lookup_empty in Hl|by eauto].
    + intros (m & Hin & <-). by apply styles_listed.
  - intros req w. unfold nvidia.Chat.
    destruct (nvidia.modelStyles p !! Model_ req) as [style|] eqn:Hl; [|done].
    destruct (Hstyle _ _ Hl) as [[-> (a & Ha & Hu & _)]|[-> (a & Ha & Hu)]].
    + left. split; [done|]. exists a. rewrite Ha. by split_and!.
    + right. split; [done|]. exists a. rewrite Ha. by split_and!.
  - intros req w. unfold nvidia.Completion.
    destruct (nvidia.modelStyles p !! cModel req) as [style|] eqn:Hl; [|done].
    destruct (Hstyle _ _ Hl) as [[-> (a & Ha & _ & Hu)]|[-> _]].
    + left. split; [done|]. exists a. rewrite Ha. by split_and!.
    + right. split; [done|]. by eexists.
Qed.

(** X24, witness: the section [samples.capitalSection], whose first model
    has the style [OpenAI].  The sorting takes it, the provider is not
    built. *)
Lemma nvidia_needs_exact_styles_witness :
  (exists found,
      nvidia.sortModels "nvidia" (config.Models samples.capitalSection)
        {| nvidia.openaiModels := []; nvidia.claudeModels := []; nvidia.allModels := [];
           nvidia.styles := ∅ |} = Ok found) /\
  exists err,
    nvidia.New "nvidia" samples.capitalSection (Some samples.unreachable) = Err err.
Proof.
  split.
  - apply sortModels_ok.
    apply List.Forall_cons; [left; vm_compute; reflexivity|].
    apply List.Forall_cons; [right; vm_compute; reflexivity|apply List.Forall_nil].
  - destruct (nvidia.New "nvidia" samples.capitalSection (Some samples.unreachable))
      as [e|p] eqn:Hp; [by eauto|].
    destruct (nvidia_needs_exact_styles "nvidia" samples.capitalSection samples.unreachable)
      as [H _].
    destruct (H (ex_intro _ p Hp)) as [_ Hall].
    apply List.Forall_inv in Hall. cbn in Hall. by destruct Hall.
Defined.

(** X25, witness: the provider of [samples.nvidiaSection] refuses a
    completion for its model [nemo], of style [claude]. *)
Lemma nvidia_routes_by_style_witness :
  exists p msg,
    nvidia.New "nvidia" samples.nvidiaSection (Some samples.unreachable) = Ok p /\
    nvidia.Completion samples.openaiOffline p
      {| cModel := "nemo"; cPrompt := "hi"; cStream := false; cMaxTokens := 0;
         cTemperature := 0; cOptions := None |} examples.w0
    = (Err (Wrap msg (Sentinel ErrUnsupportedOperation)), examples.w0).
Proof.
  destruct (nvidia.New "nvidia" samples.nvidiaSection (Some samples.unreachable))
    as [e|p] eqn:Hp; [by vm_compute in Hp|].
  destruct (nvidia_routes_by_style samples.openaiOffline examples.offline "nvidia"
              samples.nvidiaSection samples.unreachable p Hp) as (_ & _ & H).
  specialize (H {| cModel := "nemo"; cPrompt := "hi"; cStream := false; cMaxTokens := 0;
                   cTemperature := 0; cOptions := None |} examples.w0).
  cbn [cModel] in H.
  assert (nvidia.modelStyles p !! "nemo" = Some "claude") as Hst.
  { clear H. vm_compute in Hp. injection Hp as <-. vm_compute. reflexivity. }
  rewrite Hst in H.
  destruct H as [[H _]|[_ [msg H]]]; [discriminate|]. by exists p, msg.
Defined.

(** X17, witness: a chat with the stream flag is refused at once. *)
Lemma openai_calls_upstream_once_witness :
  exists p msg,
    openai.New "openai" samples.openaiSection (Some samples.unreachable) = Ok p /\
    openai.Chat samples.openaiOffline p
      {| Model_ := "gpt-4o"; Messages := []; Stream := true; Options := None |} examples.w0
    = (Err (Wrap msg (Sentinel ErrUnsupportedOperation)), examples.w0).
Proof.
  destruct (openai.New "openai" samples.openaiSection (Some samples.unreachable))
    as [e|p] eqn:Hp; [by vm_compute in Hp|].
  destruct (openai_calls_upstream_once samples.openaiOffline p examples.w0) as [H _].
  destruct (H {| Model_ := "gpt-4o"; Messages := []; Stream := true; Options := None |})
    as (_ & Hs & _).
  destruct (Hs eq_refl) as [msg Hm]. by exists p, msg.
Defined.

(** ** Provider factory *)

Section factory_more.

Import provider.

Lemma sectionRegistered_mono r r2 name sec :
  models r ⊆ models r2 -> sectionRegistered r name sec -> sectionRegistered r2 name sec.
Proof.
  intros Hsub [Hm Ha].
  assert (forall id res, LookupModel r id = Ok res -> LookupModel r2 id = Ok res) as Hl.
  { intros id res. unfold LookupModel.
    destruct (models r !! id) as [e|] eqn:He; [|done].
    by rewrite (lookup_weaken _ _ _ _ He Hsub). }
  split.
  - intros m Hin. destruct (Hm m Hin) as (p & Hp & Hn). exists p. split; [by apply Hl|done].
  - intros a t Hin. destruct (Ha a t Hin) as (found & H1 & H2). exists found.
    split; by apply Hl.
Qed.

(** One registration that succeeds, of a provider that lists the models
    of a section under the section's name. *)
Lemma register_section r p visited r2 name sec :
  RegisterProvider r (Some p) visited = (None, r2) ->
  ListModels p = Ok (List.map (listed name) (config.Models sec)) ->
  Name p = name ->
  visited ≡ₚ config.Aliases sec ->
  sectionRegistered r2 name sec /\ models r ⊆ models r2.
Proof.
  intros H Hl Hn Hperm.
  pose proof (RegisterProvider_subseteq r (Some p) visited) as Hsub. rewrite H in Hsub.
  split; [|done].
  unfold RegisterProvider in H. rewrite Hl in H.
  destruct (byName r !! Name p); [done|].
  destruct (registerModels p _ (models r)) as [[e|] ms] eqn:Hm; [done|].
  destruct (registerAliases visited ms) as [e ms'] eqn:Ha.
  injection H as -> <-. split.
  - intros m Hin. exists p. split; [|done]. unfold LookupModel. cbn [models].
    erewrite lookup_weaken;
      [|eapply (registerModels_ok _ _ _ _ (listed name m) Hm), List.in_map, Hin
       |by eapply registerAliases_subseteq].
    done.
  - intros a t Hin.
    assert (In (a, t) visited) as Hin'.
    { eapply Permutation_in; [symmetry; exact Hperm|exact Hin]. }
    destruct (registerAliases_ok _ _ _ _ _ Ha Hin') as (e & H1 & H2).
    exists (model e, provider e). unfold LookupModel. cbn [models]. by rewrite H1, H2.
Qed.

End factory_more.

(** X26.  A build that succeeds has registered everything that is
    configured.  After it, every model of the OpenAI, the Claude and (if
    there is one) the NVIDIA section resolves under its id to its
    descriptor (the id, the name of the section, the configured style)
    and a provider of the section's name, and every alias resolves to
    what its target resolves to, in whatever order the alias maps were
    visited; what resolved before the build resolves as before.  Such a
    build also means that the OpenAI section holds models of style
    [openai] only and the Claude section models of style [claude] only,
    which validation does not ask for. *)
Theorem build_registers_the_configuration env c r0 r' :
  (forall l, providerfactory.visit env l ≡ₚ l) ->
  providerfactory.RegisterConfiguredProviders env c (Some r0) = (None, Some r') ->
  sectionRegistered r' "openai" (config.OpenAI (config.Providers c)) /\
  sectionRegistered r' "claude" (config.Claude (config.Providers c)) /\
  (forall nvidia, config.NVIDIA (config.Providers c) = Some nvidia ->
                  sectionRegistered r' "nvidia" nvidia) /\
  Forall (fun m => config.APIStyle m = "openai")
         (config.Models (config.OpenAI (config.Providers c))) /\
  Forall (fun m => config.APIStyle m = "claude")
         (config.Models (config.Claude (config.Providers c))) /\
  forall id found, provider.LookupModel r0 id = Ok found ->
                   provider.LookupModel r' id = Ok found.
Proof.
  intros Hvisit H. unfold providerfactory.RegisterConfiguredProviders in H.
  destruct (openai.New "openai" _ _) as [e|po] eqn:Hpo; [done|].
  destruct (provider.RegisterProvider r0 _ _) as [[e|] r1] eqn:Hr1; [done|].
  destruct (claudeProvider.New "claude" _ _) as [e|pc] eqn:Hpc; [done|].
  destruct (provider.RegisterProvider r1 _ _) as [[e|] r2] eqn:Hr2; [done|].
  pose proof (openai_New_inv _ _ _ _ Hpo) as [Hbo Hso].
  rewrite (openai_New_ok _ _ _ Hbo Hso) in Hpo. injection Hpo as <-.
  pose proof (claude_New_inv _ _ _ _ Hpc) as [Hbc Hsc].
  rewrite (claude_New_ok _ _ _ Hbc Hsc) in Hpc. injection Hpc as <-.
  destruct (register_section _ _ _ _ "openai" _ Hr1 eq_refl eq_refl (Hvisit _))
    as [Ho Hsub1].
  destruct (register_section _ _ _ _ "claude" _ Hr2 eq_refl eq_refl (Hvisit _))
    as [Hc Hsub2].
  assert (forall (ra rb : provider.Registry) id found,
             provider.models ra ⊆ provider.models rb ->
             provider.LookupModel ra id = Ok found ->
             provider.LookupModel rb id = Ok found) as Hkeep.
  { intros ra rb id found Hsub. unfold provider.LookupModel.
    destruct (provider.models ra !! id) as [e|] eqn:He; [|done].
    by rewrite (lookup_weaken _ _ _ _ He Hsub). }
  destruct (config.NVIDIA (config.Providers c)) as [n|] eqn:Hn.
  - destruct (nvidia.New "nvidia" n _) as [e|pn] eqn:Hpn; [done|].
    destruct (provider.RegisterProvider r2 _ _) as [[e|] r3] eqn:Hr3; [done|].
    injection H as <-.
    assert (nvidia.models pn = List.map (listed "nvidia") (config.Models n)) as Hmodels.
    { destruct (nvidia_needs_exact_styles "nvidia" n (providerfactory.nvidiaClient env))
        as [Hex _].
      destruct (Hex (ex_intro _ pn Hpn)) as [_ Hall].
      apply nvidia_New_inv in Hpn as (found & _ & Hs & _ & -> & _).
      apply sortModels_spec in Hs as (_ & _ & -> & _). cbn [app nvidia.allModels].
      apply List.map_ext_in. intros m Hin. unfold listed.
      rewrite List.Forall_forall in Hall. by rewrite (normalisedStyle_exact m (Hall m Hin)). }
    destruct (register_section _ _ _ _ "nvidia" n Hr3) as [Hnv Hsub3].
    { cbn [provider.ListModels nvidia.asProvider]. by rewrite Hmodels. }
    { cbn [provider.Name nvidia.asProvider].
      by apply nvidia_New_inv in Hpn as (found & _ & _ & -> & _). }
    { apply Hvisit. }
    split_and!; try done.
    + eapply sectionRegistered_mono; [|exact Ho]. by etrans.
    + eapply sectionRegistered_mono; [|exact Hc]. done.
    + by intros n' [= <-].
    + intros id found Hl. eapply Hkeep; [|exact Hl]. etrans; [exact Hsub1|]. by etrans.
  - injection H as <-. split_and!; try done.
    + eapply sectionRegistered_mono; [|exact Ho]. done.
    + intros id found Hl. eapply Hkeep; [|exact Hl]. by etrans.
Qed.

(** X26, witness: the build of [samples.cfg] on the empty registry; its
    model [gpt-4o] resolves, and so does its alias [fast]. *)
Lemma build_registers_the_configuration_witness :
  exists r' p,
    providerfactory.RegisterConfiguredProviders samples.env samples.cfg
      (Some provider.NewRegistry) = (None, Some r') /\
    provider.LookupModel r' "gpt-4o"
    = Ok ({| models.ID := "gpt-4o"; models.Provider := "openai";
             models.APIStyle := "openai" |}, p) /\
    provider.LookupModel r' "fast" = provider.LookupModel r' "gpt-4o".
Proof.
  assert (exists r', providerfactory.RegisterConfiguredProviders samples.env samples.cfg
                       (Some provider.NewRegistry) = (None, Some r')) as [r' Hr].
  { cbv -[openai.Chat openai.Completion claude.Chat claude.Completion bind ret].
    eexists. reflexivity. }
  destruct (build_registers_the_configuration samples.env samples.cfg provider.NewRegistry r')
    as ([Hm Ha] & _); [done|exact Hr|].
  destruct (Hm {| config.ID := "gpt-4o"; config.APIStyle := "openai" |}) as (p & Hp & _);
    [by left|].
  destruct (Ha "fast" "gpt-4o") as (found & H1 & H2); [by left|].
  exists r', p. split; [exact Hr|]. split; [exact Hp|]. by rewrite H1, H2.
Defined.
